(** * Resumable paraphrase-generation pipeline: model and properties

    Shallow embedding of [generate_paraphrases.py] and [merge_results.py].

    Conventions of the model.
    - A Python [str] is a [string]; one [ascii] stands for one code point
      below 256.
    - A Python [dict] is a [gmap]; a [set] is a [gset]; a [Counter], whose
      iteration order is observable, is an association list.
    - CSV files are kept as the rows of cells that [csv.writer] receives;
      the text the writer makes of them and what [csv.reader] reads from
      that text are given in the module [Csv].
    - The external service and [random.sample] are oracles, and so is
      the answer of the output directory to the name of a file in the
      module [OnDisk].
    - Logging and the ETA arithmetic have no influence on control flow and
      are left out; [time.sleep] is kept as an event of the trace. *)

From Stdlib Require Import ZArith NArith Ascii String List Bool Lia.
From Stdlib Require Import Sorted Permutation DecimalString DecimalNat.
From stdpp Require Import base gmap strings list fin_maps.
Import ListNotations.

Local Open Scope Z_scope.
Local Open Scope list_scope.

(* ===================================================================== *)
(** ** Python string primitives *)
(* ===================================================================== *)

Module Py.

(** [str.isspace] on one code point below 256. *)
Definition isspace (a : ascii) : bool :=
  let n := N_of_ascii a in
  (((9 <=? n) && (n <=? 13)) || ((28 <=? n) && (n <=? 32))
   || (n =? 133) || (n =? 160))%N.

(** [c in chars] for a one-character [c]. *)
Fixpoint in_chars (chars : string) (a : ascii) : bool :=
  match chars with
  | EmptyString => false
  | String c chars' => Ascii.eqb a c || in_chars chars' a
  end.

(** Drop the leading characters that satisfy [p]. *)
Fixpoint lstrip_where (p : ascii -> bool) (s : string) : string :=
  match s with
  | EmptyString => EmptyString
  | String a s' => if p a then lstrip_where p s' else s
  end.

(** Drop the trailing characters that satisfy [p]. *)
Fixpoint rstrip_where (p : ascii -> bool) (s : string) : string :=
  match s with
  | EmptyString => EmptyString
  | String a s' =>
      match rstrip_where p s' with
      | EmptyString => if p a then EmptyString else String a EmptyString
      | r => String a r
      end
  end.

(** [s.lstrip(chars)] *)
Definition lstrip (chars : string) (s : string) : string :=
  lstrip_where (in_chars chars) s.

(** [s.strip()] *)
Definition strip (s : string) : string :=
  rstrip_where isspace (lstrip_where isspace s).

(** [s.split(sep)] for a one-character separator: never returns the
    empty list, and keeps empty fields. *)
Fixpoint split (sep : ascii) (s : string) : list string :=
  match s with
  | EmptyString => [EmptyString]
  | String a s' =>
      if Ascii.eqb a sep then EmptyString :: split sep s'
      else match split sep s' with
           | cur :: rest => String a cur :: rest
           | [] => [String a EmptyString]
           end
  end.

(** Truth value of a string: [not s] is [is_empty s]. *)
Definition is_empty (s : string) : bool :=
  match s with EmptyString => true | _ => false end.

(** [str.lower] on one code point below 256. *)
Definition lower_char (a : ascii) : ascii :=
  let n := N_of_ascii a in
  if (((65 <=? n) && (n <=? 90))
      || ((192 <=? n) && (n <=? 222) && negb (n =? 215)))%N
  then ascii_of_N (n + 32) else a.

(** [s.lower()] *)
Fixpoint lower (s : string) : string :=
  match s with
  | EmptyString => EmptyString
  | String a s' => String (lower_char a) (lower s')
  end.

(** [s.endswith(suffix)] *)
Definition endswith (s suffix : string) : bool :=
  let n := String.length s in
  let k := String.length suffix in
  (k <=? n)%nat && String.eqb (String.substring (n - k) k s) suffix.

(** [l[i]] with Python's negative indices; [None] is [IndexError]. *)
Definition getitem {A} (l : list A) (i : Z) : option A :=
  let n := Z.of_nat (List.length l) in
  if (0 <=? i) && (i <? n) then nth_error l (Z.to_nat i)
  else if (- n <=? i) && (i <? 0) then nth_error l (Z.to_nat (n + i))
  else None.

(** [l[:k]] *)
Definition slice_to {A} (l : list A) (k : Z) : list A :=
  if 0 <=? k then firstn (Z.to_nat k) l
  else firstn (Z.to_nat (Z.of_nat (List.length l) + k)) l.

(** [sorted(l, key=key)] where keys are strings: a stable insertion
    sort under code-point order. *)
Fixpoint insert_by_key (key : string -> string) (x : string)
    (l : list string) : list string :=
  match l with
  | [] => [x]
  | y :: l' =>
      if String.ltb (key x) (key y) then x :: l
      else y :: insert_by_key key x l'
  end.

Definition sorted_by_key (key : string -> string) (l : list string)
    : list string :=
  fold_left (fun acc x => insert_by_key key x acc) l [].

End Py.

(* ===================================================================== *)
(** ** Generation client: [generate_questions_with_gpt5] *)
(* ===================================================================== *)

(** The number of questions asked for and checked, the literal 200. *)
Definition TARGET : nat := 200%nat.

(** What the prompt depends on: the answer and the examples.  The tag is
    used for log lines only. *)
Record prompt := { p_answer : string; p_examples : list string }.

(** Outcome of one [client.responses.create] call: an exception, or a
    response with its [output_text]. *)
Inductive response :=
| Fault
| Output (text : string).

(** What a run does, in the order it does it. *)
Inductive event :=
| EvItem (i : Z)          (* loop body entered at ordinal i *)
| EvGenerate (i : Z)      (* generation client called for ordinal i *)
| EvRequest (p : prompt)  (* one request sent to the service *)
| EvSleep (seconds : nat)
| EvSave (filename : string)
| EvProgress (v : Z).     (* progress file overwritten with v *)

(** A CSV file as the list of its rows, each a list of cells. *)
Abbreviation csv_file := (list (list string)).

(** The files the run reads and writes, the number of requests sent to
    the service, and the history of what the run did. *)
Record world := {
  progress_file : option Z;         (* None: absent or empty *)
  output_dir : gmap string csv_file;
  requests : nat;                   (* requests sent so far *)
  trace : list event
}.

(** Record an event at the end of the history. *)
Definition emit (e : event) (w : world) : world :=
  {| progress_file := progress_file w; output_dir := output_dir w;
     requests := requests w; trace := trace w ++ [e] |}.

(** The line break the response is split on. *)
Definition NL : ascii := "010"%char.

(** One iteration of the line loop of the parser. *)
Definition parse_step (questions : list string) (line : string)
    : list string :=
  let line := Py.strip line in
  if Py.is_empty line then questions
  else
    let line := Py.lstrip ". )-" (Py.lstrip "0123456789" line) in
    let line := Py.strip line in
    if Py.is_empty line then questions else questions ++ [line].

(** The loop [for line in questions_text.split('\n')] that fills
    [questions]. *)
Definition parse_questions (questions_text : string) : list string :=
  fold_left parse_step (Py.split NL questions_text) [].

Section Client.

(** The service: what the [n]-th request overall returns for a prompt. *)
Variable service : nat -> prompt -> response.

(** [client.responses.create(...)] *)
Definition send (p : prompt) (w : world) : response * world :=
  (service (requests w) p,
   emit (EvRequest p)
     {| progress_file := progress_file w; output_dir := output_dir w;
        requests := S (requests w); trace := trace w |}).

(** The [for attempt in range(max_retries)] loop, over the attempts
    still to come. *)
Fixpoint generate_attempts (max_retries : nat) (p : prompt)
    (attempts : list nat) (w : world) : option (list string) * world :=
  match attempts with
  | [] => (None, w)
  | attempt :: later =>
      let '(r, w1) := send p w in
      match r with
      | Fault =>
          if (attempt <? max_retries - 1)%nat
          then generate_attempts max_retries p later (emit (EvSleep 5) w1)
          else (None, w1)
      | Output text =>
          let questions_text := Py.strip text in
          if Py.is_empty questions_text then
            if (attempt <? max_retries - 1)%nat
            then generate_attempts max_retries p later (emit (EvSleep 2) w1)
            else (None, w1)
          else
            let questions := parse_questions questions_text in
            if (List.length questions <? TARGET)%nat then
              if (attempt <? max_retries - 1)%nat
              then generate_attempts max_retries p later
                     (emit (EvSleep 2) w1)
              else (None, w1)
            else (Some (firstn TARGET questions), w1)
      end
  end.

(** [None] is the Python [None]; the result is otherwise a list. *)
Definition generate_questions_with_gpt5 (original_answer : string)
    (example_questions : list string) (max_retries : nat) (w : world)
    : option (list string) * world :=
  generate_attempts max_retries
    {| p_answer := original_answer; p_examples := example_questions |}
    (seq 0 max_retries) w.

End Client.

(* ===================================================================== *)
(** ** Example store and answers lookup *)
(* ===================================================================== *)

(** A row read by [csv.DictReader] from a file with the columns
    [question] and [tag]. *)
Record qrow := { question : string; tag : string }.

(** A row of the answers file, columns [tag] and [answer]. *)
Record arow := { a_tag : string; a_answer : string }.

(** [elements] stands for the iteration order of the Python set.  The
    sort is stable, so that order shows only between tags that are equal
    up to case. *)
Definition get_unique_tags_from_questions (rows : list qrow) : list string :=
  let unique_tags : gset string :=
    fold_left
      (fun (acc : gset string) row =>
         let tag := Py.strip (tag row) in
         if negb (Py.is_empty tag) && negb (String.eqb tag "fraction")
         then {[tag]} ∪ acc else acc)
      rows ∅ in
  Py.sorted_by_key Py.lower (elements unique_tags).

(** A later row with the same tag replaces the answer of an earlier
    one. *)
Definition load_answers_lookup (rows : list arow) : gmap string string :=
  fold_left (fun (m : gmap string string) row => <[a_tag row := a_answer row]> m)
    rows ∅.

(** One iteration of the loading loop: [tag_questions[tag].append(...)]
    on a [defaultdict(list)]. *)
Definition load_example_step (m : gmap string (list string)) (row : qrow)
    : gmap string (list string) :=
  if String.eqb (tag row) "fraction" then m
  else if Py.is_empty (Py.strip (question row)) then m
  else <[tag row := default [] (m !! tag row) ++ [Py.strip (question row)]]> m.

(** The index from a tag, as written in the file, to its questions. *)
Definition load_example_questions (rows : list qrow)
    : gmap string (list string) :=
  fold_left load_example_step rows ∅.

Section Examples.

(** [random.sample(population, k)] *)
Variable sample : list string -> nat -> list string.

(** All the examples of the tag when there are at most [num_examples],
    a sample of them otherwise, none for an unknown tag. *)
Definition get_random_examples (tag_questions : gmap string (list string))
    (tag_name : string) (num_examples : nat) : list string :=
  match tag_questions !! tag_name with
  | None => []
  | Some available =>
      if (List.length available <=? num_examples)%nat then available
      else sample available num_examples
  end.

End Examples.

(* ===================================================================== *)
(** ** Checkpoint store and per-item writer *)
(* ===================================================================== *)

(** The ordinal in the progress file, [-1] without one. *)
Definition get_last_processed_index (w : world) : Z :=
  match progress_file w with
  | Some index => index
  | None => -1
  end.

(** Overwrite the progress file. *)
Definition update_progress (index : Z) (w : world) : world :=
  emit (EvProgress index)
    {| progress_file := Some index; output_dir := output_dir w;
       requests := requests w; trace := trace w |}.

(** The header row of every artifact and of the merged file. *)
Definition HEADER : list string := ["question"; "tag"].

(** The file of a tag in the output directory. *)
Definition artifact_name (tag_name : string) : string := tag_name +:+ ".csv".

(** The rows [save_individual_csv] writes: the header, then one row per
    question. *)
Definition artifact_rows (tag_name : string) (generated_questions : list string)
    : csv_file :=
  HEADER :: map (fun question => [question; tag_name]) generated_questions.

(** Create or replace the file of the tag, in a directory that lets the
    file be opened. *)
Definition save_individual_csv (tag_name : string)
    (generated_questions : list string) (w : world) : world :=
  emit (EvSave (artifact_name tag_name))
    {| progress_file := progress_file w;
       output_dir := <[artifact_name tag_name :=
                         artifact_rows tag_name generated_questions]>
                       (output_dir w);
       requests := requests w; trace := trace w |}.

(* ===================================================================== *)
(** ** Orchestrator: [run_paraphrase_generation] *)
(* ===================================================================== *)

(** How the processing of one tag ends. *)
Inductive outcome := Success | Failed | Skipped.

(** The counters of a run, also its return value. *)
Record counts := { success_count : nat; failure_count : nat;
                   skipped_count : nat }.

(** Add one to the counter of the outcome. *)
Definition tally (o : outcome) (c : counts) : counts :=
  match o with
  | Success => {| success_count := S (success_count c);
                  failure_count := failure_count c;
                  skipped_count := skipped_count c |}
  | Failed => {| success_count := success_count c;
                 failure_count := S (failure_count c);
                 skipped_count := skipped_count c |}
  | Skipped => {| success_count := success_count c;
                  failure_count := failure_count c;
                  skipped_count := S (skipped_count c) |}
  end.

(** [not l] for a list. *)
Definition is_nil {A} (l : list A) : bool :=
  match l with [] => true | _ => false end.

Section Orchestrator.

Variable service : nat -> prompt -> response.
Variable sample : list string -> nat -> list string.

Variable tag_questions : gmap string (list string).
Variable tag_to_answer : gmap string string.

(** Body of the loop once [tag_name = unique_tags[i]] is known. *)
Definition process_tag (i : Z) (tag_name : string) (w : world)
    : outcome * world :=
  match tag_to_answer !! tag_name with
  | None => (Skipped, update_progress i w)
  | Some original_answer =>
      let examples := get_random_examples sample tag_questions tag_name 30 in
      if is_nil examples then (Skipped, update_progress i w)
      else
        let '(questions, w1) :=
          generate_questions_with_gpt5 service original_answer examples 3
            (emit (EvGenerate i) w) in
        match questions with
        | Some qs =>
            if negb (is_nil qs) && (List.length qs =? 200)%nat
            then (Success,
                  emit (EvSleep 1)
                    (update_progress i (save_individual_csv tag_name qs w1)))
            else (Failed, update_progress i w1)
        | None => (Failed, update_progress i w1)
        end
  end.

Variable unique_tags : list string.

(** [for i in range(i, i + n)]; a [None] result is the [IndexError] of
    [unique_tags[i]]. *)
Fixpoint tag_loop (n : nat) (i : Z) (c : counts) (w : world)
    : option counts * world :=
  match n with
  | O => (Some c, w)
  | S n' =>
      let w := emit (EvItem i) w in
      match Py.getitem unique_tags i with
      | None => (None, w)
      | Some tag_name =>
          let '(o, w') := process_tag i tag_name w in
          tag_loop n' (i + 1) (tally o c) w'
      end
  end.

(** [for i in range(start, stop)] *)
Definition for_range (start stop : Z) (c : counts) (w : world)
    : option counts * world :=
  tag_loop (Z.to_nat (stop - start)) start c w.

(** The counters at the start of a run. *)
Definition no_counts : counts :=
  {| success_count := 0; failure_count := 0; skipped_count := 0 |}.

(** The run from [total_tags = len(unique_tags)] on. *)
Definition resume_and_process (w : world) : option counts * world :=
  let total_tags := Z.of_nat (List.length unique_tags) in
  let last_processed := get_last_processed_index w in
  let start_index := last_processed + 1 in
  let '(start_index, w) :=
    if start_index >=? total_tags then (0, update_progress (-1) w)
    else (start_index, w) in
  for_range start_index total_tags no_counts w.

End Orchestrator.

(** [client_ok] is the result of [init_openai_client]; the two files are
    given by their rows. *)
Definition run_paraphrase_generation
    (service : nat -> prompt -> response)
    (sample : list string -> nat -> list string)
    (client_ok : bool)
    (examples_file : list qrow) (answers_file : list arow)
    (test_mode : bool) (test_tag_count : Z) (w : world)
    : option counts * world :=
  if negb client_ok then (Some no_counts, w)
  else
    let tag_questions := load_example_questions examples_file in
    let unique_tags := get_unique_tags_from_questions examples_file in
    let tag_to_answer := load_answers_lookup answers_file in
    let unique_tags :=
      if test_mode then Py.slice_to unique_tags test_tag_count
      else unique_tags in
    resume_and_process service sample tag_questions tag_to_answer
      unique_tags w.

(* ===================================================================== *)
(** ** Merge and validate: [merge_results.py] *)
(* ===================================================================== *)

(** Position of a column name in the header row. *)
Fixpoint column (name : string) (header : list string) : option nat :=
  match header with
  | [] => None
  | h :: header' =>
      if String.eqb h name then Some 0%nat
      else option_map S (column name header')
  end.

(** The value a [DictReader] row holds under the key [name]; a missing
    cell reads as the empty string. *)
Definition cell (name : string) (header cells : list string) : string :=
  match column name header with
  | Some k => nth k cells ""
  | None => ""
  end.

(** [csv.DictReader]: the first row names the columns, rows without any
    cell are passed over. *)
Definition dict_reader (f : csv_file) : list qrow :=
  match f with
  | [] => []
  | header :: body =>
      map (fun cells => {| question := cell "question" header cells;
                           tag := cell "tag" header cells |})
        (List.filter (fun cells => negb (is_nil cells)) body)
  end.

(** [os.listdir] filtered on the extension, then [list.sort]. *)
Definition get_sorted_csv_files (directory : gmap string csv_file)
    : list string :=
  Py.sorted_by_key (fun s => s)
    (List.filter (fun filename => Py.endswith filename ".csv")
       (elements (dom directory))).

(** The data rows of one file of the directory, cell for cell as they
    were written. *)
Definition read_individual_csv (directory : gmap string csv_file)
    (filepath : string) : list qrow :=
  match directory !! filepath with
  | Some f => dict_reader f
  | None => []
  end.

(** Rows written by [csv.DictWriter] with the field names [question],
    [tag]; nothing at all is written for an empty merge. *)
Definition write_merged (merged_data : list qrow) : csv_file :=
  if is_nil merged_data then []
  else HEADER :: map (fun row => [question row; tag row]) merged_data.

(** Returns the content of the output file and [len(merged_data)]. *)
Definition merge_csv_files (directory : gmap string csv_file)
    (csv_files : list string) : csv_file * nat :=
  let merged_data :=
    fold_left
      (fun merged_data filepath =>
         let rows := read_individual_csv directory filepath in
         if is_nil rows then merged_data else merged_data ++ rows)
      csv_files [] in
  (write_merged merged_data, List.length merged_data).

(** [collections.Counter] over a list, keys in order of first occurrence. *)
Fixpoint counter_add (t : string) (c : list (string * nat))
    : list (string * nat) :=
  match c with
  | [] => [(t, 1%nat)]
  | (k, n) :: c' =>
      if String.eqb k t then (k, S n) :: c' else (k, n) :: counter_add t c'
  end.

Definition Counter (tags : list string) : list (string * nat) :=
  fold_left (fun c t => counter_add t c) tags [].

(** What [validate_merged_file] prints. *)
Record report := {
  actual_count : nat;
  expected_total : nat;
  row_count_matches : bool;
  unique_tag_count : nat;
  tags_with_wrong_count : list string;
  invalid_count : nat
}.

(** Reads the merged file again and fills the report; the per-tag check
    compares each count with 10. *)
Definition validate_merged_file (output_file : csv_file)
    (expected_count : nat) : report :=
  let rows := dict_reader output_file in
  let actual_count := List.length rows in
  let tags := map tag rows in
  let tag_counts := Counter tags in
  {| actual_count := actual_count;
     expected_total := expected_count;
     row_count_matches := (actual_count =? expected_count)%nat;
     unique_tag_count := List.length tag_counts;
     tags_with_wrong_count :=
       map fst (List.filter (fun tc => negb (snd tc =? 10)%nat) tag_counts);
     invalid_count :=
       List.length
         (List.filter (fun row => Py.is_empty (question row)
                             || Py.is_empty (tag row)) rows) |}.

(** [None]: no CSV file in the directory.  Otherwise the merged file and
    the validation report. *)
Definition run_merge (input_dir : gmap string csv_file)
    : option (csv_file * report) :=
  let csv_files := get_sorted_csv_files input_dir in
  if is_nil csv_files then None
  else
    let '(output_file, merged_count) := merge_csv_files input_dir csv_files in
    Some (output_file, validate_merged_file output_file merged_count).

(* ===================================================================== *)
(** ** Further Python primitives *)
(* ===================================================================== *)

(** A Python [dict] whose order of insertion is observable: an
    association list with each key once, in that order. *)
Module Dict.

(** [d[k]]; [None] stands for [KeyError]. *)
Fixpoint get {V} (d : list (string * V)) (k : string) : option V :=
  match d with
  | [] => None
  | (k', v) :: d' => if String.eqb k' k then Some v else get d' k
  end.

(** [d[k] = v]: in place for a key of [d], at the end for a new key. *)
Fixpoint set {V} (k : string) (v : V) (d : list (string * V))
    : list (string * V) :=
  match d with
  | [] => [(k, v)]
  | (k', v') :: d' =>
      if String.eqb k' k then (k', v) :: d' else (k', v') :: set k v d'
  end.

(** [k in d] *)
Definition mem {V} (d : list (string * V)) (k : string) : bool :=
  match get d k with Some _ => true | None => false end.

(** [list(d.keys())] *)
Definition keys {V} (d : list (string * V)) : list string := map fst d.

End Dict.

Module PyText.

(** [str.isalnum] on one code point below 256. *)
Definition isalnum (a : ascii) : bool :=
  let n := N_of_ascii a in
  (((48 <=? n) && (n <=? 57)) || ((65 <=? n) && (n <=? 90))
   || ((97 <=? n) && (n <=? 122)) || (n =? 170)
   || ((178 <=? n) && (n <=? 179)) || (n =? 181)
   || ((185 <=? n) && (n <=? 186)) || ((188 <=? n) && (n <=? 190))
   || ((192 <=? n) && (n <=? 214)) || ((216 <=? n) && (n <=? 246))
   || ((248 <=? n) && (n <=? 255)))%N.

(** [s.replace(old, new)] for one-character [old] and [new]. *)
Fixpoint replace_char (old new : ascii) (s : string) : string :=
  match s with
  | EmptyString => EmptyString
  | String a s' =>
      String (if Ascii.eqb a old then new else a) (replace_char old new s')
  end.

(** ["".join(c if keep(c) else '' for c in s)] *)
Fixpoint keep_chars (keep : ascii -> bool) (s : string) : string :=
  match s with
  | EmptyString => EmptyString
  | String a s' =>
      if keep a then String a (keep_chars keep s') else keep_chars keep s'
  end.

(** [s.strip(chars)] *)
Definition strip_chars (chars : string) (s : string) : string :=
  Py.rstrip_where (Py.in_chars chars) (Py.lstrip_where (Py.in_chars chars) s).

(** [s[:n]] for [n >= 0] *)
Definition prefix_of (n : nat) (s : string) : string := String.substring 0 n s.

(** [str(n)] for [n >= 0] *)
Definition str (n : nat) : string :=
  DecimalString.NilEmpty.string_of_uint (Nat.to_uint n).

End PyText.

(** Exceptions that leave a function of the pipeline. *)
Inductive exn :=
| KeyError (key : string)
| IndexError
| RuntimeError (message : string)
| OSError (filename : string)
| CsvError (message : string).

(** A value returned, or an exception raised. *)
Inductive result (A : Type) :=
| Returned (a : A)
| Raised (e : exn).

Arguments Returned {A} a.
Arguments Raised {A} e.

(* ===================================================================== *)
(** ** Evaluation statistics: [wrong_tag_analysis.py] *)
(* ===================================================================== *)

(** A row of the evaluation file: [row[expected_col]] and
    [row[predicted_col]]. *)
Record erow := { expected_cell : string; predicted_cell : string }.

(** The value [{'right': ..., 'wrong': ...}] kept for a tag. *)
Record tag_stat := { n_right : nat; n_wrong : nat }.

(** The value a missing key of [tag_stats] springs into. *)
Definition no_stat : tag_stat := {| n_right := 0; n_wrong := 0 |}.

(** The body of the loop of [load_evaluation_csv]. *)
Definition count_prediction (tag_stats : list (string * tag_stat))
    (row : erow) : list (string * tag_stat) :=
  let expected_tag := Py.strip (expected_cell row) in
  let predicted_tag := Py.strip (predicted_cell row) in
  let stat := default no_stat (Dict.get tag_stats expected_tag) in
  if String.eqb expected_tag predicted_tag
  then Dict.set expected_tag
         {| n_right := S (n_right stat); n_wrong := n_wrong stat |} tag_stats
  else Dict.set expected_tag
         {| n_right := n_right stat; n_wrong := S (n_wrong stat) |} tag_stats.

(** [TagAnalyzer.load_evaluation_csv]: the statistics start afresh. *)
Definition load_evaluation_csv (rows : list erow)
    : list (string * tag_stat) :=
  fold_left count_prediction rows [].

(** The number printed as loaded predictions. *)
Definition loaded_predictions (tag_stats : list (string * tag_stat)) : nat :=
  list_sum (map (fun kv => (n_right (snd kv) + n_wrong (snd kv))%nat)
              tag_stats).

(* ===================================================================== *)
(** ** Tagging of the groups: [query_tag_processor.py] *)
(* ===================================================================== *)

(** A row of the input file, [row[query_column]], [row[answer_column]]
    and [row[id_column]]; also an entry [{'query', 'answer', 'id'}] of
    [self.data]. *)
Record irow := { r_query : string; r_answer : string; r_id : string }.

(** The fields of a [QueryTagProcessor]. *)
Record processor := {
  data : list irow;
  id_to_queries : list (string * list string);
  id_to_answer : list (string * string);
  id_to_tag : list (string * string);
  query_tags : list (string * string);
  tag_answer : list (string * string)
}.

(** The processor as [__init__] leaves it. *)
Definition new_processor : processor :=
  {| data := []; id_to_queries := []; id_to_answer := []; id_to_tag := [];
     query_tags := []; tag_answer := [] |}.

(** The body of the loop of [load_csv], on the three fields it fills. *)
Definition load_csv_step
    (st : list irow * list (string * list string) * list (string * string))
    (row : irow)
    : list irow * list (string * list string) * list (string * string) :=
  let '(data, id_to_queries, id_to_answer) := st in
  let query := Py.strip (r_query row) in
  let answer := Py.strip (r_answer row) in
  let group_id := Py.strip (r_id row) in
  if negb (Py.is_empty query) && negb (Py.is_empty answer)
     && negb (Py.is_empty group_id)
  then
    (data ++ [{| r_query := query; r_answer := answer; r_id := group_id |}],
     Dict.set group_id
       (default [] (Dict.get id_to_queries group_id) ++ [query])
       id_to_queries,
     if Dict.mem id_to_answer group_id then id_to_answer
     else Dict.set group_id answer id_to_answer)
  else st.

(** [load_csv]: the three fields are filled afresh, the others stay. *)
Definition load_csv (rows : list irow) (p : processor) : processor :=
  let '(data, id_to_queries, id_to_answer) :=
    fold_left load_csv_step rows ([], [], []) in
  {| data := data; id_to_queries := id_to_queries;
     id_to_answer := id_to_answer; id_to_tag := id_to_tag p;
     query_tags := query_tags p; tag_answer := tag_answer p |}.

(** What the tagging prompt depends on: the first five queries and the
    answer cut to 500 characters. *)
Record tag_prompt := { tp_queries : list string; tp_answer : string }.

(** The clean-up of the text the service returned for a tag. *)
Definition clean_tag (content : string) : string :=
  let tag := Py.strip content in
  let tag :=
    PyText.replace_char "-" "_" (PyText.replace_char " " "_" (Py.lower tag)) in
  let tag :=
    PyText.keep_chars (fun c => PyText.isalnum c || Ascii.eqb c "_") tag in
  PyText.strip_chars "_" tag.

(** [_generate_tag_for_group]; [call] numbers the calls of the service. *)
Definition generate_tag_for_group (service : nat -> tag_prompt -> response)
    (call : nat) (group_id : string) (queries : list string)
    (answer : string) : string :=
  let sample_queries := firstn 5 queries in
  let prompt :=
    {| tp_queries := sample_queries;
       tp_answer :=
         PyText.prefix_of 500 answer
         +:+ (if (500 <? String.length answer)%nat then "..." else "") |} in
  match service call prompt with
  | Fault => "tag_" +:+ group_id
  | Output content =>
      let tag := clean_tag content in
      if Py.is_empty tag then "tag_" +:+ group_id else tag
  end.

(** [f"{original_tag}_{counter}"] *)
Definition numbered (original_tag : string) (counter : nat) : string :=
  original_tag +:+ "_" +:+ PyText.str counter.

(** The loop [while tag in used_tags], for at most [fuel] more rounds. *)
Fixpoint next_free (fuel : nat) (original_tag tag : string) (counter : nat)
    (used_tags : gset string) : string :=
  if decide (tag ∈ used_tags) then
    match fuel with
    | O => tag
    | S fuel' =>
        next_free fuel' original_tag (numbered original_tag counter)
          (S counter) used_tags
    end
  else tag.

(** The state of the first loop of [generate_tags]: the index of
    [enumerate], [used_tags] and [self.id_to_tag]. *)
Record tagging := {
  tg_index : nat;
  tg_used : gset string;
  tg_tags : list (string * string)
}.

(** The body of the first loop of [generate_tags]. *)
Definition assign_tag (service : nat -> tag_prompt -> response)
    (p : processor) (st : result tagging) (group_id : string)
    : result tagging :=
  match st with
  | Raised e => Raised e
  | Returned st =>
      match Dict.get (id_to_queries p) group_id with
      | None => Raised (KeyError group_id)
      | Some queries =>
          match Dict.get (id_to_answer p) group_id with
          | None => Raised (KeyError group_id)
          | Some answer =>
              let tag :=
                generate_tag_for_group service (tg_index st) group_id
                  queries answer in
              let tag :=
                next_free (size (tg_used st)) tag tag 1 (tg_used st) in
              Returned {| tg_index := S (tg_index st);
                          tg_used := {[tag]} ∪ tg_used st;
                          tg_tags := Dict.set group_id tag (tg_tags st) |}
          end
      end
  end.

(** The loop that fills [self.query_tags]. *)
Definition fill_query_tags (id_to_tag : list (string * string))
    (acc : result (list (string * string))) (item : irow)
    : result (list (string * string)) :=
  match acc with
  | Raised e => Raised e
  | Returned query_tags =>
      match Dict.get id_to_tag (r_id item) with
      | None => Raised (KeyError (r_id item))
      | Some tag => Returned (Dict.set (r_query item) tag query_tags)
      end
  end.

(** The loop that fills [self.tag_answer]. *)
Definition fill_tag_answer (id_to_answer : list (string * string))
    (acc : result (list (string * string))) (entry : string * string)
    : result (list (string * string)) :=
  match acc with
  | Raised e => Raised e
  | Returned tag_answer =>
      match Dict.get id_to_answer (fst entry) with
      | None => Raised (KeyError (fst entry))
      | Some answer => Returned (Dict.set (snd entry) answer tag_answer)
      end
  end.

(** [generate_tags]: the processor with its tags, or the exception. *)
Definition generate_tags (service : nat -> tag_prompt -> response)
    (p : processor) : result processor :=
  if is_nil (data p)
  then Raised (RuntimeError "No data loaded. Call load_csv() first.")
  else
    let unique_ids := Dict.keys (id_to_queries p) in
    match fold_left (assign_tag service p) unique_ids
            (Returned {| tg_index := 0; tg_used := ∅;
                         tg_tags := id_to_tag p |}) with
    | Raised e => Raised e
    | Returned st =>
        match fold_left (fill_query_tags (tg_tags st)) (data p)
                (Returned []) with
        | Raised e => Raised e
        | Returned query_tags =>
            match fold_left (fill_tag_answer (id_to_answer p)) (tg_tags st)
                    (Returned []) with
            | Raised e => Raised e
            | Returned tag_answer =>
                Returned {| data := data p;
                            id_to_queries := id_to_queries p;
                            id_to_answer := id_to_answer p;
                            id_to_tag := tg_tags st;
                            query_tags := query_tags;
                            tag_answer := tag_answer |}
            end
        end
    end.

(** The rows of [queries_tags.csv] after the header. *)
Definition queries_tags_rows (id_to_tag : list (string * string))
    (acc : result csv_file) (item : irow) : result csv_file :=
  match acc with
  | Raised e => Raised e
  | Returned rows =>
      match Dict.get id_to_tag (r_id item) with
      | None => Raised (KeyError (r_id item))
      | Some tag => Returned (rows ++ [[r_query item; tag]])
      end
  end.

(** [split_to_csv_files]: the contents of [queries_tags.csv] and of
    [tags_answers.csv]. *)
Definition split_to_csv_files (p : processor) : result (csv_file * csv_file) :=
  if is_nil (id_to_tag p)
  then Raised (RuntimeError "No tags generated. Call generate_tags() first.")
  else
    match fold_left (queries_tags_rows (id_to_tag p)) (data p)
            (Returned [["query"; "tag"]]) with
    | Raised e => Raised e
    | Returned queries_tags =>
        Returned
          (queries_tags,
           ["tag"; "answer"]
             :: map (fun entry => [fst entry; snd entry]) (tag_answer p))
    end.

(* ===================================================================== *)
(** ** The generation stage on the files themselves *)
(* ===================================================================== *)

(** [dict(zip(fieldnames, row))]: a later cell replaces an earlier one
    under a repeated name. *)
Definition zip_dict (header cells : list string) : list (string * string) :=
  fold_left (fun d kv => Dict.set (fst kv) (snd kv) d)
    (combine header cells) [].

(** [csv.DictReader] as dictionaries, for files whose rows have as many
    cells as the header has names. *)
Definition dict_rows (f : csv_file) : list (list (string * string)) :=
  match f with
  | [] => []
  | header :: body =>
      map (zip_dict header)
        (List.filter (fun cells => negb (is_nil cells)) body)
  end.

(** [row[key]] *)
Definition field (row : list (string * string)) (key : string)
    : result string :=
  match Dict.get row key with
  | Some v => Returned v
  | None => Raised (KeyError key)
  end.

(** The body of the loop of [load_example_questions], reading the row by
    its keys. *)
Definition load_example_row
    (acc : result (gmap string (list string))) (row : list (string * string))
    : result (gmap string (list string)) :=
  match acc with
  | Raised e => Raised e
  | Returned tag_questions =>
      match field row "tag" with
      | Raised e => Raised e
      | Returned tag =>
          if String.eqb tag "fraction" then Returned tag_questions
          else
            match field row "question" with
            | Raised e => Raised e
            | Returned question =>
                if Py.is_empty (Py.strip question) then Returned tag_questions
                else
                  Returned
                    (<[tag := default [] (tag_questions !! tag)
                              ++ [Py.strip question]]> tag_questions)
            end
      end
  end.

Definition load_example_questions_file (examples_file : csv_file)
    : result (gmap string (list string)) :=
  fold_left load_example_row (dict_rows examples_file) (Returned ∅).

(** The body of the loop of [get_unique_tags_from_questions]. *)
Definition unique_tags_row (acc : result (gset string))
    (row : list (string * string)) : result (gset string) :=
  match acc with
  | Raised e => Raised e
  | Returned unique_tags =>
      match field row "tag" with
      | Raised e => Raised e
      | Returned cell =>
          let tag := Py.strip cell in
          if negb (Py.is_empty tag) && negb (String.eqb tag "fraction")
          then Returned ({[tag]} ∪ unique_tags) else Returned unique_tags
      end
  end.

Definition get_unique_tags_from_file (questions_file : csv_file)
    : result (list string) :=
  match fold_left unique_tags_row (dict_rows questions_file) (Returned ∅) with
  | Raised e => Raised e
  | Returned unique_tags =>
      Returned (Py.sorted_by_key Py.lower (elements unique_tags))
  end.

(** The body of the loop of [load_answers_lookup]. *)
Definition load_answer_row (acc : result (gmap string string))
    (row : list (string * string)) : result (gmap string string) :=
  match acc with
  | Raised e => Raised e
  | Returned tag_to_answer =>
      match field row "tag" with
      | Raised e => Raised e
      | Returned tag =>
          match field row "answer" with
          | Raised e => Raised e
          | Returned answer => Returned (<[tag := answer]> tag_to_answer)
          end
      end
  end.

Definition load_answers_lookup_file (answers_file : csv_file)
    : result (gmap string string) :=
  fold_left load_answer_row (dict_rows answers_file) (Returned ∅).

(** [run_paraphrase_generation] from the two files: the examples are
    loaded first, then the tags, then the answers. *)
Definition run_paraphrase_generation_files
    (service : nat -> prompt -> response)
    (sample : list string -> nat -> list string)
    (client_ok : bool) (examples_file answers_file : csv_file)
    (test_mode : bool) (test_tag_count : Z) (w : world)
    : result (counts * world) :=
  if negb client_ok then Returned (no_counts, w)
  else
    match load_example_questions_file examples_file with
    | Raised e => Raised e
    | Returned tag_questions =>
        match get_unique_tags_from_file examples_file with
        | Raised e => Raised e
        | Returned unique_tags =>
            match load_answers_lookup_file answers_file with
            | Raised e => Raised e
            | Returned tag_to_answer =>
                let unique_tags :=
                  if test_mode then Py.slice_to unique_tags test_tag_count
                  else unique_tags in
                match resume_and_process service sample tag_questions
                        tag_to_answer unique_tags w with
                | (Some c, w') => Returned (c, w')
                | (None, _) => Raised IndexError
                end
            end
        end
    end.

(** [run_full_pipeline]: generation, then the merge of what the output
    directory holds. *)
Definition run_full_pipeline
    (service : nat -> prompt -> response)
    (sample : list string -> nat -> list string)
    (client_ok : bool) (queries_tags tags_answers : csv_file)
    (test_mode : bool) (test_tag_count : Z) (w : world)
    : result (option (csv_file * report) * world) :=
  match run_paraphrase_generation_files service sample client_ok
          queries_tags tags_answers test_mode test_tag_count w with
  | Raised e => Raised e
  | Returned (_, w') => Returned (run_merge (output_dir w'), w')
  end.

(** [QueryTagProcessor.process] on a new processor: the two files
    written, or the exception that ends it. *)
Definition process
    (tag_service : nat -> tag_prompt -> response)
    (service : nat -> prompt -> response)
    (sample : list string -> nat -> list string)
    (client_ok : bool) (rows : list irow) (run_paraphrase : bool)
    (test_mode : bool) (test_tag_count : Z) (w : world)
    : result (csv_file * csv_file) :=
  match generate_tags tag_service (load_csv rows new_processor) with
  | Raised e => Raised e
  | Returned p =>
      match split_to_csv_files p with
      | Raised e => Raised e
      | Returned (queries_tags, tags_answers) =>
          if run_paraphrase then
            match run_full_pipeline service sample client_ok queries_tags
                    tags_answers test_mode test_tag_count w with
            | Raised e => Raised e
            | Returned _ => Returned (queries_tags, tags_answers)
            end
          else Returned (queries_tags, tags_answers)
      end
  end.

(* ===================================================================== *)
(** ** The run on a directory that can refuse a file name *)
(* ===================================================================== *)

(** The name of an artifact is made from the tag, which comes from the
    examples file, so [open(filepath, 'w')] in [save_individual_csv] can
    raise: a tag with a path separator names a file in a subdirectory
    the run never creates.  Here the writer and the loop around it are
    given with that exception; an [OSError] leaves the loop at once,
    before the counter and the progress file are touched. *)
Module OnDisk.

Section Writer.

(** Whether [open(filepath, 'w')] returns for the entry of this name in
    the output directory; it raises [OSError] where this is [false]. *)
Variable opens : string -> bool.

(** The file is written whole once it is open. *)
Definition save_individual_csv (tag_name : string)
    (generated_questions : list string) (w : world) : result world :=
  if opens (artifact_name tag_name)
  then Returned (save_individual_csv tag_name generated_questions w)
  else Raised (OSError (artifact_name tag_name)).

Variable service : nat -> prompt -> response.
Variable sample : list string -> nat -> list string.

Variable tag_questions : gmap string (list string).
Variable tag_to_answer : gmap string string.

(** Body of the loop once [tag_name = unique_tags[i]] is known. *)
Definition process_tag (i : Z) (tag_name : string) (w : world)
    : result outcome * world :=
  match tag_to_answer !! tag_name with
  | None => (Returned Skipped, update_progress i w)
  | Some original_answer =>
      let examples := get_random_examples sample tag_questions tag_name 30 in
      if is_nil examples then (Returned Skipped, update_progress i w)
      else
        let '(questions, w1) :=
          generate_questions_with_gpt5 service original_answer examples 3
            (emit (EvGenerate i) w) in
        match questions with
        | Some qs =>
            if negb (is_nil qs) && (List.length qs =? 200)%nat
            then
              match save_individual_csv tag_name qs w1 with
              | Returned w2 =>
                  (Returned Success,
                   emit (EvSleep 1) (update_progress i w2))
              | Raised e => (Raised e, w1)
              end
            else (Returned Failed, update_progress i w1)
        | None => (Returned Failed, update_progress i w1)
        end
  end.

Variable unique_tags : list string.

(** [for i in range(i, i + n)]; [unique_tags[i]] can raise
    [IndexError]. *)
Fixpoint tag_loop (n : nat) (i : Z) (c : counts) (w : world)
    : result counts * world :=
  match n with
  | O => (Returned c, w)
  | S n' =>
      let w := emit (EvItem i) w in
      match Py.getitem unique_tags i with
      | None => (Raised IndexError, w)
      | Some tag_name =>
          match process_tag i tag_name w with
          | (Returned o, w') => tag_loop n' (i + 1) (tally o c) w'
          | (Raised e, w') => (Raised e, w')
          end
      end
  end.

(** [for i in range(start, stop)] *)
Definition for_range (start stop : Z) (c : counts) (w : world)
    : result counts * world :=
  tag_loop (Z.to_nat (stop - start)) start c w.

(** The run from [total_tags = len(unique_tags)] on. *)
Definition resume_and_process (w : world) : result counts * world :=
  let total_tags := Z.of_nat (List.length unique_tags) in
  let last_processed := get_last_processed_index w in
  let start_index := last_processed + 1 in
  let '(start_index, w) :=
    if start_index >=? total_tags then (0, update_progress (-1) w)
    else (start_index, w) in
  for_range start_index total_tags no_counts w.

End Writer.

(** [client_ok] is the result of [init_openai_client]; the two files are
    given by their rows. *)
Definition run_paraphrase_generation
    (opens : string -> bool)
    (service : nat -> prompt -> response)
    (sample : list string -> nat -> list string)
    (client_ok : bool)
    (examples_file : list qrow) (answers_file : list arow)
    (test_mode : bool) (test_tag_count : Z) (w : world)
    : result counts * world :=
  if negb client_ok then (Returned no_counts, w)
  else
    let tag_questions := load_example_questions examples_file in
    let unique_tags := get_unique_tags_from_questions examples_file in
    let tag_to_answer := load_answers_lookup answers_file in
    let unique_tags :=
      if test_mode then Py.slice_to unique_tags test_tag_count
      else unique_tags in
    resume_and_process opens service sample tag_questions tag_to_answer
      unique_tags w.

End OnDisk.

(* ===================================================================== *)
(** ** The text of a CSV file: [csv.writer], text mode, [csv.reader] *)
(* ===================================================================== *)

(** Every file of the pipeline is written by [csv.writer] or
    [csv.DictWriter] in the default dialect on a file opened with
    [newline=''], and is read by [csv.DictReader] on a file opened
    without it.  This module gives the text between the two: the
    quoting of the writer, the translation of line ends done by the
    text layer on reading, and the state machine of the reader, as
    CPython 3.11 has them.  UTF-8 is the identity on code points and is
    left out. *)
Module Csv.

Definition CR : ascii := "013"%char.
Definition LF : ascii := "010"%char.
Definition QUOTE : ascii := "034"%char.
Definition COMMA : ascii := ","%char.

(** *** Writing *)

(** The characters that make the writer quote a field: the delimiter,
    the quote character and the characters of the line terminator. *)
Definition is_special (c : ascii) : bool :=
  Ascii.eqb c COMMA || Ascii.eqb c QUOTE || Ascii.eqb c CR || Ascii.eqb c LF.

Fixpoint needs_quotes (s : string) : bool :=
  match s with
  | EmptyString => false
  | String c s' => is_special c || needs_quotes s'
  end.

(** Each quote character is written twice. *)
Fixpoint double_quotes (s : string) : string :=
  match s with
  | EmptyString => EmptyString
  | String c s' =>
      if Ascii.eqb c QUOTE then String QUOTE (String QUOTE (double_quotes s'))
      else String c (double_quotes s')
  end.

Definition quoted (s : string) : string :=
  String QUOTE (double_quotes s +:+ String QUOTE EmptyString).

Definition write_field (s : string) : string :=
  if needs_quotes s then quoted s else s.

(** [writer.writerow(row)]: a row that is one empty field is written as
    a pair of quotes. *)
Definition writerow (row : list string) : string :=
  match row with
  | [EmptyString] => quoted EmptyString
  | _ => String.concat (String COMMA EmptyString) (map write_field row)
  end +:+ String CR (String LF EmptyString).

(** The text of a file whose rows went through [writerow] one after the
    other. *)
Definition text_of (f : csv_file) : string :=
  String.concat EmptyString (map writerow f).

(** *** The text layer on reading *)

(** Universal newlines: a carriage return, together with the line feed
    that follows it if there is one, is read as one line feed.
    [after_cr] tells that the previous character was a carriage
    return. *)
Fixpoint universal_newlines_from (after_cr : bool) (s : string) : string :=
  match s with
  | EmptyString => EmptyString
  | String c s' =>
      if Ascii.eqb c CR then String LF (universal_newlines_from true s')
      else if Ascii.eqb c LF then
        if after_cr then universal_newlines_from false s'
        else String LF (universal_newlines_from false s')
      else String c (universal_newlines_from false s')
  end.

Definition universal_newlines (s : string) : string :=
  universal_newlines_from false s.

(** *** Reading *)

Inductive parser_state :=
| START_RECORD
| START_FIELD
| IN_FIELD
| IN_QUOTED_FIELD
| QUOTE_IN_QUOTED_FIELD
| EAT_CRNL.

(** The reader: its state, the field and the record being read, the
    records read so far, and whether the line being read has a
    character. *)
Record reader_state := {
  state : parser_state;
  field : string;
  fields : list string;
  records : list (list string);
  in_line : bool
}.

Definition set_state (s : parser_state) (p : reader_state) : reader_state :=
  {| state := s; field := field p; fields := fields p;
     records := records p; in_line := in_line p |}.

(** [csv.field_size_limit()] *)
Definition field_limit : Z := 131072.

Definition parse_add_char (c : ascii) (p : reader_state)
    : result reader_state :=
  if field_limit <=? Z.of_nat (String.length (field p))
  then Raised (CsvError "field larger than field limit (131072)")
  else Returned {| state := state p;
                   field := field p +:+ String c EmptyString;
                   fields := fields p; records := records p;
                   in_line := in_line p |}.

Definition parse_save_field (p : reader_state) : reader_state :=
  {| state := state p; field := EmptyString;
     fields := fields p ++ [field p];
     records := records p; in_line := in_line p |}.

(** The state after a field that ends on a line break or at the end of
    the line ([None]). *)
Definition after_break (c : option ascii) : parser_state :=
  match c with
  | None => START_RECORD
  | Some _ => EAT_CRNL
  end.

Definition is_break (c : option ascii) : bool :=
  match c with
  | None => true
  | Some a => Ascii.eqb a LF || Ascii.eqb a CR
  end.

Definition is_char (a : ascii) (c : option ascii) : bool :=
  match c with
  | None => false
  | Some b => Ascii.eqb b a
  end.

(** The case [START_FIELD], which [START_RECORD] falls into. *)
Definition start_field (c : option ascii) (p : reader_state)
    : result reader_state :=
  if is_break c then
    Returned (set_state (after_break c) (parse_save_field p))
  else if is_char QUOTE c then Returned (set_state IN_QUOTED_FIELD p)
  else if is_char COMMA c then Returned (parse_save_field p)
  else
    match c with
    | Some a =>
        match parse_add_char a p with
        | Returned p' => Returned (set_state IN_FIELD p')
        | Raised e => Raised e
        end
    | None => Returned p
    end.

(** One step of the state machine of the reader, for a character of
    the line or, with [None], for its end.  The dialect has no escape
    character, so the three states that follow one are left out. *)
Definition parse_process_char (c : option ascii) (p : reader_state)
    : result reader_state :=
  match state p with
  | START_RECORD =>
      match c with
      | None => Returned p
      | Some a =>
          if Ascii.eqb a LF || Ascii.eqb a CR
          then Returned (set_state EAT_CRNL p)
          else start_field c (set_state START_FIELD p)
      end
  | START_FIELD => start_field c p
  | IN_FIELD =>
      if is_break c then
        Returned (set_state (after_break c) (parse_save_field p))
      else if is_char COMMA c then
        Returned (set_state START_FIELD (parse_save_field p))
      else
        match c with
        | Some a => parse_add_char a p
        | None => Returned p
        end
  | IN_QUOTED_FIELD =>
      match c with
      | None => Returned p
      | Some a =>
          if Ascii.eqb a QUOTE then Returned (set_state QUOTE_IN_QUOTED_FIELD p)
          else parse_add_char a p
      end
  | QUOTE_IN_QUOTED_FIELD =>
      if is_char QUOTE c then
        match parse_add_char QUOTE p with
        | Returned p' => Returned (set_state IN_QUOTED_FIELD p')
        | Raised e => Raised e
        end
      else if is_char COMMA c then
        Returned (set_state START_FIELD (parse_save_field p))
      else if is_break c then
        Returned (set_state (after_break c) (parse_save_field p))
      else
        match c with
        | Some a =>
            match parse_add_char a p with
            | Returned p' => Returned (set_state IN_FIELD p')
            | Raised e => Raised e
            end
        | None => Returned p
        end
  | EAT_CRNL =>
      match c with
      | None => Returned (set_state START_RECORD p)
      | Some a =>
          if Ascii.eqb a LF || Ascii.eqb a CR then Returned p
          else Raised (CsvError ("new-line character seen in unquoted field"
                                 +:+ " - do you need to open the file in"
                                 +:+ " universal-newline mode?"))
      end
  end.

(** The end of a line: the reader gives out the record when the state
    machine is back at the start of one. *)
Definition end_of_line (p : reader_state) : result reader_state :=
  match parse_process_char None p with
  | Returned p' =>
      Returned
        match state p' with
        | START_RECORD =>
            {| state := START_RECORD; field := field p'; fields := [];
               records := records p' ++ [fields p']; in_line := false |}
        | s =>
            {| state := s; field := field p'; fields := fields p';
               records := records p'; in_line := false |}
        end
  | Raised e => Raised e
  end.

(** One character of the text: a line ends with its line feed. *)
Definition feed_char (c : ascii) (p : reader_state) : result reader_state :=
  match parse_process_char (Some c) p with
  | Returned p' =>
      if Ascii.eqb c LF then end_of_line p'
      else Returned {| state := state p'; field := field p';
                       fields := fields p'; records := records p';
                       in_line := true |}
  | Raised e => Raised e
  end.

Fixpoint feed (text : string) (p : reader_state) : result reader_state :=
  match text with
  | EmptyString => Returned p
  | String c text' =>
      match feed_char c p with
      | Returned p' => feed text' p'
      | Raised e => Raised e
      end
  end.

Definition new_reader : reader_state :=
  {| state := START_RECORD; field := EmptyString; fields := [];
     records := []; in_line := false |}.

(** [list(csv.reader(f))] on the text the file object gives: the lines
    of the text one after the other, a last line without line feed
    included; a quoted field still open at the end is given out as it
    is. *)
Definition reader (text : string) : result (list (list string)) :=
  match feed text new_reader with
  | Returned p =>
      match (if in_line p then end_of_line p else Returned p) with
      | Returned p' =>
          Returned
            match state p' with
            | IN_QUOTED_FIELD => records p' ++ [fields p' ++ [field p']]
            | _ => records p'
            end
      | Raised e => Raised e
      end
  | Raised e => Raised e
  end.

(** [list(csv.DictReader(f))] for [f] opened in text mode on a file
    with this text. *)
Definition dict_reader (text : string)
    : result (list (list (string * string))) :=
  match reader (universal_newlines text) with
  | Returned rows => Returned (dict_rows rows)
  | Raised e => Raised e
  end.

(** [read_individual_csv(filepath)] on the text of the file. *)
Definition read_individual_csv (directory : gmap string csv_file)
    (filepath : string) : result (list (list (string * string))) :=
  match directory !! filepath with
  | Some f => dict_reader (text_of f)
  | None => Raised (OSError filepath)
  end.

End Csv.

(* ===================================================================== *)
(** ** Vocabulary of the properties *)
(* ===================================================================== *)

(** What the parser makes of one line. *)
Definition clean_line (line : string) : string :=
  Py.strip (Py.lstrip ". )-" (Py.lstrip "0123456789" (Py.strip line))).

Definition nonempty (s : string) : bool := negb (Py.is_empty s).

(** A response the client accepts: at least [TARGET] parsed entries. *)
Definition accepts (r : response) : bool :=
  match r with
  | Fault => false
  | Output text =>
      (TARGET <=? List.length (parse_questions (Py.strip text)))%nat
  end.

(** Events a call of the generation client may add to the trace. *)
Definition client_event (e : event) : Prop :=
  match e with
  | EvRequest _ | EvSleep _ => True
  | _ => False
  end.

(** Every ordinal an event mentions satisfies [P]. *)
Definition ordinals_in (P : Z -> Prop) (e : event) : Prop :=
  match e with
  | EvItem j | EvGenerate j | EvProgress j => P j
  | _ => True
  end.

(** The work list of a run: all tags, or the first ones in test mode. *)
Definition work_list (examples_file : list qrow) (test_mode : bool)
    (test_tag_count : Z) : list string :=
  let unique_tags := get_unique_tags_from_questions examples_file in
  if test_mode then Py.slice_to unique_tags test_tag_count else unique_tags.

(** *** Concrete inputs used in examples *)

Definition fresh_world : world :=
  {| progress_file := None; output_dir := ∅; requests := 0; trace := [] |}.

(** A world whose progress file holds [k]. *)
Definition world_at (k : Z) : world :=
  {| progress_file := Some k; output_dir := ∅; requests := 0; trace := [] |}.

(** A service that gives the same response to every request. *)
Definition always (r : response) : nat -> prompt -> response := fun _ _ => r.

(** A sampling function: the first [k] elements. *)
Definition take_sample (population : list string) (k : nat) : list string :=
  firstn k population.

(** The text made of the given lines. *)
Definition lines (l : list string) : string :=
  String.concat (String NL EmptyString) l.

(** *** The parser as the specification words it

    Follows the specification's sentence, not the source: split on line
    breaks, discard blank lines, strip a leading enumeration prefix made
    of digits followed by one of [.], [)], [-], trim; leading digits that
    are not followed by such a character stay. *)

Definition is_digit (a : ascii) : bool := Py.in_chars "0123456789" a.

Definition is_enumeration_mark (a : ascii) : bool := Py.in_chars ".)-" a.

Definition spec_strip_enumeration (line : string) : string :=
  match line with
  | String a _ =>
      if is_digit a then
        match Py.lstrip "0123456789" line with
        | String c rest => if is_enumeration_mark c then rest else line
        | EmptyString => line
        end
      else line
  | EmptyString => line
  end.

Definition spec_parse (text : string) : list string :=
  map (fun line => Py.strip (spec_strip_enumeration line))
    (List.filter (fun line => nonempty (Py.strip line)) (Py.split NL text)).

(** A response of [TARGET] numbered lines, and one of [TARGET] lines that
    start with a digit that belongs to the question. *)
Definition numbered_text : string := lines (repeat "7. who?" TARGET).

Definition digit_text : string := lines (repeat "3G network" TARGET).

(** An examples file and an answers file with the single tag [a]. *)
Definition one_tag_examples : list qrow :=
  [{| question := "q"; tag := "a" |}].

Definition one_tag_answers : list arow :=
  [{| a_tag := "a"; a_answer := "A" |}].

(** An examples file with the tags [a], [b], [c]. *)
Definition three_tag_examples : list qrow :=
  [{| question := "q1"; tag := "a" |}; {| question := "q2"; tag := "b" |};
   {| question := "q3"; tag := "c" |}].

(** An examples file in which one row carries the tag [foo] with a
    leading space and another carries it clean. *)
Definition padded_and_clean_examples : list qrow :=
  [{| question := "q1"; tag := " foo" |}; {| question := "q2"; tag := "foo" |}].

Definition foo_answers : list arow :=
  [{| a_tag := "foo"; a_answer := "A" |}].

(** An examples file in which the tag [foo] occurs only with a leading
    space. *)
Definition padded_examples : list qrow :=
  [{| question := "q1"; tag := " foo" |}].

(** The row decides a tag of the work list: its stripped tag is neither
    empty nor the placeholder. *)
Definition names_work_item (row : qrow) : bool :=
  negb (Py.is_empty (Py.strip (tag row)))
  && negb (String.eqb (Py.strip (tag row)) "fraction").

(** The output directory after two tags were generated, [a] one row
    short of the target and [b] complete. *)
Definition one_short_dir : gmap string csv_file :=
  <[artifact_name "b" := artifact_rows "b" (repeat "q" TARGET)]>
    (<[artifact_name "a" := artifact_rows "a" (repeat "q" (TARGET - 1))]> ∅).

(** A directory with a single artifact of a single row. *)
Definition tiny_dir : gmap string csv_file :=
  <[artifact_name "a" := artifact_rows "a" ["q"]]> ∅.

(** The count a [Counter] holds for a key, 0 when the key is absent. *)
Fixpoint counter_get (c : list (string * nat)) (t : string) : nat :=
  match c with
  | [] => 0%nat
  | (k, n) :: c' => if String.eqb k t then n else counter_get c' t
  end.

(** A file written for a tag with the full number of questions. *)
Definition complete_artifact (f : csv_file) : Prop :=
  exists tag_name qs,
    List.length qs = TARGET /\ f = artifact_rows tag_name qs.

(** A merged file of two tags at the count the validation expects: [a]
    with 9 rows and [b] with 10. *)
Definition one_short_of_ten_dir : gmap string csv_file :=
  <[artifact_name "b" := artifact_rows "b" (repeat "q" 10)]>
    (<[artifact_name "a" := artifact_rows "a" (repeat "q" 9)]> ∅).

(** The counter holds each key once, with a positive count. *)
Definition counter_ok (c : list (string * nat)) : Prop :=
  List.NoDup (map fst c) /\ Forall (fun kn => (0 < snd kn)%nat) c.

(* ===================================================================== *)
(** ** Vocabulary of the further properties *)
(* ===================================================================== *)

(** The row is kept by [load_example_questions] under the key [t]. *)
Definition stored_under (t : string) (row : qrow) : bool :=
  String.eqb (tag row) t && negb (String.eqb (tag row) "fraction")
  && nonempty (Py.strip (question row)).

(** The stripped questions of the rows kept under [t], in file order. *)
Definition stored_questions (rows : list qrow) (t : string) : list string :=
  map (fun row => Py.strip (question row))
    (List.filter (stored_under t) rows).

(** The pause the client makes after a rejected response. *)
Definition pause_after (r : response) : nat :=
  match r with
  | Fault => 5%nat
  | Output _ => 2%nat
  end.

(** The events of [n] attempts that are all rejected, the first of them
    being request number [first]: a pause follows every request but the
    last. *)
Fixpoint rejected_trace (service : nat -> prompt -> response) (p : prompt)
    (first n : nat) : list event :=
  match n with
  | O => []
  | S n' =>
      match n' with
      | O => [EvRequest p]
      | S _ =>
          EvRequest p :: EvSleep (pause_after (service first p))
            :: rejected_trace service p (S first) n'
      end
  end.


(** The contract of [random.sample]: as many elements as asked for, all
    taken from the population. *)
Definition sample_contract (sample : list string -> nat -> list string)
    : Prop :=
  forall population k,
    (k <= List.length population)%nat ->
    List.length (sample population k) = k /\
    incl (sample population k) population.

(** Adjacent elements are in order under the key, by code points. *)
Definition key_le (key : string -> string) (x y : string) : Prop :=
  String.leb (key x) (key y) = true.

(** The merged file of two tags, [a] with 9 rows and [b] with 10. *)
Definition nine_and_ten_file : csv_file :=
  HEADER :: map (fun q => [q; "a"]) (repeat "q" 9)
         ++ map (fun q => [q; "b"]) (repeat "q" 10).

(** A directory with two artifacts of two rows each and a file that is
    not a CSV file. *)
Definition mixed_dir : gmap string csv_file :=
  <["notes.txt" := [["x"]]]>
    (<[artifact_name "b" := artifact_rows "b" ["q3"; "q4"]]>
       (<[artifact_name "a" := artifact_rows "a" ["q1"; "q2"]]> ∅)).

(** The row is counted under the tag [t]. *)
Definition expects (t : string) (row : erow) : bool :=
  String.eqb (Py.strip (expected_cell row)) t.

(** The prediction of the row is its expected tag. *)
Definition is_hit (row : erow) : bool :=
  String.eqb (Py.strip (expected_cell row)) (Py.strip (predicted_cell row)).

(** The rows counted under [t] whose prediction is right, and wrong. *)
Definition hits (rows : list erow) (t : string) : nat :=
  List.length (List.filter (fun row => expects t row && is_hit row) rows).

Definition misses (rows : list erow) (t : string) : nat :=
  List.length
    (List.filter (fun row => expects t row && negb (is_hit row)) rows).

(** The predictions a statistic stands for. *)
Definition weight (s : tag_stat) : nat := (n_right s + n_wrong s)%nat.

(** Statistic of a tag, that of a missing key when there is none. *)
Definition stat_or_none (d : list (string * tag_stat)) (t : string)
    : tag_stat :=
  default no_stat (Dict.get d t).

(** A small evaluation file. *)
Definition sample_evaluation : list erow :=
  [{| expected_cell := "a"; predicted_cell := "a " |};
   {| expected_cell := " a"; predicted_cell := "b" |};
   {| expected_cell := "b"; predicted_cell := "b" |}].

(** The row with its three cells stripped. *)
Definition stripped (row : irow) : irow :=
  {| r_query := Py.strip (r_query row); r_answer := Py.strip (r_answer row);
     r_id := Py.strip (r_id row) |}.

(** None of the three cells is empty. *)
Definition complete (item : irow) : bool :=
  nonempty (r_query item) && nonempty (r_answer item) && nonempty (r_id item).

(** The entries [load_csv] keeps: the stripped rows without an empty
    cell. *)
Definition kept_rows (rows : list irow) : list irow :=
  List.filter complete (map stripped rows).

(** The entries of a group. *)
Definition group_of (g : string) (items : list irow) : list irow :=
  List.filter (fun item => String.eqb (r_id item) g) items.

(** The three fields [load_csv] fills. *)
Definition loaded (rows : list irow)
    : list irow * list (string * list string) * list (string * string) :=
  fold_left load_csv_step rows ([], [], []).

(** The characters of a string. *)
Definition chars (s : string) : list ascii := list_ascii_of_string s.

(** An input file with two groups, the second row padded. *)
Definition two_group_rows : list irow :=
  [{| r_query := "How to vote?"; r_answer := "You can"; r_id := "1" |};
   {| r_query := " Voting process? "; r_answer := "You can"; r_id := " 1" |};
   {| r_query := "Get NID card"; r_answer := "Apply at"; r_id := "2" |};
   {| r_query := ""; r_answer := "dropped"; r_id := "3" |}].

(** A processor as [load_csv] leaves a new one: no tag yet, the two
    dictionaries with the same keys, each once, and every entry of the
    data in a group. *)
Definition ready (p : processor) : Prop :=
  id_to_tag p = [] /\
  List.NoDup (Dict.keys (id_to_queries p)) /\
  Dict.keys (id_to_queries p) = Dict.keys (id_to_answer p) /\
  forall item, In item (data p) ->
               In (r_id item) (Dict.keys (id_to_queries p)).

(** The tags in use are those assigned, which are pairwise different
    and not empty. *)
Definition tags_distinct (st : tagging) : Prop :=
  List.NoDup (map snd (tg_tags st)) /\
  (forall t, In t (map snd (tg_tags st)) -> t ∈ tg_used st) /\
  Forall (fun t => t <> EmptyString) (map snd (tg_tags st)).

(** The tag of an entry's group, the empty string without one. *)
Definition tag_of (id_to_tag : list (string * string)) (item : irow)
    : string :=
  default "" (Dict.get id_to_tag (r_id item)).

(** A tagging service that answers every call with the same text. *)
Definition same_tag_service : nat -> tag_prompt -> response :=
  fun _ _ => Output "Voter Help".

(** The file [split_to_csv_files] writes for (query, tag) pairs. *)
Definition queries_tags_file (pairs : list (string * string)) : csv_file :=
  ["query"; "tag"] :: map (fun qt => [fst qt; snd qt]) pairs.

(** An examples file with the columns the generation stage reads. *)
Definition examples_csv (rows : list qrow) : csv_file :=
  ["question"; "tag"] :: map (fun row => [question row; tag row]) rows.

(** An answers file with the columns the generation stage reads. *)
Definition answers_csv (rows : list arow) : csv_file :=
  ["tag"; "answer"] :: map (fun row => [a_tag row; a_answer row]) rows.


(** *** The run on a directory that can refuse a file name *)

(** A name with neither a path separator nor a NUL: what a directory
    without subdirectories lets a run create. *)
Definition plain_name (filename : string) : bool :=
  negb (Py.in_chars filename "/"%char)
  && negb (Py.in_chars filename "000"%char).

(** The result of the loop that cannot fail on a write, in the type of
    the one that can: [None] is the [IndexError] of [unique_tags[i]]. *)
Definition raising (r : option counts * world) : result counts * world :=
  (match fst r with
   | Some c => Returned c
   | None => Raised IndexError
   end, snd r).

(** An examples file and an answers file with the tags [a], [b/c] and
    [d]. *)
Definition slash_examples : list qrow :=
  [{| question := "q1"; tag := "a" |}; {| question := "q2"; tag := "b/c" |};
   {| question := "q3"; tag := "d" |}].

Definition slash_answers : list arow :=
  [{| a_tag := "a"; a_answer := "A" |}; {| a_tag := "b/c"; a_answer := "B" |};
   {| a_tag := "d"; a_answer := "D" |}].

(** *** The text of a CSV file *)

(** The question [a\rb], with a carriage return inside. *)
Definition cr_question : string :=
  String "a" (String Csv.CR (String "b" EmptyString)).

(** What it is read back as: [a\nb]. *)
Definition lf_question : string :=
  String "a" (String Csv.LF (String "b" EmptyString)).

(* ===================================================================== *)
(** * Properties *)
(* ===================================================================== *)

(** ** The parser *)

Lemma parse_step_clean questions line :
  parse_step questions line =
  questions ++ (if nonempty (clean_line line) then [clean_line line] else []).
Proof.
  unfold parse_step, clean_line, nonempty.
  generalize (Py.strip line) as stripped. intros [|a s].
  - cbn. now rewrite app_nil_r.
  - cbn [Py.is_empty].
    generalize (Py.strip (Py.lstrip ". )-" (Py.lstrip "0123456789" (String a s))))
      as cleaned.
    intros [|b t]; cbn; [now rewrite app_nil_r | reflexivity].
Qed.

Lemma fold_parse_step lines : forall acc,
  fold_left parse_step lines acc =
  acc ++ List.filter nonempty (map clean_line lines).
Proof.
  induction lines as [|l lines IH]; intros acc; cbn [fold_left map List.filter].
  - now rewrite app_nil_r.
  - rewrite IH, parse_step_clean.
    destruct (nonempty (clean_line l)); [| now rewrite app_nil_r].
    now rewrite <- app_assoc.
Qed.

Lemma parse_questions_lines questions_text :
  parse_questions questions_text =
  List.filter nonempty (map clean_line (Py.split NL questions_text)).
Proof. unfold parse_questions. now rewrite fold_parse_step. Qed.

Example clean_line_examples :
  map clean_line ["12. who?"; "3) x"; "7- y"; "  plain  "; "- dash";
                  "3G network"; "2024 elections"; "12."] =
  ["who?"; "x"; "y"; "plain"; "dash"; "G network"; "elections"; ""].
Proof. reflexivity. Qed.

Lemma parse_questions_nonempty questions_text q :
  In q (parse_questions questions_text) -> q <> EmptyString.
Proof.
  rewrite parse_questions_lines, filter_In. intros [_ H] ->. discriminate.
Qed.

(** [lstrip] removes a prefix made of characters of the set, and what is
    left does not start with one. *)
Lemma lstrip_where_prefix p s :
  exists pre, s = pre +:+ Py.lstrip_where p s /\
    (forall a, In a (list_ascii_of_string pre) -> p a = true) /\
    match Py.lstrip_where p s with
    | String a _ => p a = false
    | EmptyString => True
    end.
Proof.
  induction s as [|a s IH]; cbn [Py.lstrip_where].
  - exists EmptyString. cbn. tauto.
  - destruct (p a) eqn:E.
    + destruct IH as (pre & Hs & Hall & Hhd). exists (String a pre).
      split; [exact (f_equal (String a) Hs) |]. split; [| exact Hhd].
      cbn. intros b [<- | Hb]; auto.
    + exists EmptyString. cbn. rewrite E. tauto.
Qed.

(** ** The generation client *)

Lemma parse_questions_empty : parse_questions EmptyString = [].
Proof. reflexivity. Qed.

Section ClientProperties.

Variable service : nat -> prompt -> response.

Lemma send_requests p w : requests (snd (send service p w)) = S (requests w).
Proof. reflexivity. Qed.

Lemma send_files p w :
  progress_file (snd (send service p w)) = progress_file w /\
  output_dir (snd (send service p w)) = output_dir w.
Proof. split; reflexivity. Qed.

(** One attempt whose response is not accepted. *)
Lemma attempt_rejected max_retries p attempt later w :
  accepts (service (requests w) p) = false ->
  exists seconds,
    generate_attempts service max_retries p (attempt :: later) w =
    if (attempt <? max_retries - 1)%nat
    then generate_attempts service max_retries p later
           (emit (EvSleep seconds) (snd (send service p w)))
    else (None, snd (send service p w)).
Proof.
  intros Hbad. cbn [generate_attempts send]. cbn [send snd] in *.
  destruct (service (requests w) p) as [|text] eqn:E.
  - exists 5%nat. reflexivity.
  - exists 2%nat. cbn [accepts] in Hbad.
    destruct (Py.is_empty (Py.strip text)); [reflexivity |].
    apply Nat.leb_gt in Hbad. apply Nat.ltb_lt in Hbad. now rewrite Hbad.
Qed.

(** One attempt whose response is accepted. *)
Lemma attempt_accepted max_retries p attempt later w text :
  service (requests w) p = Output text ->
  accepts (Output text) = true ->
  generate_attempts service max_retries p (attempt :: later) w =
  (Some (firstn TARGET (parse_questions (Py.strip text))),
   snd (send service p w)).
Proof.
  intros E Hok. cbn [generate_attempts send]. rewrite E.
  cbn [accepts] in Hok. apply Nat.leb_le in Hok.
  destruct (Py.is_empty (Py.strip text)) eqn:Hempty.
  - destruct (Py.strip text); [| discriminate].
    rewrite parse_questions_empty in Hok. cbn in Hok. unfold TARGET in Hok. lia.
  - assert (H : (List.length (parse_questions (Py.strip text)) <? TARGET)%nat
                = false) by (apply Nat.ltb_ge; exact Hok).
    now rewrite H.
Qed.

(** After [n] rejected responses the loop over [range(a, a + n)] with
    [a + n = max_retries] gives up, having sent [n] requests. *)
Lemma attempts_all_rejected max_retries p n : forall a w,
  (a + n = max_retries)%nat ->
  (forall k, (k < n)%nat -> accepts (service (requests w + k) p) = false) ->
  let r := generate_attempts service max_retries p (seq a n) w in
  fst r = None /\ requests (snd r) = (requests w + n)%nat /\
  progress_file (snd r) = progress_file w /\
  output_dir (snd r) = output_dir w.
Proof.
  induction n as [|n IH]; intros a w Hlen Hbad; cbn zeta.
  - cbn. repeat split; lia.
  - cbn [seq].
    destruct (attempt_rejected max_retries p a (seq (S a) n) w) as [s ->].
    { specialize (Hbad 0%nat). rewrite Nat.add_0_r in Hbad. apply Hbad. lia. }
    destruct (a <? max_retries - 1)%nat eqn:Hlt.
    + destruct (IH (S a) (emit (EvSleep s) (snd (send service p w))))
        as (H1 & H2 & H3 & H4).
      * lia.
      * intros k Hk. cbn [emit requests send snd].
        replace (S (requests w) + k)%nat with (requests w + S k)%nat by lia.
        apply Hbad. lia.
      * rewrite H1, H2, H3, H4. cbn. repeat split; lia.
    + apply Nat.ltb_ge in Hlt. cbn. repeat split; lia.
Qed.

(** Rejected responses followed by an accepted one. *)
Lemma attempts_first_accepted max_retries p text j : forall n a w,
  (a + n = max_retries)%nat -> (j < n)%nat ->
  (forall k, (k < j)%nat -> accepts (service (requests w + k) p) = false) ->
  service (requests w + j) p = Output text ->
  accepts (Output text) = true ->
  let r := generate_attempts service max_retries p (seq a n) w in
  fst r = Some (firstn TARGET (parse_questions (Py.strip text))) /\
  requests (snd r) = (requests w + S j)%nat /\
  progress_file (snd r) = progress_file w /\
  output_dir (snd r) = output_dir w.
Proof.
  induction j as [|j IH]; intros n a w Hlen Hj Hbad Hout Hok; cbn zeta;
    (destruct n as [|n]; [lia |]); cbn [seq].
  - rewrite Nat.add_0_r in Hout.
    rewrite (attempt_accepted max_retries p a _ w text Hout Hok).
    cbn. repeat split; lia.
  - destruct (attempt_rejected max_retries p a (seq (S a) n) w) as [s ->].
    { specialize (Hbad 0%nat). rewrite Nat.add_0_r in Hbad. apply Hbad. lia. }
    assert (Hlt : (a <? max_retries - 1)%nat = true) by (apply Nat.ltb_lt; lia).
    rewrite Hlt.
    destruct (IH n (S a) (emit (EvSleep s) (snd (send service p w))))
      as (H1 & H2 & H3 & H4); try lia.
    + intros k Hk. cbn [emit requests send snd].
      replace (S (requests w) + k)%nat with (requests w + S k)%nat by lia.
      apply Hbad. lia.
    + cbn [emit requests send snd].
      replace (S (requests w) + j)%nat with (requests w + S j)%nat by lia.
      exact Hout.
    + exact Hok.
    + rewrite H1, H2, H3, H4. cbn. repeat split; lia.
Qed.

End ClientProperties.

(** ** Frame of a client call *)

Section ClientFrame.

Variable service : nat -> prompt -> response.

(** Whatever the service answers, a call of the client leaves the
    progress file and the output directory alone, adds only requests
    and sleeps to the trace, and returns [None] or exactly [TARGET]
    non-empty entries. *)
Lemma generate_attempts_frame max_retries p attempts : forall w,
  let r := generate_attempts service max_retries p attempts w in
  progress_file (snd r) = progress_file w /\
  output_dir (snd r) = output_dir w /\
  (exists evs, trace (snd r) = trace w ++ evs /\ Forall client_event evs) /\
  (forall qs, fst r = Some qs -> List.length qs = TARGET).
Proof.
  induction attempts as [|attempt later IH]; intros w; cbn zeta.
  - cbn. split; [reflexivity |]. split; [reflexivity |].
    split; [| discriminate]. exists []. now rewrite app_nil_r.
  - assert (Hretry : forall s,
      let w1 := emit (EvSleep s) (snd (send service p w)) in
      let r := generate_attempts service max_retries p later w1 in
      progress_file (snd r) = progress_file w /\
      output_dir (snd r) = output_dir w /\
      (exists evs, trace (snd r) = trace w ++ evs /\ Forall client_event evs) /\
      (forall qs, fst r = Some qs -> List.length qs = TARGET)).
    { intros s. cbn zeta.
      destruct (IH (emit (EvSleep s) (snd (send service p w))))
        as (H1 & H2 & (evs & H3 & H4) & H5).
      split; [now rewrite H1 |]. split; [now rewrite H2 |].
      split; [| exact H5].
      exists (EvRequest p :: EvSleep s :: evs). split.
      - rewrite H3. cbn. now rewrite <- !app_assoc.
      - repeat constructor. exact H4. }
    assert (Hstop :
      let r : option (list string) * world := (None, snd (send service p w)) in
      progress_file (snd r) = progress_file w /\
      output_dir (snd r) = output_dir w /\
      (exists evs, trace (snd r) = trace w ++ evs /\ Forall client_event evs) /\
      (forall qs, fst r = Some qs -> List.length qs = TARGET)).
    { cbn. split; [reflexivity |]. split; [reflexivity |].
      split; [| discriminate].
      exists [EvRequest p]. split; [reflexivity | repeat constructor]. }
    cbn [generate_attempts send]. cbn [send snd] in Hretry, Hstop.
    destruct (service (requests w) p) as [|text].
    + destruct (attempt <? max_retries - 1)%nat; [apply Hretry | apply Hstop].
    + destruct (Py.is_empty (Py.strip text)).
      { destruct (attempt <? max_retries - 1)%nat; [apply Hretry | apply Hstop]. }
      destruct (List.length (parse_questions (Py.strip text)) <? TARGET)%nat
        eqn:Hlen.
      { destruct (attempt <? max_retries - 1)%nat; [apply Hretry | apply Hstop]. }
      cbn. split; [reflexivity |]. split; [reflexivity |]. split.
      * exists [EvRequest p]. split; [reflexivity | repeat constructor].
      * intros qs [= <-]. apply Nat.ltb_ge in Hlen.
        rewrite length_firstn. apply Nat.min_l. exact Hlen.
Qed.

Lemma generate_frame answer examples max_retries w :
  let r := generate_questions_with_gpt5 service answer examples max_retries w in
  progress_file (snd r) = progress_file w /\
  output_dir (snd r) = output_dir w /\
  (exists evs, trace (snd r) = trace w ++ evs /\ Forall client_event evs) /\
  (forall qs, fst r = Some qs -> List.length qs = TARGET).
Proof. apply generate_attempts_frame. Qed.

End ClientFrame.

Lemma client_event_ordinals P e : client_event e -> ordinals_in P e.
Proof. destruct e; cbn; tauto. Qed.

Lemma Forall_client_ordinals P evs :
  Forall client_event evs -> Forall (ordinals_in P) evs.
Proof. apply List.Forall_impl. intros e. apply client_event_ordinals. Qed.

Lemma ordinals_in_weaken (P Q : Z -> Prop) evs :
  (forall j, P j -> Q j) ->
  Forall (ordinals_in P) evs -> Forall (ordinals_in Q) evs.
Proof.
  intros HPQ. apply List.Forall_impl. intros []; cbn; auto.
Qed.

(** ** One work item *)

Section ItemProperties.

Variable service : nat -> prompt -> response.
Variable sample : list string -> nat -> list string.
Variable tag_questions : gmap string (list string).
Variable tag_to_answer : gmap string string.

Local Abbreviation process :=
  (process_tag service sample tag_questions tag_to_answer).

(** The three ways the body of the loop can end. *)
Lemma process_tag_cases i tag_name w :
  (process i tag_name w = (Skipped, update_progress i w) /\
   (tag_to_answer !! tag_name = None \/
    get_random_examples sample tag_questions tag_name 30 = []))
  \/
  (exists answer gen,
     tag_to_answer !! tag_name = Some answer /\
     get_random_examples sample tag_questions tag_name 30 <> [] /\
     gen = generate_questions_with_gpt5 service answer
             (get_random_examples sample tag_questions tag_name 30) 3
             (emit (EvGenerate i) w) /\
     ((exists qs, fst gen = Some qs /\ List.length qs = TARGET /\
         process i tag_name w =
         (Success,
          emit (EvSleep 1)
            (update_progress i (save_individual_csv tag_name qs (snd gen)))))
      \/
      (fst gen = None /\
       process i tag_name w = (Failed, update_progress i (snd gen))))).
Proof.
  unfold process, process_tag.
  destruct (tag_to_answer !! tag_name) as [answer|] eqn:Hans;
    [| left; split; [reflexivity | now left]].
  destruct (get_random_examples sample tag_questions tag_name 30)
    as [|e examples] eqn:Hex; cbn [is_nil];
    [left; split; [reflexivity | now right] |].
  right. exists answer. eexists. split; [reflexivity |].
  split; [discriminate |]. split; [reflexivity |].
  pose proof (generate_frame service answer (e :: examples) 3
                (emit (EvGenerate i) w)) as (_ & _ & _ & Hlen).
  destruct (generate_questions_with_gpt5 service answer (e :: examples) 3
              (emit (EvGenerate i) w)) as [[qs|] w1]; cbn [fst snd] in *.
  - left. exists qs. specialize (Hlen qs eq_refl).
    split; [reflexivity |]. split; [exact Hlen |].
    rewrite Hlen. destruct qs; [discriminate Hlen | reflexivity].
  - right. split; reflexivity.
Qed.


(** Events of the body mention no ordinal but its own. *)
Lemma process_tag_trace i tag_name w :
  exists evs, trace (snd (process i tag_name w)) = trace w ++ evs /\
              Forall (ordinals_in (eq i)) evs.
Proof.
  destruct (process_tag_cases i tag_name w)
    as [[-> _] | (answer & gen & _ & _ & Hgen & Hcase)].
  - exists [EvProgress i]. split; [reflexivity | repeat constructor].
  - pose proof (generate_frame service answer
                  (get_random_examples sample tag_questions tag_name 30) 3
                  (emit (EvGenerate i) w)) as (_ & _ & (evs & Htr & Hev) & _).
    rewrite <- Hgen in Htr.
    destruct Hcase as [(qs & _ & _ & ->) | [_ ->]]; cbn [snd].
    + exists (EvGenerate i :: evs ++
              [EvSave (artifact_name tag_name); EvProgress i; EvSleep 1]).
      split.
      * cbn. rewrite Htr. cbn. now rewrite <- !app_assoc.
      * constructor; [reflexivity |]. apply Forall_app. split.
        -- now apply Forall_client_ordinals.
        -- repeat constructor.
    + exists (EvGenerate i :: evs ++ [EvProgress i]). split.
      * cbn. rewrite Htr. cbn. now rewrite <- !app_assoc.
      * constructor; [reflexivity |]. apply Forall_app. split.
        -- now apply Forall_client_ordinals.
        -- repeat constructor.
Qed.

End ItemProperties.

(** ** The loop over the work list *)


Lemma In_ordinals_item P evs j :
  Forall (ordinals_in P) evs -> In (EvItem j) evs -> P j.
Proof.
  intros H Hin. rewrite List.Forall_forall in H. apply (H _ Hin).
Qed.

Lemma In_ordinals_generate P evs j :
  Forall (ordinals_in P) evs -> In (EvGenerate j) evs -> P j.
Proof.
  intros H Hin. rewrite List.Forall_forall in H. apply (H _ Hin).
Qed.

Lemma In_ordinals_progress P evs j :
  Forall (ordinals_in P) evs -> In (EvProgress j) evs -> P j.
Proof.
  intros H Hin. rewrite List.Forall_forall in H. apply (H _ Hin).
Qed.

Section LoopProperties.

Variable service : nat -> prompt -> response.
Variable sample : list string -> nat -> list string.
Variable tag_questions : gmap string (list string).
Variable tag_to_answer : gmap string string.
Variable unique_tags : list string.

Local Abbreviation loop :=
  (tag_loop service sample tag_questions tag_to_answer unique_tags).
Local Abbreviation range_loop :=
  (for_range service sample tag_questions tag_to_answer unique_tags).
Local Abbreviation total_tags := (Z.of_nat (List.length unique_tags)).

(** The loop over [range(i, i + n)] starts with ordinal [i] and
    mentions only ordinals of its range. *)
Lemma tag_loop_trace n : forall i c w,
  exists evs,
    trace (snd (loop n i c w)) = trace w ++ evs /\
    Forall (ordinals_in (fun j => i <= j < i + Z.of_nat n)) evs /\
    (n <> 0%nat -> exists rest, evs = EvItem i :: rest).
Proof.
  induction n as [|n IH]; intros i c w.
  - exists []. cbn. rewrite app_nil_r. repeat split; [constructor | tauto].
  - cbn [tag_loop].
    destruct (Py.getitem unique_tags i) as [tag_name|].
    + destruct (process_tag_trace service sample tag_questions tag_to_answer
                  i tag_name (emit (EvItem i) w)) as (evs1 & Htr1 & Hev1).
      destruct (process_tag service sample tag_questions tag_to_answer
                  i tag_name (emit (EvItem i) w)) as [o w1].
      cbn [snd] in Htr1.
      destruct (IH (i + 1) (tally o c) w1) as (evs2 & Htr2 & Hev2 & _).
      exists (EvItem i :: evs1 ++ evs2). split; [| split].
      * rewrite Htr2, Htr1. cbn. now rewrite <- !app_assoc.
      * constructor; [cbn; lia |]. apply Forall_app. split.
        -- eapply ordinals_in_weaken; [| exact Hev1]. cbn. lia.
        -- eapply ordinals_in_weaken; [| exact Hev2]. cbn. lia.
      * eauto.
    + exists [EvItem i]. split; [reflexivity |]. split; [| eauto].
      repeat constructor; cbn; lia.
Qed.



Lemma resume_keeps_checkpoint w :
  get_last_processed_index w + 1 < total_tags ->
  resume_and_process service sample tag_questions tag_to_answer
    unique_tags w =
  range_loop (get_last_processed_index w + 1) total_tags no_counts w.
Proof.
  intros H. unfold resume_and_process.
  destruct (Z.geb_spec (get_last_processed_index w + 1) total_tags); [lia |].
  reflexivity.
Qed.

Lemma resume_resets_checkpoint w :
  get_last_processed_index w + 1 >= total_tags ->
  resume_and_process service sample tag_questions tag_to_answer
    unique_tags w =
  range_loop 0 total_tags no_counts (update_progress (-1) w).
Proof.
  intros H. unfold resume_and_process.
  destruct (Z.geb_spec (get_last_processed_index w + 1) total_tags); [| lia].
  reflexivity.
Qed.

End LoopProperties.

(** ** Files of the output directory over a run *)

Section ArtifactProperties.

Variable service : nat -> prompt -> response.
Variable sample : list string -> nat -> list string.
Variable tag_questions : gmap string (list string).
Variable tag_to_answer : gmap string string.
Variable unique_tags : list string.

(** A file found after the body of the loop was there before, or is a
    complete artifact. *)
Lemma process_tag_output_dir i tag_name w name f :
  output_dir (snd (process_tag service sample tag_questions tag_to_answer
                     i tag_name w)) !! name = Some f ->
  output_dir w !! name = Some f \/ complete_artifact f.
Proof.
  destruct (process_tag_cases service sample tag_questions tag_to_answer
              i tag_name w)
    as [[-> _] | (answer & gen & _ & _ & Hgen & Hcase)]; [now left |].
  pose proof (generate_frame service answer
                (get_random_examples sample tag_questions tag_name 30) 3
                (emit (EvGenerate i) w)) as (_ & Hdir & _ & _).
  rewrite <- Hgen in Hdir.
  destruct Hcase as [(qs & _ & Hlen & ->) | [_ ->]]; cbn; rewrite Hdir.
  - cbn. rewrite lookup_insert.
    destruct (decide (artifact_name tag_name = name)); [| now left].
    intros [= <-]. right. exists tag_name, qs. now split.
  - now left.
Qed.

Lemma tag_loop_output_dir n name f : forall i c w,
  output_dir (snd (tag_loop service sample tag_questions tag_to_answer
                     unique_tags n i c w)) !! name = Some f ->
  output_dir w !! name = Some f \/ complete_artifact f.
Proof.
  induction n as [|n IH]; intros i c w; cbn [tag_loop]; [now left |].
  destruct (Py.getitem unique_tags i) as [tag_name|]; [| now left].
  pose proof (process_tag_output_dir i tag_name (emit (EvItem i) w) name f)
    as Hbody.
  destruct (process_tag _ _ _ _ i tag_name _) as [o w1]. cbn [snd] in Hbody.
  intros H. apply IH in H as [H | H]; [| now right].
  apply Hbody in H as [H | H]; [now left | now right].
Qed.

(** After a run every file of the output directory was there before the
    run or holds the header and [TARGET] rows of one tag: no file with
    fewer rows is ever left behind. *)
Lemma run_leaves_complete_artifacts w name f :
  output_dir (snd (resume_and_process service sample tag_questions
                     tag_to_answer unique_tags w)) !! name = Some f ->
  output_dir w !! name = Some f \/ complete_artifact f.
Proof.
  unfold resume_and_process, for_range.
  destruct (_ >=? _); intros H; apply tag_loop_output_dir in H; exact H.
Qed.

End ArtifactProperties.

(** ** The run on a directory that can refuse a file name *)


Lemma getitem_In {A} (l : list A) i x : Py.getitem l i = Some x -> In x l.
Proof.
  unfold Py.getitem.
  destruct ((0 <=? i) && (i <? Z.of_nat (List.length l)));
    [apply nth_error_In |].
  destruct ((- Z.of_nat (List.length l) <=? i) && (i <? 0));
    [apply nth_error_In | discriminate].
Qed.

Section WriterProperties.

Variable opens : string -> bool.
Variable service : nat -> prompt -> response.
Variable sample : list string -> nat -> list string.
Variable tag_questions : gmap string (list string).
Variable tag_to_answer : gmap string string.

Local Abbreviation process_on_disk :=
  (OnDisk.process_tag opens service sample tag_questions tag_to_answer).

(** The ways the body of the loop can end when the write can fail. *)
Lemma process_tag_on_disk_cases i tag_name w :
  (process_on_disk i tag_name w = (Returned Skipped, update_progress i w) /\
   (tag_to_answer !! tag_name = None \/
    get_random_examples sample tag_questions tag_name 30 = []))
  \/
  (exists answer gen,
     tag_to_answer !! tag_name = Some answer /\
     get_random_examples sample tag_questions tag_name 30 <> [] /\
     gen = generate_questions_with_gpt5 service answer
             (get_random_examples sample tag_questions tag_name 30) 3
             (emit (EvGenerate i) w) /\
     ((exists qs, fst gen = Some qs /\ List.length qs = TARGET /\
         process_on_disk i tag_name w =
         if opens (artifact_name tag_name)
         then (Returned Success,
               emit (EvSleep 1)
                 (update_progress i
                    (save_individual_csv tag_name qs (snd gen))))
         else (Raised (OSError (artifact_name tag_name)), snd gen))
      \/
      (fst gen = None /\
       process_on_disk i tag_name w
       = (Returned Failed, update_progress i (snd gen))))).
Proof.
  unfold process_on_disk, OnDisk.process_tag, OnDisk.save_individual_csv.
  destruct (tag_to_answer !! tag_name) as [answer|] eqn:Hans;
    [| left; split; [reflexivity | now left]].
  destruct (get_random_examples sample tag_questions tag_name 30)
    as [|e examples] eqn:Hex; cbn [is_nil];
    [left; split; [reflexivity | now right] |].
  right. exists answer. eexists. split; [reflexivity |].
  split; [discriminate |]. split; [reflexivity |].
  pose proof (generate_frame service answer (e :: examples) 3
                (emit (EvGenerate i) w)) as (_ & _ & _ & Hlen).
  destruct (generate_questions_with_gpt5 service answer (e :: examples) 3
              (emit (EvGenerate i) w)) as [[qs|] w1]; cbn [fst snd] in *.
  - left. exists qs. specialize (Hlen qs eq_refl).
    split; [reflexivity |]. split; [exact Hlen |].
    rewrite Hlen. destruct qs; [discriminate Hlen |].
    cbn [is_nil negb andb]. change (TARGET =? 200)%nat with true.
    destruct (opens (artifact_name tag_name)); reflexivity.
  - right. split; reflexivity.
Qed.

(** Where the name of the tag can be opened, the body is the one that
    cannot fail on a write. *)
Lemma process_tag_on_disk_opens i tag_name w :
  opens (artifact_name tag_name) = true ->
  process_on_disk i tag_name w =
  (Returned (fst (process_tag service sample tag_questions tag_to_answer
                    i tag_name w)),
   snd (process_tag service sample tag_questions tag_to_answer
          i tag_name w)).
Proof.
  intros Hopen.
  unfold process_on_disk, OnDisk.process_tag, OnDisk.save_individual_csv,
    process_tag.
  rewrite Hopen.
  destruct (tag_to_answer !! tag_name) as [answer|]; [| reflexivity].
  destruct (is_nil (get_random_examples sample tag_questions tag_name 30));
    [reflexivity |].
  destruct (generate_questions_with_gpt5 service answer
              (get_random_examples sample tag_questions tag_name 30) 3
              (emit (EvGenerate i) w)) as [[qs|] w1]; [| reflexivity].
  destruct (negb (is_nil qs) && (List.length qs =? 200)%nat); reflexivity.
Qed.

Variable unique_tags : list string.

(** On a directory that opens the name of every tag of the work list,
    the loop is the one that cannot fail on a write. *)
Lemma tag_loop_on_disk_opens n : forall i c w,
  Forall (fun t => opens (artifact_name t) = true) unique_tags ->
  OnDisk.tag_loop opens service sample tag_questions tag_to_answer
    unique_tags n i c w =
  raising (tag_loop service sample tag_questions tag_to_answer
             unique_tags n i c w).
Proof.
  induction n as [|n IH]; intros i c w Hall; [reflexivity |].
  cbn [OnDisk.tag_loop tag_loop].
  destruct (Py.getitem unique_tags i) as [tag_name|] eqn:Hget;
    [| reflexivity].
  rewrite process_tag_on_disk_opens.
  - destruct (process_tag service sample tag_questions tag_to_answer
                i tag_name (emit (EvItem i) w)) as [o w1].
    cbn [fst snd]. now apply IH.
  - rewrite List.Forall_forall in Hall. apply Hall.
    eapply getitem_In, Hget.
Qed.

(** So is the run: on such a directory the run that cannot fail on a
    write is the run. *)
Lemma resume_and_process_on_disk_opens w :
  Forall (fun t => opens (artifact_name t) = true) unique_tags ->
  OnDisk.resume_and_process opens service sample tag_questions tag_to_answer
    unique_tags w =
  raising (resume_and_process service sample tag_questions tag_to_answer
             unique_tags w).
Proof.
  intros Hall. unfold OnDisk.resume_and_process, resume_and_process,
    OnDisk.for_range, for_range.
  destruct (get_last_processed_index w + 1
            >=? Z.of_nat (List.length unique_tags));
    now apply tag_loop_on_disk_opens.
Qed.


End WriterProperties.

(* ===================================================================== *)
(** * Claims about the generation client *)
(* ===================================================================== *)

(** C3. If every attempt gets a response that parses to fewer than
    [TARGET] entries, the client sends exactly [max_retries] requests and
    then returns [None], which is not the empty list. *)
Theorem retry_bound_on_short_responses
    (service : nat -> prompt -> response) (answer : string)
    (examples : list string) (max_retries : nat) (w : world) :
  (forall k, (k < max_retries)%nat ->
     exists text,
       service (requests w + k)%nat
         {| p_answer := answer; p_examples := examples |} = Output text /\
       (List.length (parse_questions (Py.strip text)) < TARGET)%nat) ->
  let r := generate_questions_with_gpt5 service answer examples max_retries w in
  fst r = None /\
  requests (snd r) = (requests w + max_retries)%nat /\
  fst r <> Some [].
Proof.
  intros Hshort r.
  destruct (attempts_all_rejected service max_retries
              {| p_answer := answer; p_examples := examples |}
              max_retries 0%nat w) as (Hres & Hreq & _).
  - reflexivity.
  - intros k Hk. destruct (Hshort k Hk) as (text & -> & Hlen).
    cbn [accepts]. now apply Nat.leb_gt.
  - fold (generate_questions_with_gpt5 service answer examples max_retries w)
      in Hres, Hreq.
    fold r in Hres, Hreq. rewrite Hres. repeat split; [exact Hreq | discriminate].
Qed.

Lemma retry_bound_on_short_responses_witness :
  (forall k, (k < 3)%nat ->
     exists text,
       always (Output (lines ["1. a"; "2. b"])) (requests fresh_world + k)%nat
         {| p_answer := "answer"; p_examples := ["e"] |} = Output text /\
       (List.length (parse_questions (Py.strip text)) < TARGET)%nat) /\
  let r := generate_questions_with_gpt5
             (always (Output (lines ["1. a"; "2. b"]))) "answer" ["e"] 3
             fresh_world in
  fst r = None /\ requests (snd r) = 3%nat /\ fst r <> Some [].
Proof.
  assert (H : forall k, (k < 3)%nat ->
     exists text,
       always (Output (lines ["1. a"; "2. b"])) (requests fresh_world + k)%nat
         {| p_answer := "answer"; p_examples := ["e"] |} = Output text /\
       (List.length (parse_questions (Py.strip text)) < TARGET)%nat).
  { intros k _. exists (lines ["1. a"; "2. b"]). split; [reflexivity |].
    vm_compute. lia. }
  split; [exact H |].
  exact (retry_bound_on_short_responses
           (always (Output (lines ["1. a"; "2. b"]))) "answer" ["e"] 3
           fresh_world H).
Defined.

(** C8, as the code has it.  Once a response is accepted (after any
    number of rejected ones, within [max_retries] attempts) the client
    returns the first [TARGET] entries of the parse of the stripped text,
    in order; the parse keeps, line by line, what remains non-empty after
    trimming, dropping every leading digit, then every leading character
    among [.], space, [)], [-], and trimming again. *)
Theorem generate_returns_first_entries
    (service : nat -> prompt -> response) (answer : string)
    (examples : list string) (max_retries j : nat) (text : string)
    (w : world) :
  (j < max_retries)%nat ->
  (forall k, (k < j)%nat ->
     accepts (service (requests w + k)%nat
                {| p_answer := answer; p_examples := examples |}) = false) ->
  service (requests w + j)%nat
    {| p_answer := answer; p_examples := examples |} = Output text ->
  (TARGET <= List.length (parse_questions (Py.strip text)))%nat ->
  fst (generate_questions_with_gpt5 service answer examples max_retries w) =
  Some (firstn TARGET
          (List.filter nonempty
             (map clean_line (Py.split NL (Py.strip text))))).
Proof.
  intros Hj Hbad Hout Hlen.
  rewrite <- parse_questions_lines.
  apply (attempts_first_accepted service max_retries
           {| p_answer := answer; p_examples := examples |} text j
           max_retries 0%nat w); auto.
  cbn [accepts]. now apply Nat.leb_le.
Qed.

Lemma generate_returns_first_entries_witness :
  (TARGET <= List.length (parse_questions (Py.strip numbered_text)))%nat /\
  fst (generate_questions_with_gpt5 (always (Output numbered_text))
         "answer" ["e"] 3 fresh_world) =
  Some (firstn TARGET
          (List.filter nonempty
             (map clean_line (Py.split NL (Py.strip numbered_text))))).
Proof.
  assert (H : (TARGET <= List.length
                 (parse_questions (Py.strip numbered_text)))%nat).
  { apply Nat.leb_le. vm_compute. reflexivity. }
  split; [exact H |].
  apply (generate_returns_first_entries (always (Output numbered_text))
           "answer" ["e"] 3 0 numbered_text fresh_world).
  - apply Nat.ltb_lt. reflexivity.
  - intros k Hk. exfalso. apply Nat.nlt_0_r in Hk. exact Hk.
  - reflexivity.
  - exact H.
Defined.

(** C8, counterexample.  On a response of [TARGET] lines [3G network]
    the client returns entries [G network]: the digit is dropped although
    no [.], [)] or [-] follows it, where the specification's parse keeps
    it. *)
Lemma leading_digits_are_not_kept :
  let result :=
    fst (generate_questions_with_gpt5 (always (Output digit_text))
           "answer" ["e"] 3 fresh_world) in
  (TARGET <= List.length (parse_questions (Py.strip digit_text)))%nat /\
  (TARGET <= List.length (spec_parse digit_text))%nat /\
  result = Some (repeat "G network" TARGET) /\
  firstn TARGET (spec_parse digit_text) = repeat "3G network" TARGET /\
  result <> Some (firstn TARGET (spec_parse digit_text)).
Proof.
  cbn zeta.
  assert (Hcode :
    fst (generate_questions_with_gpt5 (always (Output digit_text))
           "answer" ["e"] 3 fresh_world) = Some (repeat "G network" TARGET))
    by (vm_compute; reflexivity).
  assert (Hspec :
    firstn TARGET (spec_parse digit_text) = repeat "3G network" TARGET)
    by (vm_compute; reflexivity).
  split; [apply Nat.leb_le; vm_compute; reflexivity |].
  split; [apply Nat.leb_le; vm_compute; reflexivity |].
  split; [exact Hcode |]. split; [exact Hspec |].
  rewrite Hcode, Hspec. unfold TARGET. cbn [repeat]. intros [=].
Qed.

(* ===================================================================== *)
(** * Claims about the orchestrator *)
(* ===================================================================== *)

(** C4. The body of the loop, whatever the directory answers when the
    file of the tag is opened ([opens]):
    - if the output directory has changed, or the item counts as a
      success, then the client was called and returned exactly [TARGET]
      entries, the item is a success, and the directory is the old one
      with, under the name of the tag, the header row followed by one
      row (question, tag) per entry: [TARGET] + 1 rows;
    - an item without an answer or without examples is skipped, and an
      item whose generation returned [None] is failed; in both cases
      the directory is what it was;
    - when the client returned a list, it has [TARGET] entries; if the
      file of the tag opens, the item is a success and that artifact is
      written; if it does not open, the body raises and the directory is
      what it was. *)
Theorem artifact_only_on_full_generation
    (opens : string -> bool)
    (service : nat -> prompt -> response)
    (sample : list string -> nat -> list string)
    (tag_questions : gmap string (list string))
    (tag_to_answer : gmap string string)
    (i : Z) (tag_name : string) (w : world) :
  let r := OnDisk.process_tag opens service sample tag_questions
             tag_to_answer i tag_name w in
  let examples := get_random_examples sample tag_questions tag_name 30 in
  let generated answer :=
    fst (generate_questions_with_gpt5 service answer examples 3
           (emit (EvGenerate i) w)) in
  let artifact qs := HEADER :: map (fun question => [question; tag_name]) qs in
  (output_dir (snd r) <> output_dir w \/ fst r = Returned Success ->
   exists answer qs,
     tag_to_answer !! tag_name = Some answer /\ examples <> [] /\
     generated answer = Some qs /\ List.length qs = TARGET /\
     opens (artifact_name tag_name) = true /\
     fst r = Returned Success /\
     output_dir (snd r) =
       <[artifact_name tag_name := artifact qs]> (output_dir w) /\
     List.length (artifact qs) = S TARGET) /\
  (tag_to_answer !! tag_name = None \/ examples = [] ->
   fst r = Returned Skipped /\ output_dir (snd r) = output_dir w) /\
  (forall answer,
     tag_to_answer !! tag_name = Some answer -> examples <> [] ->
     generated answer = None ->
     fst r = Returned Failed /\ output_dir (snd r) = output_dir w) /\
  (forall answer qs,
     tag_to_answer !! tag_name = Some answer -> examples <> [] ->
     generated answer = Some qs ->
     List.length qs = TARGET /\
     List.length (artifact qs) = S TARGET /\
     (opens (artifact_name tag_name) = true ->
      fst r = Returned Success /\
      output_dir (snd r) =
        <[artifact_name tag_name := artifact qs]> (output_dir w)) /\
     (opens (artifact_name tag_name) = false ->
      fst r = Raised (OSError (artifact_name tag_name)) /\
      output_dir (snd r) = output_dir w)).
Proof.
  intros r examples generated artifact. subst r examples generated artifact.
  destruct (process_tag_on_disk_cases opens service sample tag_questions
              tag_to_answer i tag_name w)
    as [[-> Hskip] | (answer & gen & Hans & Hex & Hgen & Hcase)].
  - cbn [fst snd update_progress emit output_dir].
    split; [intros [H | H]; [now contradiction H | discriminate H] |].
    split; [now split |].
    split; intros a; [intros Ha Hx _ | intros qs Ha Hx _];
      (destruct Hskip as [Hn | Hn];
       [rewrite Hn in Ha; discriminate Ha | contradiction (Hx Hn)]).
  - pose proof (generate_frame service answer
                  (get_random_examples sample tag_questions tag_name 30) 3
                  (emit (EvGenerate i) w)) as (_ & Hdir & _ & _).
    rewrite <- Hgen in Hdir. cbn [emit output_dir] in Hdir.
    assert (Hsame : forall a, tag_to_answer !! tag_name = Some a ->
              fst (generate_questions_with_gpt5 service a
                     (get_random_examples sample tag_questions tag_name 30)
                     3 (emit (EvGenerate i) w)) = fst gen).
    { intros a Ha. rewrite Hans in Ha. injection Ha as <-.
      now rewrite Hgen. }
    assert (Hrows : forall qs, List.length qs = TARGET ->
              List.length (HEADER :: map (fun question => [question; tag_name])
                                       qs) = S TARGET).
    { intros qs Hlen. cbn [List.length]. now rewrite length_map, Hlen. }
    destruct Hcase as [(qs & Hqs & Hlen & ->) | [Hnone ->]].
    + destruct (opens (artifact_name tag_name)) eqn:Hopen;
        cbn [fst snd update_progress emit output_dir save_individual_csv].
      * split.
        { intros _. exists answer, qs. rewrite (Hsame answer Hans), Hdir.
          repeat (split; [assumption || reflexivity |]). now apply Hrows. }
        split; [intros [Hn | Hn];
                [rewrite Hn in Hans; discriminate Hans
                | contradiction (Hex Hn)] |].
        split.
        { intros a Ha _ Hg. rewrite (Hsame a Ha), Hqs in Hg.
          discriminate Hg. }
        intros a qs' Ha _ Hg. rewrite (Hsame a Ha), Hqs in Hg.
        injection Hg as <-. split; [exact Hlen |].
        split; [now apply Hrows |]. split; [| discriminate].
        intros _. split; [reflexivity |]. now rewrite Hdir.
      * split.
        { intros [H | H]; [contradiction (H Hdir) | discriminate H]. }
        split; [intros [Hn | Hn];
                [rewrite Hn in Hans; discriminate Hans
                | contradiction (Hex Hn)] |].
        split.
        { intros a Ha _ Hg. rewrite (Hsame a Ha), Hqs in Hg.
          discriminate Hg. }
        intros a qs' Ha _ Hg. rewrite (Hsame a Ha), Hqs in Hg.
        injection Hg as <-. split; [exact Hlen |].
        split; [now apply Hrows |]. split; [discriminate |].
        intros _. split; [reflexivity | exact Hdir].
    + cbn [fst snd update_progress emit output_dir].
      split.
      { intros [H | H]; [contradiction (H Hdir) | discriminate H]. }
      split; [intros [Hn | Hn];
              [rewrite Hn in Hans; discriminate Hans
              | contradiction (Hex Hn)] |].
      split.
      { intros a _ _ _. split; [reflexivity | exact Hdir]. }
      intros a qs Ha _ Hg. rewrite (Hsame a Ha), Hnone in Hg.
      discriminate Hg.
Qed.

Lemma artifact_only_on_full_generation_witness :
  let r := OnDisk.process_tag plain_name (always (Output numbered_text))
             take_sample (load_example_questions one_tag_examples)
             (load_answers_lookup one_tag_answers) 0 "a" fresh_world in
  fst r = Returned Success /\
  output_dir (snd r) =
    <["a.csv" := HEADER :: map (fun question => [question; "a"])
                             (repeat "who?" TARGET)]> ∅.
Proof.
  destruct (artifact_only_on_full_generation plain_name
              (always (Output numbered_text)) take_sample
              (load_example_questions one_tag_examples)
              (load_answers_lookup one_tag_answers) 0 "a" fresh_world)
    as (_ & _ & _ & H).
  destruct (H "A" (repeat "who?" TARGET)) as (_ & _ & Hopen & _);
    [vm_compute; reflexivity | vm_compute; discriminate
    | vm_compute; reflexivity |].
  exact (Hopen eq_refl).
Defined.

(** With a tag that is no file name the generation succeeds and nothing
    is written: the body raises on the file name. *)
Example full_generation_for_a_tag_that_is_no_file_name :
  let r := OnDisk.process_tag plain_name (always (Output numbered_text))
             take_sample (load_example_questions slash_examples)
             (load_answers_lookup slash_answers) 1 "b/c" fresh_world in
  fst r = Raised (OSError "b/c.csv") /\
  output_dir (snd r) = ∅ /\ progress_file (snd r) = None /\
  requests (snd r) = 1%nat.
Proof. vm_compute. repeat split; reflexivity. Qed.

(** C5. When the checkpoint store reports [k] with [k < M - 1], the run
    starts with ordinal [k + 1], and none of its events is a call of the
    client, or the processing of an item, for an ordinal [<= k]. *)
Theorem resume_skips_checkpointed_ordinals
    (service : nat -> prompt -> response)
    (sample : list string -> nat -> list string)
    (tag_questions : gmap string (list string))
    (tag_to_answer : gmap string string)
    (unique_tags : list string) (k : Z) (w : world) :
  get_last_processed_index w = k ->
  k < Z.of_nat (List.length unique_tags) - 1 ->
  exists rest,
    trace (snd (resume_and_process service sample tag_questions
                  tag_to_answer unique_tags w)) =
    trace w ++ EvItem (k + 1) :: rest /\
    (forall j, In (EvGenerate j) (EvItem (k + 1) :: rest) -> k < j) /\
    (forall j, In (EvItem j) (EvItem (k + 1) :: rest) -> k < j).
Proof.
  intros Hk Hlt. rewrite resume_keeps_checkpoint by lia. rewrite Hk.
  unfold for_range.
  destruct (tag_loop_trace service sample tag_questions tag_to_answer
              unique_tags
              (Z.to_nat (Z.of_nat (List.length unique_tags) - (k + 1)))
              (k + 1) no_counts w) as (evs & Htr & Hev & Hhd).
  destruct Hhd as [rest ->]; [lia |].
  exists rest. split; [exact Htr |]. split; intros j Hin.
  - apply (In_ordinals_generate _ _ _ Hev) in Hin. lia.
  - apply (In_ordinals_item _ _ _ Hev) in Hin. lia.
Qed.

Lemma resume_skips_checkpointed_ordinals_witness :
  get_last_processed_index (world_at 0) = 0 /\
  0 < Z.of_nat (List.length ["a"; "b"; "c"]) - 1 /\
  exists rest,
    trace (snd (resume_and_process (always Fault) take_sample
                  (load_example_questions []) (load_answers_lookup [])
                  ["a"; "b"; "c"] (world_at 0))) =
    trace (world_at 0) ++ EvItem (0 + 1) :: rest /\
    (forall j, In (EvGenerate j) (EvItem (0 + 1) :: rest) -> 0 < j) /\
    (forall j, In (EvItem j) (EvItem (0 + 1) :: rest) -> 0 < j).
Proof.
  split; [reflexivity |]. split; [reflexivity |].
  apply (resume_skips_checkpointed_ordinals (always Fault) take_sample
           (load_example_questions []) (load_answers_lookup [])
           ["a"; "b"; "c"] 0 (world_at 0)); reflexivity.
Defined.

(** C6. When the stored ordinal plus one is at least the size of the
    work list, the run first writes [-1] to the progress file and then
    runs the loop from ordinal [0]: on a non-empty list the first item
    processed is ordinal [0], and every item processed is an ordinal of
    the list. *)
Theorem stale_checkpoint_restarts_at_zero
    (service : nat -> prompt -> response)
    (sample : list string -> nat -> list string)
    (tag_questions : gmap string (list string))
    (tag_to_answer : gmap string string)
    (unique_tags : list string) (w : world) :
  get_last_processed_index w + 1 >= Z.of_nat (List.length unique_tags) ->
  let total_tags := Z.of_nat (List.length unique_tags) in
  let r := resume_and_process service sample tag_questions tag_to_answer
             unique_tags w in
  r = for_range service sample tag_questions tag_to_answer unique_tags
        0 total_tags no_counts (update_progress (-1) w) /\
  progress_file (update_progress (-1) w) = Some (-1) /\
  exists evs,
    trace (snd r) = trace w ++ EvProgress (-1) :: evs /\
    (unique_tags <> [] -> exists rest, evs = EvItem 0 :: rest) /\
    (forall j, In (EvItem j) evs -> 0 <= j < total_tags).
Proof.
  intros Hstale total_tags r. subst r total_tags.
  rewrite resume_resets_checkpoint by exact Hstale.
  split; [reflexivity |]. split; [reflexivity |].
  unfold for_range.
  destruct (tag_loop_trace service sample tag_questions tag_to_answer
              unique_tags
              (Z.to_nat (Z.of_nat (List.length unique_tags) - 0)) 0 no_counts
              (update_progress (-1) w)) as (evs & Htr & Hev & Hhd).
  exists evs. split; [| split].
  - rewrite Htr. cbn. now rewrite <- app_assoc.
  - intros Hne. apply Hhd.
    destruct unique_tags; [congruence | cbn; lia].
  - intros j Hin. apply (In_ordinals_item _ _ _ Hev) in Hin. lia.
Qed.

Lemma stale_checkpoint_restarts_at_zero_witness :
  get_last_processed_index (world_at 1) + 1 >=
    Z.of_nat (List.length ["a"; "b"]) /\
  let r := resume_and_process (always Fault) take_sample
             (load_example_questions []) (load_answers_lookup [])
             ["a"; "b"] (world_at 1) in
  progress_file (update_progress (-1) (world_at 1)) = Some (-1) /\
  exists evs,
    trace (snd r) = trace (world_at 1) ++ EvProgress (-1) :: evs /\
    (["a"; "b"] <> [] -> exists rest, evs = EvItem 0 :: rest) /\
    (forall j, In (EvItem j) evs -> 0 <= j < 2).
Proof.
  assert (H : get_last_processed_index (world_at 1) + 1 >=
                Z.of_nat (List.length ["a"; "b"])) by (vm_compute; discriminate).
  split; [exact H |].
  exact (proj2 (stale_checkpoint_restarts_at_zero (always Fault) take_sample
                  (load_example_questions []) (load_answers_lookup [])
                  ["a"; "b"] (world_at 1) H)).
Defined.



(** C2, as the code has it.  When the progress file holds [k] with
    [0 <= k < M - 1], where [M] is the size of the work list, a run starts
    with ordinal [k + 1]; after that it calls the client, processes items
    and writes the progress file only for ordinals above [k] (and below
    [M]): nothing is redone and the checkpoint is not taken back. *)
Theorem rerun_resumes_after_checkpoint
    (service : nat -> prompt -> response)
    (sample : list string -> nat -> list string)
    (examples_file : list qrow) (answers_file : list arow)
    (test_mode : bool) (test_tag_count : Z) (k : Z) (w : world) :
  let M := Z.of_nat (List.length
                       (work_list examples_file test_mode test_tag_count)) in
  progress_file w = Some k ->
  0 <= k < M - 1 ->
  exists rest,
    trace (snd (run_paraphrase_generation service sample true examples_file
                  answers_file test_mode test_tag_count w)) =
    trace w ++ EvItem (k + 1) :: rest /\
    (forall j, In (EvGenerate j) rest -> k < j < M) /\
    (forall j, In (EvItem j) rest -> k < j < M) /\
    (forall j, In (EvProgress j) rest -> k < j < M).
Proof.
  intros M Hfile Hk. subst M.
  unfold run_paraphrase_generation. cbn [negb].
  fold (work_list examples_file test_mode test_tag_count).
  set (unique_tags := work_list examples_file test_mode test_tag_count) in *.
  assert (Hlast : get_last_processed_index w = k)
    by (unfold get_last_processed_index; now rewrite Hfile).
  rewrite resume_keeps_checkpoint by lia. rewrite Hlast. unfold for_range.
  destruct (tag_loop_trace service sample
              (load_example_questions examples_file)
              (load_answers_lookup answers_file) unique_tags
              (Z.to_nat (Z.of_nat (List.length unique_tags) - (k + 1)))
              (k + 1) no_counts w) as (evs & Htr & Hev & Hhd).
  destruct Hhd as [rest ->]; [lia |].
  exists rest. split; [exact Htr |].
  apply Forall_cons in Hev as [_ Hev].
  split; [| split]; intros j Hin.
  - apply (In_ordinals_generate _ _ _ Hev) in Hin. lia.
  - apply (In_ordinals_item _ _ _ Hev) in Hin. lia.
  - apply (In_ordinals_progress _ _ _ Hev) in Hin. lia.
Qed.

Lemma rerun_resumes_after_checkpoint_witness :
  progress_file (world_at 0) = Some 0 /\
  0 <= 0 < Z.of_nat (List.length (work_list three_tag_examples false 0)) - 1 /\
  exists rest,
    trace (snd (run_paraphrase_generation (always Fault) take_sample true
                  three_tag_examples one_tag_answers false 0 (world_at 0))) =
    trace (world_at 0) ++ EvItem (0 + 1) :: rest /\
    (forall j, In (EvGenerate j) rest -> 0 < j < 3) /\
    (forall j, In (EvItem j) rest -> 0 < j < 3) /\
    (forall j, In (EvProgress j) rest -> 0 < j < 3).
Proof.
  assert (H : 0 <= 0 <
    Z.of_nat (List.length (work_list three_tag_examples false 0)) - 1)
    by (vm_compute; split; [discriminate | reflexivity]).
  split; [reflexivity |]. split; [exact H |].
  exact (rerun_resumes_after_checkpoint (always Fault) take_sample
           three_tag_examples one_tag_answers false 0 0 (world_at 0)
           eq_refl H).
Defined.

(** C2, counterexample.  With a work list of one tag and the progress
    file holding [0] (the ordinal [M - 1] a complete run leaves), the
    run writes [-1], starts again with ordinal [0] and calls the client
    for it. *)
Lemma finished_run_starts_over :
  Z.of_nat (List.length (work_list one_tag_examples false 0)) = 1 /\
  progress_file (world_at 0) = Some 0 /\
  trace (snd (run_paraphrase_generation (always Fault) take_sample true
                one_tag_examples one_tag_answers false 0 (world_at 0))) =
  [EvProgress (-1); EvItem 0; EvGenerate 0;
   EvRequest {| p_answer := "A"; p_examples := ["q"] |}; EvSleep 5;
   EvRequest {| p_answer := "A"; p_examples := ["q"] |}; EvSleep 5;
   EvRequest {| p_answer := "A"; p_examples := ["q"] |};
   EvProgress 0] /\
  ~ (exists rest,
       trace (snd (run_paraphrase_generation (always Fault) take_sample true
                     one_tag_examples one_tag_answers false 0 (world_at 0))) =
       trace (world_at 0) ++ EvItem (0 + 1) :: rest /\
       forall j, In (EvGenerate j) rest -> 0 < j).
Proof.
  assert (Htr :
    trace (snd (run_paraphrase_generation (always Fault) take_sample true
                  one_tag_examples one_tag_answers false 0 (world_at 0))) =
    [EvProgress (-1); EvItem 0; EvGenerate 0;
     EvRequest {| p_answer := "A"; p_examples := ["q"] |}; EvSleep 5;
     EvRequest {| p_answer := "A"; p_examples := ["q"] |}; EvSleep 5;
     EvRequest {| p_answer := "A"; p_examples := ["q"] |};
     EvProgress 0]) by (vm_compute; reflexivity).
  split; [vm_compute; reflexivity |]. split; [reflexivity |].
  split; [exact Htr |].
  rewrite Htr. intros (rest & Heq & _). cbn in Heq. discriminate Heq.
Qed.

(* ===================================================================== *)
(** * Claims about the example store *)
(* ===================================================================== *)

Lemma In_insert_by_key key x l y :
  In y (Py.insert_by_key key x l) <-> y = x \/ In y l.
Proof.
  induction l as [|z l IH]; cbn [Py.insert_by_key].
  - cbn. intuition.
  - destruct (String.ltb (key x) (key z)); cbn [In]; [intuition |].
    rewrite IH. intuition.
Qed.

Lemma In_fold_insert_by_key key l y : forall acc,
  In y (fold_left (fun acc x => Py.insert_by_key key x acc) l acc) <->
  In y acc \/ In y l.
Proof.
  induction l as [|x l IH]; intros acc; cbn [fold_left].
  - cbn. intuition.
  - rewrite IH, In_insert_by_key. cbn [In]. intuition.
Qed.

(** Sorting keeps the elements. *)
Lemma In_sorted_by_key key l y :
  In y (Py.sorted_by_key key l) <-> In y l.
Proof.
  unfold Py.sorted_by_key. rewrite In_fold_insert_by_key. cbn. intuition.
Qed.

Lemma length_insert_by_key key x l :
  List.length (Py.insert_by_key key x l) = S (List.length l).
Proof.
  induction l as [|z l IH]; cbn [Py.insert_by_key]; [reflexivity |].
  destruct (String.ltb (key x) (key z)); cbn [List.length]; congruence.
Qed.

Lemma unique_tags_fold rows t : forall acc : gset string,
  t ∈ fold_left
        (fun (acc : gset string) row =>
           let tag := Py.strip (tag row) in
           if negb (Py.is_empty tag) && negb (String.eqb tag "fraction")
           then {[tag]} ∪ acc else acc) rows acc <->
  t ∈ acc \/
  exists row, In row rows /\ names_work_item row = true /\
              t = Py.strip (tag row).
Proof.
  induction rows as [|row rows IH]; intros acc; cbn [fold_left].
  - split; [now left | intros [H | (row & [] & _)]; exact H].
  - rewrite IH. cbn zeta. fold (names_work_item row).
    destruct (names_work_item row) eqn:Hkeep.
    + rewrite elem_of_union, elem_of_singleton. split.
      * intros [[-> | H] | (r & Hin & Hk & ->)].
        -- right. exists row. cbn. auto.
        -- now left.
        -- right. exists r. cbn. auto.
      * intros [H | (r & [<- | Hin] & Hk & ->)]; [tauto | tauto |].
        right. exists r. auto.
    + split.
      * intros [H | (r & Hin & Hk & ->)]; [now left |].
        right. exists r. cbn. auto.
      * intros [H | (r & [<- | Hin] & Hk & ->)]; [now left | congruence |].
        right. exists r. auto.
Qed.

(** The work list holds exactly the stripped tags that are neither empty
    nor the placeholder. *)
Lemma In_unique_tags rows t :
  In t (get_unique_tags_from_questions rows) <->
  exists row, In row rows /\ names_work_item row = true /\
              t = Py.strip (tag row).
Proof.
  unfold get_unique_tags_from_questions.
  rewrite In_sorted_by_key, <- list_elem_of_In, elem_of_elements.
  rewrite unique_tags_fold. split; [| now right].
  intros [H | H]; [| exact H]. now apply not_elem_of_empty in H.
Qed.

(** The row is stored in the index: its tag is not the placeholder and
    its question is not blank. *)
Lemma load_example_step_lookup m row t :
  load_example_step m row !! t =
  if String.eqb (tag row) "fraction" then m !! t
  else if Py.is_empty (Py.strip (question row)) then m !! t
  else if decide (tag row = t)
       then Some (default [] (m !! t) ++ [Py.strip (question row)])
       else m !! t.
Proof.
  unfold load_example_step.
  destruct (String.eqb (tag row) "fraction"); [reflexivity |].
  destruct (Py.is_empty (Py.strip (question row))); [reflexivity |].
  destruct (decide (tag row = t)) as [<- | Hne].
  - now rewrite lookup_insert_eq.
  - now rewrite lookup_insert_ne.
Qed.

(** A key under which no row is stored stays as it was. *)
Lemma load_examples_absent rows t : forall m : gmap string (list string),
  (forall r, In r rows -> tag r = t ->
     tag r = "fraction" \/ Py.strip (question r) = EmptyString) ->
  fold_left load_example_step rows m !! t = m !! t.
Proof.
  induction rows as [|row rows IH]; intros m Hnone; cbn [fold_left];
    [reflexivity |].
  rewrite IH by (intros r Hr; apply Hnone; now right).
  rewrite load_example_step_lookup.
  destruct (String.eqb (tag row) "fraction") eqn:Hf; [reflexivity |].
  destruct (Py.is_empty (Py.strip (question row))) eqn:He; [reflexivity |].
  destruct (decide (tag row = t)) as [Ht | Hne]; [| reflexivity].
  destruct (Hnone row (or_introl eq_refl) Ht) as [H | H].
  - rewrite H in Hf. discriminate.
  - rewrite H in He. discriminate.
Qed.

(** Once a key holds a list with some element, it keeps holding one. *)
Lemma load_examples_keeps rows t q : forall m : gmap string (list string),
  (exists qs, m !! t = Some qs /\ In q qs) ->
  exists qs, fold_left load_example_step rows m !! t = Some qs /\ In q qs.
Proof.
  induction rows as [|row rows IH]; intros m Hm; cbn [fold_left];
    [exact Hm |].
  apply IH. destruct Hm as (qs & Hqs & Hin).
  rewrite load_example_step_lookup.
  destruct (String.eqb (tag row) "fraction"); [eauto |].
  destruct (Py.is_empty (Py.strip (question row))); [eauto |].
  destruct (decide (tag row = t)); [| eauto].
  rewrite Hqs. cbn. eexists. split; [reflexivity |].
  apply in_or_app. now left.
Qed.

(** A row with a real tag and a question is found under its tag as it
    stands in the file. *)
Lemma load_examples_present rows row : forall m : gmap string (list string),
  In row rows ->
  tag row <> "fraction" ->
  Py.strip (question row) <> EmptyString ->
  exists qs, fold_left load_example_step rows m !! tag row = Some qs /\
             In (Py.strip (question row)) qs.
Proof.
  induction rows as [|r rows IH]; intros m Hin Htag Hq; [destruct Hin |].
  cbn [fold_left]. destruct Hin as [-> | Hin]; [| now apply IH].
  apply load_examples_keeps.
  rewrite load_example_step_lookup.
  destruct (String.eqb_spec (tag row) "fraction") as [H | _]; [contradiction |].
  destruct (Py.strip (question row)) eqn:E; [contradiction |].
  cbn [Py.is_empty]. destruct (decide (tag row = tag row)); [| contradiction].
  eexists. split; [reflexivity |]. apply in_or_app. right. now left.
Qed.

Lemma strip_fraction : Py.strip "fraction" = "fraction".
Proof. reflexivity. Qed.

(** C10, as the code has it.  Take a row of the examples file whose tag
    carries surrounding whitespace, whose stripped tag is neither empty
    nor the placeholder, and whose question is not blank; suppose no row
    with a question carries the stripped form itself as its tag.  Then the
    work list contains the stripped tag, the index holds the question
    under the tag as written, the lookup for the stripped tag is empty,
    and the item ends [Skipped]. *)
Theorem padded_tag_is_skipped
    (service : nat -> prompt -> response)
    (sample : list string -> nat -> list string)
    (tag_to_answer : gmap string string)
    (examples_file : list qrow) (row : qrow) (i : Z) (w : world) :
  In row examples_file ->
  Py.strip (tag row) <> tag row ->
  Py.strip (tag row) <> EmptyString ->
  Py.strip (tag row) <> "fraction" ->
  Py.strip (question row) <> EmptyString ->
  (forall r, In r examples_file -> tag r = Py.strip (tag row) ->
             Py.strip (question r) = EmptyString) ->
  In (Py.strip (tag row)) (get_unique_tags_from_questions examples_file) /\
  (exists qs, load_example_questions examples_file !! tag row = Some qs /\
              In (Py.strip (question row)) qs) /\
  get_random_examples sample (load_example_questions examples_file)
    (Py.strip (tag row)) 30 = [] /\
  fst (process_tag service sample (load_example_questions examples_file)
         tag_to_answer i (Py.strip (tag row)) w) = Skipped.
Proof.
  intros Hin Hpad Hne Hnf Hq Hclean.
  assert (Hempty :
    get_random_examples sample (load_example_questions examples_file)
      (Py.strip (tag row)) 30 = []).
  { unfold get_random_examples, load_example_questions.
    rewrite load_examples_absent, lookup_empty; [reflexivity |].
    intros r Hr Ht. right. now apply Hclean. }
  split; [| split; [| split]].
  - apply In_unique_tags. exists row. split; [exact Hin |].
    split; [| reflexivity]. unfold names_work_item.
    destruct (Py.strip (tag row)) eqn:E; [contradiction |].
    cbn [Py.is_empty negb andb].
    destruct (String.eqb_spec (String a s) "fraction"); [contradiction |].
    reflexivity.
  - apply load_examples_present; [exact Hin | | exact Hq].
    intros Hf. apply Hpad. rewrite Hf. apply strip_fraction.
  - exact Hempty.
  - destruct (process_tag_cases service sample
                (load_example_questions examples_file) tag_to_answer i
                (Py.strip (tag row)) w)
      as [[-> _] | (answer & gen & _ & Hex & _)]; [reflexivity |].
    contradiction.
Qed.

Lemma padded_tag_is_skipped_witness :
  In (Py.strip " foo") (get_unique_tags_from_questions padded_examples) /\
  (exists qs, load_example_questions padded_examples !! " foo" = Some qs /\
              In (Py.strip "q1") qs) /\
  get_random_examples take_sample (load_example_questions padded_examples)
    (Py.strip " foo") 30 = [] /\
  fst (process_tag (always Fault) take_sample
         (load_example_questions padded_examples)
         (load_answers_lookup foo_answers) 0 (Py.strip " foo") fresh_world)
  = Skipped.
Proof.
  apply (padded_tag_is_skipped (always Fault) take_sample
           (load_answers_lookup foo_answers) padded_examples
           {| question := "q1"; tag := " foo" |} 0 fresh_world).
  - left. reflexivity.
  - vm_compute. discriminate.
  - vm_compute. discriminate.
  - vm_compute. discriminate.
  - vm_compute. discriminate.
  - intros r [<- | []]. vm_compute. discriminate.
Defined.

(** C10, counterexample.  One row carries the tag [foo] with a leading
    space, another carries [foo] itself: the lookup for the work item
    [foo] finds the second row's question, the client is called and the
    item ends [Failed], not [Skipped]. *)
Lemma padded_tag_with_clean_twin_is_processed :
  In {| question := "q1"; tag := " foo" |} padded_and_clean_examples /\
  Py.strip " foo" = "foo" /\
  get_unique_tags_from_questions padded_and_clean_examples = ["foo"] /\
  get_random_examples take_sample
    (load_example_questions padded_and_clean_examples) "foo" 30 = ["q2"] /\
  fst (process_tag (always Fault) take_sample
         (load_example_questions padded_and_clean_examples)
         (load_answers_lookup foo_answers) 0 "foo" fresh_world) = Failed.
Proof.
  split; [left; reflexivity |].
  repeat split; vm_compute; reflexivity.
Qed.

(** ** What the per-tag check of the validation reports *)

Lemma counter_get_add t' c t :
  counter_get (counter_add t' c) t =
  if String.eqb t' t then S (counter_get c t) else counter_get c t.
Proof.
  induction c as [|[k n] c IH]; cbn [counter_add counter_get].
  - destruct (String.eqb t' t); reflexivity.
  - destruct (String.eqb_spec k t') as [-> | Hk]; cbn [counter_get].
    + destruct (String.eqb t' t); reflexivity.
    + rewrite IH. destruct (String.eqb_spec k t) as [-> | Hkt];
        [| reflexivity].
      destruct (String.eqb_spec t' t) as [-> | _]; [contradiction | reflexivity].
Qed.

Lemma counter_get_fold tags t : forall c,
  counter_get (fold_left (fun c t => counter_add t c) tags c) t =
  (counter_get c t + count_occ string_dec tags t)%nat.
Proof.
  induction tags as [|t' tags IH]; intros c; cbn [fold_left count_occ].
  - lia.
  - rewrite IH, counter_get_add.
    destruct (String.eqb_spec t' t) as [-> | Hne];
      destruct (string_dec _ _); try contradiction; lia.
Qed.

Lemma counter_add_keys t c k :
  In k (map fst (counter_add t c)) <-> k = t \/ In k (map fst c).
Proof.
  induction c as [|[k' n] c IH]; cbn [counter_add map fst In].
  - intuition.
  - destruct (String.eqb_spec k' t) as [-> | Hne]; cbn [map fst In].
    + intuition.
    + rewrite IH. intuition.
Qed.

Lemma counter_add_ok t c : counter_ok c -> counter_ok (counter_add t c).
Proof.
  unfold counter_ok. induction c as [|[k n] c IH]; intros [Hnd Hpos].
  - cbn. split.
    + constructor; [intros [] | constructor].
    + constructor; [cbn; lia | constructor].
  - cbn [counter_add]. apply List.NoDup_cons_iff in Hnd as [Hk Hnd].
    apply Forall_cons in Hpos as [Hn Hpos]. cbn [fst snd map] in *.
    destruct (String.eqb_spec k t) as [-> | Hne].
    + split; [now constructor | constructor; [cbn; lia | exact Hpos]].
    + destruct (IH (conj Hnd Hpos)) as [Hnd' Hpos']. split.
      * cbn [map fst]. constructor; [| exact Hnd'].
        rewrite counter_add_keys. intros [-> | H]; contradiction.
      * constructor; [exact Hn | exact Hpos'].
Qed.

Lemma Counter_ok tags : counter_ok (Counter tags).
Proof.
  unfold Counter.
  assert (H : forall c, counter_ok c ->
            counter_ok (fold_left (fun c t => counter_add t c) tags c)).
  { induction tags as [|t tags IH]; intros c Hc; cbn [fold_left];
      [exact Hc | apply IH, counter_add_ok, Hc]. }
  apply H. split; constructor.
Qed.

Lemma counter_get_absent c t : ~ In t (map fst c) -> counter_get c t = 0%nat.
Proof.
  induction c as [|[k n] c IH]; cbn [counter_get map fst In]; [reflexivity |].
  intros H. destruct (String.eqb_spec k t); [tauto | apply IH; tauto].
Qed.

(** In a well-formed counter an entry is a key with its positive count. *)
Lemma counter_entry c t n :
  counter_ok c -> (In (t, n) c <-> counter_get c t = n /\ (0 < n)%nat).
Proof.
  unfold counter_ok. induction c as [|[k m] c IH]; intros [Hnd Hpos].
  - cbn. split; [intros [] | lia].
  - apply List.NoDup_cons_iff in Hnd as [Hk Hnd].
    apply Forall_cons in Hpos as [Hm Hpos]. cbn [fst snd map] in *.
    cbn [In counter_get]. rewrite (IH (conj Hnd Hpos)).
    destruct (String.eqb_spec k t) as [-> | Hne].
    + split.
      * intros [[= ->] | [Hget Hn]]; [split; [reflexivity | exact Hm] |].
        rewrite (counter_get_absent c t Hk) in Hget. lia.
      * intros [-> _]. now left.
    + split.
      * intros [[= -> _] | H]; [contradiction | exact H].
      * intros H. now right.
Qed.

(** The tags the validation reports are those of the file that do not
    occur exactly 10 times. *)
Lemma wrong_count_reported output_file expected_count t :
  let tags := map tag (dict_reader output_file) in
  In t (tags_with_wrong_count
          (validate_merged_file output_file expected_count)) <->
  In t tags /\ count_occ string_dec tags t <> 10%nat.
Proof.
  cbn zeta. cbn [tags_with_wrong_count validate_merged_file].
  set (tags := map tag (dict_reader output_file)).
  rewrite in_map_iff. split.
  - intros ([k n] & <- & Hin). apply filter_In in Hin as [Hin Hn].
    apply (counter_entry _ _ _ (Counter_ok tags)) in Hin as [Hget Hpos].
    unfold Counter in Hget. rewrite counter_get_fold in Hget.
    cbn [counter_get fst snd] in *. split.
    + apply (count_occ_In string_dec). lia.
    + apply negb_true_iff, Nat.eqb_neq in Hn. lia.
  - intros [Hin Hne]. exists (t, count_occ string_dec tags t).
    split; [reflexivity |]. apply filter_In. split.
    + apply (counter_entry _ _ _ (Counter_ok tags)). split.
      * unfold Counter. now rewrite counter_get_fold.
      * now apply (count_occ_In string_dec).
    + cbn [snd]. now apply negb_true_iff, Nat.eqb_neq.
Qed.

(** With 10 rows per tag the check does what is wanted of it: when one
    tag has 9 rows and every other tag 10, that tag alone is reported. *)
Lemma short_tag_reported_alone_at_ten output_file expected_count t0 :
  let tags := map tag (dict_reader output_file) in
  count_occ string_dec tags t0 = 9%nat ->
  (forall t, In t tags -> t <> t0 -> count_occ string_dec tags t = 10%nat) ->
  forall t,
    In t (tags_with_wrong_count
            (validate_merged_file output_file expected_count)) <-> t = t0.
Proof.
  cbn zeta. intros H0 Hothers t. rewrite wrong_count_reported. split.
  - intros [Hin Hne]. destruct (string_dec t t0) as [-> | Hdiff];
      [reflexivity |]. now apply Hothers in Hin.
  - intros ->. split; [apply (count_occ_In string_dec) |]; lia.
Qed.

(** With [TARGET] rows per tag every tag of the file is reported,
    complete or not. *)
Lemma every_tag_reported_at_target output_file expected_count t0 :
  let tags := map tag (dict_reader output_file) in
  count_occ string_dec tags t0 = (TARGET - 1)%nat ->
  (forall t, In t tags -> t <> t0 -> count_occ string_dec tags t = TARGET) ->
  forall t,
    In t (tags_with_wrong_count
            (validate_merged_file output_file expected_count)) <-> In t tags.
Proof.
  cbn zeta. intros H0 Hothers t. rewrite wrong_count_reported. split.
  - tauto.
  - intros Hin. split; [exact Hin |].
    destruct (string_dec t t0) as [-> | Hdiff].
    + rewrite H0. unfold TARGET. cbn. lia.
    + rewrite (Hothers t Hin Hdiff). unfold TARGET. lia.
Qed.

Example short_tag_reported_alone_at_ten_example :
  option_map (fun r => tags_with_wrong_count (snd r))
    (run_merge one_short_of_ten_dir) = Some ["a"].
Proof. vm_compute. reflexivity. Qed.

(* ===================================================================== *)
(** * Claims about merge and validation *)
(* ===================================================================== *)

(** Reading back what the merge wrote gives the merged rows. *)
Lemma dict_reader_write_merged merged_data :
  dict_reader (write_merged merged_data) = merged_data.
Proof.
  unfold write_merged. destruct merged_data as [|row0 rows]; [reflexivity |].
  cbn [is_nil dict_reader].
  generalize (row0 :: rows). intros l.
  induction l as [|[q t] l IH]; [reflexivity |].
  cbn [map List.filter is_nil negb]. rewrite IH. reflexivity.
Qed.

(** The count the merge returns is the number of rows of its output. *)
Lemma merge_count_is_output_size input_dir csv_files :
  snd (merge_csv_files input_dir csv_files) =
  List.length (dict_reader (fst (merge_csv_files input_dir csv_files))).
Proof.
  unfold merge_csv_files. cbn [fst snd].
  now rewrite dict_reader_write_merged.
Qed.

(** C9. In a merge run the expected total handed to the validation is
    the count the merge itself returned.  The validation reads the merged
    file again, counts its rows and compares that number with the
    expected total; against any expected total the comparison passes
    exactly when the two numbers are equal.  Since the merge's count is
    the number of rows its file reads back with, the check of a merge
    run compares the file with its own size and passes for every
    directory, whatever the number of artifacts and of rows in each of
    them. *)
Theorem merge_checks_total_against_itself
    (input_dir : gmap string csv_file) (output_file : csv_file)
    (rep : report) :
  run_merge input_dir = Some (output_file, rep) ->
  let merged := merge_csv_files input_dir (get_sorted_csv_files input_dir) in
  output_file = fst merged /\
  rep = validate_merged_file output_file (snd merged) /\
  expected_total rep = snd merged /\
  actual_count rep = List.length (dict_reader output_file) /\
  row_count_matches rep = (actual_count rep =? expected_total rep)%nat /\
  (forall expected_count,
     row_count_matches (validate_merged_file output_file expected_count)
       = true
     <-> List.length (dict_reader output_file) = expected_count) /\
  expected_total rep = List.length (dict_reader output_file) /\
  row_count_matches rep = true.
Proof.
  intros Hrun merged. subst merged. unfold run_merge in Hrun.
  destruct (is_nil (get_sorted_csv_files input_dir)); [discriminate |].
  pose proof (merge_count_is_output_size input_dir
                (get_sorted_csv_files input_dir)) as Hcount.
  destruct (merge_csv_files input_dir (get_sorted_csv_files input_dir))
    as [out n]. cbn [fst snd] in *.
  injection Hrun as <- <-.
  split; [reflexivity |]. split; [reflexivity |].
  cbn [expected_total actual_count row_count_matches validate_merged_file].
  split; [reflexivity |]. split; [reflexivity |]. split; [reflexivity |].
  split; [intros expected_count; apply Nat.eqb_eq |].
  split; [exact Hcount |].
  rewrite <- Hcount. apply Nat.eqb_refl.
Qed.

Lemma merge_checks_total_against_itself_witness :
  let output_file := [["question"; "tag"]; ["q"; "a"]] in
  let rep := validate_merged_file output_file 1 in
  let merged := merge_csv_files tiny_dir (get_sorted_csv_files tiny_dir) in
  run_merge tiny_dir = Some (output_file, rep) /\
  output_file = fst merged /\
  rep = validate_merged_file output_file (snd merged) /\
  expected_total rep = snd merged /\
  actual_count rep = List.length (dict_reader output_file) /\
  row_count_matches rep = (actual_count rep =? expected_total rep)%nat /\
  (forall expected_count,
     row_count_matches (validate_merged_file output_file expected_count)
       = true
     <-> List.length (dict_reader output_file) = expected_count) /\
  expected_total rep = List.length (dict_reader output_file) /\
  row_count_matches rep = true.
Proof.
  cbn zeta.
  assert (H : run_merge tiny_dir =
    Some ([["question"; "tag"]; ["q"; "a"]],
          validate_merged_file [["question"; "tag"]; ["q"; "a"]] 1))
    by (vm_compute; reflexivity).
  split; [exact H |].
  exact (merge_checks_total_against_itself tiny_dir _ _ H).
Defined.

(** Two artifacts, one of them a row short of the target: the merged
    file has one row less than two full artifacts, and the check of the
    total passes. *)
Example total_check_passes_on_a_short_artifact :
  exists output_file rep,
    run_merge one_short_dir = Some (output_file, rep) /\
    List.length (get_sorted_csv_files one_short_dir) = 2%nat /\
    actual_count rep = (2 * TARGET - 1)%nat /\
    row_count_matches rep = true.
Proof.
  destruct (run_merge one_short_dir) as [[output_file rep]|] eqn:Hrun;
    [| vm_compute in Hrun; discriminate Hrun].
  exists output_file, rep. split; [reflexivity |].
  assert (H : option_map (fun r => (actual_count (snd r),
                                   row_count_matches (snd r)))
                (run_merge one_short_dir) =
              Some ((2 * TARGET - 1)%nat, true))
    by (vm_compute; reflexivity).
  rewrite Hrun in H. cbn [option_map snd] in H. injection H as H1 H2.
  split; [vm_compute; reflexivity |]. now split.
Qed.

(** C1.  Two artifacts, [a] with [TARGET - 1] rows and [b] with [TARGET]
    rows: the validation of their merge lists both tags as having a
    wrong count, since it compares every count with 10. *)
Theorem validate_flags_the_complete_tag_too :
  exists output_file rep,
    run_merge one_short_dir = Some (output_file, rep) /\
    List.length (dict_reader output_file) = (TARGET - 1 + TARGET)%nat /\
    tags_with_wrong_count rep = ["a"; "b"].
Proof.
  destruct (run_merge one_short_dir) as [[output_file rep]|] eqn:Hrun;
    [| vm_compute in Hrun; discriminate Hrun].
  exists output_file, rep. split; [reflexivity |].
  assert (H : option_map (fun r => (List.length (dict_reader (fst r)),
                                   tags_with_wrong_count (snd r)))
                (run_merge one_short_dir) =
              Some ((TARGET - 1 + TARGET)%nat, ["a"; "b"]))
    by (vm_compute; reflexivity).
  rewrite Hrun in H. cbn in H. injection H as H1 H2. now split.
Qed.

(* ===================================================================== *)
(** * Further properties of the generation stage *)
(* ===================================================================== *)

(** ** The example store *)

Lemma stored_questions_cons row rows t :
  stored_questions (row :: rows) t =
  if stored_under t row
  then Py.strip (question row) :: stored_questions rows t
  else stored_questions rows t.
Proof.
  unfold stored_questions. cbn [List.filter].
  destruct (stored_under t row); reflexivity.
Qed.

Lemma load_examples_fold rows t : forall m : gmap string (list string),
  fold_left load_example_step rows m !! t =
  if is_nil (stored_questions rows t) then m !! t
  else Some (default [] (m !! t) ++ stored_questions rows t).
Proof.
  induction rows as [|row rows IH]; intros m; [reflexivity |].
  cbn [fold_left]. rewrite IH, load_example_step_lookup, stored_questions_cons.
  unfold stored_under, nonempty.
  destruct (String.eqb_spec (tag row) "fraction") as [Hf | Hf].
  { rewrite andb_false_r. reflexivity. }
  destruct (Py.is_empty (Py.strip (question row))) eqn:He.
  { rewrite andb_false_r. reflexivity. }
  destruct (decide (tag row = t)) as [Ht | Ht].
  - destruct (String.eqb_spec (tag row) t); [| contradiction].
    cbn [andb negb is_nil default].
    destruct (stored_questions rows t) as [|q qs];
      cbn [is_nil]; [reflexivity |].
    unfold id. now rewrite <- app_assoc.
  - destruct (String.eqb_spec (tag row) t); [contradiction |]. reflexivity.
Qed.

(** The index holds, under each tag exactly as written in the file, the
    stripped non-blank questions of the rows with that tag, in the order
    of the file; the excluded tag and tags without such a row are not
    keys, so no key ever holds an empty list. *)
Theorem load_example_questions_lookup (rows : list qrow) (t : string) :
  load_example_questions rows !! t =
  if is_nil (stored_questions rows t) then None
  else Some (stored_questions rows t).
Proof.
  unfold load_example_questions. rewrite load_examples_fold, lookup_empty.
  reflexivity.
Qed.

Lemma load_answers_snoc rows row :
  load_answers_lookup (rows ++ [row]) =
  <[a_tag row := a_answer row]> (load_answers_lookup rows).
Proof. unfold load_answers_lookup. now rewrite fold_left_app. Qed.

(** The answers lookup gives, for a tag, the answer of the last row of
    the file that carries exactly this tag, and nothing when there is no
    such row. *)
Theorem load_answers_lookup_last (rows : list arow) (t : string) :
  load_answers_lookup rows !! t =
  a_answer <$> last (List.filter (fun row => String.eqb (a_tag row) t) rows).
Proof.
  induction rows as [|row rows IH] using rev_ind; [reflexivity |].
  rewrite load_answers_snoc, List.filter_app. cbn [List.filter].
  destruct (String.eqb_spec (a_tag row) t) as [<- | Hne].
  - rewrite lookup_insert_eq, last_snoc. reflexivity.
  - rewrite lookup_insert_ne by exact Hne. now rewrite app_nil_r.
Qed.

(** ** Sorting *)

Lemma insert_by_key_Permutation key x l :
  Permutation (x :: l) (Py.insert_by_key key x l).
Proof.
  induction l as [|y l IH]; cbn [Py.insert_by_key]; [reflexivity |].
  destruct (String.ltb (key x) (key y)); [reflexivity |].
  rewrite perm_swap. now constructor.
Qed.

Lemma fold_insert_by_key_Permutation key l : forall acc,
  Permutation (l ++ acc)
    (fold_left (fun acc x => Py.insert_by_key key x acc) l acc).
Proof.
  induction l as [|x l IH]; intros acc; cbn [fold_left]; [reflexivity |].
  rewrite <- IH, <- insert_by_key_Permutation.
  cbn [app]. apply Permutation_middle.
Qed.

Lemma sorted_by_key_Permutation key l :
  Permutation l (Py.sorted_by_key key l).
Proof.
  unfold Py.sorted_by_key. rewrite <- fold_insert_by_key_Permutation.
  now rewrite app_nil_r.
Qed.

Lemma ltb_false_leb s1 s2 :
  String.ltb s1 s2 = false -> String.leb s2 s1 = true.
Proof.
  unfold String.ltb, String.leb. rewrite (String.compare_antisym s1 s2).
  destruct (String.compare s2 s1); cbn; congruence.
Qed.

Lemma ltb_true_leb s1 s2 :
  String.ltb s1 s2 = true -> String.leb s1 s2 = true.
Proof.
  unfold String.ltb, String.leb. destruct (String.compare s1 s2); congruence.
Qed.

Lemma insert_by_key_Sorted key x l :
  Sorted (key_le key) l -> Sorted (key_le key) (Py.insert_by_key key x l).
Proof.
  induction l as [|y l IH]; intros Hs; cbn [Py.insert_by_key].
  - repeat constructor.
  - destruct (String.ltb (key x) (key y)) eqn:Hlt.
    + constructor; [exact Hs |]. constructor. now apply ltb_true_leb.
    + apply Sorted_inv in Hs as [Hs Hhd]. constructor; [now apply IH |].
      destruct l as [|z l]; cbn [Py.insert_by_key].
      * constructor. now apply ltb_false_leb.
      * destruct (String.ltb (key x) (key z)).
        -- constructor. now apply ltb_false_leb.
        -- constructor. now apply HdRel_inv in Hhd.
Qed.

Lemma sorted_by_key_Sorted key l : Sorted (key_le key) (Py.sorted_by_key key l).
Proof.
  unfold Py.sorted_by_key.
  assert (H : forall acc, Sorted (key_le key) acc ->
            Sorted (key_le key)
              (fold_left (fun acc x => Py.insert_by_key key x acc) l acc)).
  { induction l as [|x l IH]; intros acc Hacc; cbn [fold_left];
      [exact Hacc | apply IH, insert_by_key_Sorted, Hacc]. }
  apply H. constructor.
Qed.

(** The work list has no duplicates, is in ascending order of the
    lower-cased tags, and holds exactly the stripped tags of the rows
    that are neither empty nor the excluded tag. *)
Theorem unique_tags_sorted_without_duplicates (rows : list qrow) :
  List.NoDup (get_unique_tags_from_questions rows) /\
  Sorted (key_le Py.lower) (get_unique_tags_from_questions rows) /\
  forall t,
    In t (get_unique_tags_from_questions rows) <->
    exists row, In row rows /\ t = Py.strip (tag row) /\
                t <> EmptyString /\ t <> "fraction".
Proof.
  split; [| split].
  - unfold get_unique_tags_from_questions.
    eapply Permutation_NoDup; [apply sorted_by_key_Permutation |].
    apply NoDup_ListNoDup, NoDup_elements.
  - apply sorted_by_key_Sorted.
  - intros t. rewrite In_unique_tags. unfold names_work_item.
    split; intros (row & Hin & H).
    + destruct H as [Hk ->]. exists row. split; [exact Hin |].
      split; [reflexivity |].
      apply andb_true_iff in Hk as [H1 H2].
      split.
      * intros E. rewrite E in H1. discriminate.
      * intros E. rewrite E in H2. discriminate.
    + destruct H as (-> & Hne & Hnf). exists row. split; [exact Hin |].
      split; [| reflexivity].
      destruct (Py.strip (tag row)) eqn:E; [contradiction |].
      cbn [Py.is_empty negb andb].
      destruct (String.eqb_spec (String a s) "fraction"); [contradiction |].
      reflexivity.
Qed.

(** ** Drawing examples *)

Lemma In_firstn {A} (x : A) k : forall l, In x (firstn k l) -> In x l.
Proof.
  induction k as [|k IH]; intros [|y l]; cbn [firstn In]; try tauto.
  intros [-> | H]; [now left | right; now apply IH].
Qed.

Lemma take_sample_contract : sample_contract take_sample.
Proof.
  intros population k Hk. unfold take_sample. split.
  - rewrite length_firstn. lia.
  - intros x Hx. now apply In_firstn in Hx.
Qed.

(** With a sampling function that keeps its contract, the examples drawn
    for a tag are questions stored under that tag, as many as asked for or
    all of them when there are fewer; so, when at least one is asked for,
    none is drawn exactly when the index has no entry for the tag. *)
Theorem examples_are_drawn_from_the_index
    (sample : list string -> nat -> list string) (rows : list qrow)
    (t : string) (n : nat) :
  sample_contract sample ->
  let stored := stored_questions rows t in
  let examples :=
    get_random_examples sample (load_example_questions rows) t n in
  List.length examples = Nat.min n (List.length stored) /\
  incl examples stored /\
  ((List.length stored <= n)%nat -> examples = stored) /\
  ((0 < n)%nat -> (examples = [] <-> load_example_questions rows !! t = None)).
Proof.
  intros Hsample stored examples. subst stored examples.
  assert (Hindex : load_example_questions rows !! t =
            if is_nil (stored_questions rows t) then None
            else Some (stored_questions rows t)).
  { unfold load_example_questions.
    rewrite load_examples_fold, lookup_empty. reflexivity. }
  unfold get_random_examples. rewrite Hindex.
  destruct (stored_questions rows t) as [|q qs] eqn:E; cbn [is_nil].
  - cbn. rewrite Nat.min_0_r. repeat split; auto. intros x [].
  - destruct (Nat.leb_spec (List.length (q :: qs)) n) as [Hle | Hgt].
    + rewrite Nat.min_r by exact Hle.
      split; [reflexivity |]. split; [apply incl_refl |].
      split; [reflexivity |]. intros _. split; discriminate.
    + destruct (Hsample (q :: qs) n) as [Hlen Hincl]; [lia |].
      rewrite Nat.min_l by lia.
      split; [exact Hlen |]. split; [exact Hincl |].
      split; [lia |]. intros Hn. split; [| discriminate].
      intros Hnil. rewrite Hnil in Hlen. cbn in Hlen. lia.
Qed.

Lemma examples_are_drawn_from_the_index_witness :
  sample_contract take_sample /\
  let stored := stored_questions three_tag_examples "b" in
  let examples :=
    get_random_examples take_sample
      (load_example_questions three_tag_examples) "b" 30 in
  List.length examples = Nat.min 30 (List.length stored) /\
  incl examples stored /\
  ((List.length stored <= 30)%nat -> examples = stored) /\
  ((0 < 30)%nat ->
   (examples = [] <-> load_example_questions three_tag_examples !! "b" = None)).
Proof.
  split; [exact take_sample_contract |].
  exact (examples_are_drawn_from_the_index take_sample three_tag_examples
           "b" 30 take_sample_contract).
Defined.

(** ** Backoff and bounds of the client *)

Section ClientBackoff.

Variable service : nat -> prompt -> response.

Lemma attempt_rejected_pause max_retries p attempt later w :
  accepts (service (requests w) p) = false ->
  generate_attempts service max_retries p (attempt :: later) w =
  if (attempt <? max_retries - 1)%nat
  then generate_attempts service max_retries p later
         (emit (EvSleep (pause_after (service (requests w) p)))
            (snd (send service p w)))
  else (None, snd (send service p w)).
Proof.
  intros Hbad. cbn [generate_attempts send]. cbn [send snd] in *.
  destruct (service (requests w) p) as [|text] eqn:E; [reflexivity |].
  cbn [accepts pause_after] in *.
  destruct (Py.is_empty (Py.strip text)); [reflexivity |].
  apply Nat.leb_gt in Hbad. apply Nat.ltb_lt in Hbad. now rewrite Hbad.
Qed.

Lemma rejected_attempts_trace max_retries p n : forall a w,
  (a + n = max_retries)%nat ->
  (forall k, (k < n)%nat -> accepts (service (requests w + k) p) = false) ->
  trace (snd (generate_attempts service max_retries p (seq a n) w)) =
  trace w ++ rejected_trace service p (requests w) n.
Proof.
  induction n as [|n IH]; intros a w Hlen Hbad.
  - cbn. now rewrite app_nil_r.
  - cbn [seq]. rewrite attempt_rejected_pause
      by (specialize (Hbad 0%nat); rewrite Nat.add_0_r in Hbad;
          apply Hbad; lia).
    destruct n as [|n].
    + assert (Hlt : (a <? max_retries - 1)%nat = false)
        by (apply Nat.ltb_ge; lia).
      rewrite Hlt. reflexivity.
    + assert (Hlt : (a <? max_retries - 1)%nat = true)
        by (apply Nat.ltb_lt; lia).
      rewrite Hlt, IH.
      * cbn [rejected_trace emit send snd trace requests].
        now rewrite <- !app_assoc.
      * lia.
      * intros k Hk. cbn [emit requests send snd].
        replace (S (requests w) + k)%nat with (requests w + S k)%nat by lia.
        apply Hbad. lia.
Qed.

(** Requests sent by the loop of the client: never more than attempts
    given, and none taken back. *)
Lemma generate_attempts_requests max_retries p attempts : forall w,
  let r := generate_attempts service max_retries p attempts w in
  (requests w <= requests (snd r) <= requests w + List.length attempts)%nat /\
  (forall qs, fst r = Some qs ->
     (requests w < requests (snd r))%nat /\
     Forall (fun q => q <> EmptyString) qs).
Proof.
  induction attempts as [|attempt later IH]; intros w; cbn zeta.
  - cbn. split; [lia | discriminate].
  - assert (Hretry : forall s,
      let r := generate_attempts service max_retries p later
                 (emit (EvSleep s) (snd (send service p w))) in
      (requests w <= requests (snd r)
         <= requests w + List.length (attempt :: later))%nat /\
      (forall qs, fst r = Some qs ->
         (requests w < requests (snd r))%nat /\
         Forall (fun q => q <> EmptyString) qs)).
    { intros s. cbn zeta.
      destruct (IH (emit (EvSleep s) (snd (send service p w)))) as [Hb Hs].
      cbn [emit send snd requests List.length] in *. split; [lia |].
      intros qs Hqs. destruct (Hs qs Hqs) as [H1 H2]. split; [lia | exact H2]. }
    assert (Hstop :
      let r : option (list string) * world :=
        (None, snd (send service p w)) in
      (requests w <= requests (snd r)
         <= requests w + List.length (attempt :: later))%nat /\
      (forall qs, fst r = Some qs ->
         (requests w < requests (snd r))%nat /\
         Forall (fun q => q <> EmptyString) qs)).
    { cbn. split; [lia | discriminate]. }
    cbn [generate_attempts send]. cbn [send snd] in Hretry, Hstop.
    destruct (service (requests w) p) as [|text].
    + destruct (attempt <? max_retries - 1)%nat; [apply Hretry | apply Hstop].
    + destruct (Py.is_empty (Py.strip text)).
      { destruct (attempt <? max_retries - 1)%nat;
          [apply Hretry | apply Hstop]. }
      destruct (List.length (parse_questions (Py.strip text)) <? TARGET)%nat.
      { destruct (attempt <? max_retries - 1)%nat;
          [apply Hretry | apply Hstop]. }
      cbn. split; [lia |]. intros qs [= <-]. split; [lia |].
      apply List.Forall_forall. intros q Hq. apply In_firstn in Hq.
      now apply parse_questions_nonempty in Hq.
Qed.

End ClientBackoff.

(** When every attempt is rejected, by a fault or by a response with too
    few entries, the client's events are one request per attempt with a
    pause after each but the last: 5 seconds after a fault, 2 after a
    response. *)
Theorem rejected_attempts_pause_between_requests
    (service : nat -> prompt -> response) (answer : string)
    (examples : list string) (max_retries : nat) (w : world) :
  (forall k, (k < max_retries)%nat ->
     accepts (service (requests w + k)%nat
                {| p_answer := answer; p_examples := examples |}) = false) ->
  let r := generate_questions_with_gpt5 service answer examples max_retries w in
  fst r = None /\
  trace (snd r) =
  trace w ++ rejected_trace service
               {| p_answer := answer; p_examples := examples |}
               (requests w) max_retries.
Proof.
  intros Hbad r. subst r. unfold generate_questions_with_gpt5. split.
  - now apply (attempts_all_rejected service max_retries _ max_retries 0%nat w).
  - now apply rejected_attempts_trace.
Qed.

Lemma rejected_attempts_pause_between_requests_witness :
  let p := {| p_answer := "answer"; p_examples := ["e"] |} in
  let r := generate_questions_with_gpt5 (always Fault) "answer" ["e"] 3
             fresh_world in
  fst r = None /\
  trace (snd r) =
  [EvRequest p; EvSleep 5; EvRequest p; EvSleep 5; EvRequest p].
Proof.
  exact (rejected_attempts_pause_between_requests (always Fault) "answer"
           ["e"] 3 fresh_world (fun k _ => eq_refl)).
Defined.

(** Whatever the service does, a call of the client sends at most
    [max_retries] requests; a result other than [None] has exactly
    [TARGET] entries, none of them empty, and cost at least one
    request. *)
Theorem generate_is_bounded_and_well_formed
    (service : nat -> prompt -> response) (answer : string)
    (examples : list string) (max_retries : nat) (w : world) :
  let r := generate_questions_with_gpt5 service answer examples max_retries w in
  (requests w <= requests (snd r) <= requests w + max_retries)%nat /\
  forall qs, fst r = Some qs ->
    List.length qs = TARGET /\
    Forall (fun q => q <> EmptyString) qs /\
    (requests w < requests (snd r))%nat.
Proof.
  intros r. subst r. unfold generate_questions_with_gpt5.
  pose proof (generate_attempts_requests service max_retries
                {| p_answer := answer; p_examples := examples |}
                (seq 0 max_retries) w) as [Hb Hs].
  pose proof (generate_attempts_frame service max_retries
                {| p_answer := answer; p_examples := examples |}
                (seq 0 max_retries) w) as (_ & _ & _ & Hlen).
  rewrite length_seq in Hb. split; [exact Hb |].
  intros qs Hqs. destruct (Hs qs Hqs) as [H1 H2].
  split; [now apply Hlen |]. split; [exact H2 | exact H1].
Qed.

(** ** Counters, requests and files over a run *)

Section RunProperties.

Variable service : nat -> prompt -> response.
Variable sample : list string -> nat -> list string.
Variable tag_questions : gmap string (list string).
Variable tag_to_answer : gmap string string.
Variable unique_tags : list string.

(** What one item costs and changes. *)
Lemma process_tag_effects i tag_name w :
  let r := process_tag service sample tag_questions tag_to_answer
             i tag_name w in
  (requests w <= requests (snd r))%nat /\
  (requests (snd r) <= requests w + 3)%nat /\
  (fst r = Skipped -> requests (snd r) = requests w) /\
  (forall name, name <> artifact_name tag_name ->
     output_dir (snd r) !! name = output_dir w !! name) /\
  (is_Some (output_dir w !! artifact_name tag_name) ->
   is_Some (output_dir (snd r) !! artifact_name tag_name)).
Proof.
  cbn zeta.
  destruct (process_tag_cases service sample tag_questions tag_to_answer
              i tag_name w)
    as [[-> _] | (answer & gen & _ & _ & Hgen & Hcase)].
  - cbn. repeat split; auto; lia.
  - assert (Hb :
      (requests (emit (EvGenerate i) w)
       <= requests (snd (generate_questions_with_gpt5 service answer
                           (get_random_examples sample tag_questions
                              tag_name 30) 3 (emit (EvGenerate i) w)))
       <= requests (emit (EvGenerate i) w) + 3)%nat)
      by exact (proj1 (generate_attempts_requests service 3
                         {| p_answer := answer;
                            p_examples :=
                              get_random_examples sample tag_questions
                                tag_name 30 |}
                         (seq 0 3) (emit (EvGenerate i) w))).
    pose proof (generate_frame service answer
                  (get_random_examples sample tag_questions tag_name 30) 3
                  (emit (EvGenerate i) w)) as (_ & Hdir & _ & _).
    cbn zeta in Hb. rewrite <- Hgen in Hb, Hdir. cbn [emit requests] in Hb.
    destruct Hcase as [(qs & _ & _ & ->) | [_ ->]]; cbn; rewrite ?Hdir; cbn.
    + repeat split; try lia; try discriminate.
      * intros name Hname. now rewrite lookup_insert_ne.
      * intros _. rewrite lookup_insert_eq. eauto.
    + repeat split; auto; try lia; discriminate.
Qed.


Lemma tag_loop_files n name : forall i c w,
  (is_Some (output_dir w !! name) ->
   is_Some (output_dir
              (snd (tag_loop service sample tag_questions tag_to_answer
                      unique_tags n i c w)) !! name)) /\
  ((forall t, In t unique_tags -> name <> artifact_name t) ->
   output_dir (snd (tag_loop service sample tag_questions tag_to_answer
                      unique_tags n i c w)) !! name = output_dir w !! name).
Proof.
  induction n as [|n IH]; intros i c w; cbn [tag_loop]; [now split |].
  destruct (Py.getitem unique_tags i) as [tag_name|] eqn:Hget; [| now split].
  pose proof (process_tag_effects i tag_name (emit (EvItem i) w))
    as (_ & _ & _ & Hother & Hsame).
  destruct (process_tag _ _ _ _ i tag_name _) as [o w1].
  cbn [fst snd emit output_dir] in *.
  destruct (IH (i + 1) (tally o c) w1) as [IH1 IH2]. split.
  - intros Hsome. apply IH1.
    destruct (decide (name = artifact_name tag_name)) as [-> | Hne];
      [now apply Hsame | now rewrite Hother].
  - intros Hname. rewrite IH2 by exact Hname. apply Hother, Hname.
    eapply getitem_In, Hget.
Qed.

End RunProperties.



(** With the tags [a], [b] and [c], whose files open, and a service whose
    responses are always accepted, the run returns with three
    successes. *)
Example run_returns_when_every_file_opens :
  fst (OnDisk.run_paraphrase_generation plain_name
         (always (Output numbered_text)) take_sample true
         three_tag_examples
         [{| a_tag := "a"; a_answer := "A" |};
          {| a_tag := "b"; a_answer := "B" |};
          {| a_tag := "c"; a_answer := "C" |}] false 0 fresh_world) =
  Returned {| success_count := 3; failure_count := 0; skipped_count := 0 |}.
Proof. vm_compute. reflexivity. Qed.

(** With the tags [a], [b/c] and [d] and a service whose responses are
    always accepted, the run saves [a.csv], asks the service for [b/c]
    and stops on the file name [b/c.csv]: one item is done, the
    checkpoint is 0 and two requests were sent. *)
Example run_stops_on_a_tag_that_is_no_file_name :
  let r := OnDisk.run_paraphrase_generation plain_name
             (always (Output numbered_text)) take_sample true
             slash_examples slash_answers false 0 fresh_world in
  fst r = Raised (OSError "b/c.csv") /\
  progress_file (snd r) = Some 0 /\
  requests (snd r) = 2%nat /\
  elements (dom (output_dir (snd r))) = ["a.csv"].
Proof. vm_compute. repeat split; reflexivity. Qed.





(** A run never removes a file from the output directory; it leaves
    alone every file that is not the artifact of a tag of its work list;
    and every file found after it either was there with the same content
    or is a complete artifact. *)
Theorem run_only_adds_complete_artifacts
    (service : nat -> prompt -> response)
    (sample : list string -> nat -> list string)
    (examples_file : list qrow) (answers_file : list arow)
    (test_mode : bool) (test_tag_count : Z) (w : world) :
  let w' := snd (run_paraphrase_generation service sample true examples_file
                   answers_file test_mode test_tag_count w) in
  (forall name, is_Some (output_dir w !! name) ->
                is_Some (output_dir w' !! name)) /\
  (forall name,
     (forall t, In t (work_list examples_file test_mode test_tag_count) ->
                name <> artifact_name t) ->
     output_dir w' !! name = output_dir w !! name) /\
  (forall name f, output_dir w' !! name = Some f ->
     output_dir w !! name = Some f \/ complete_artifact f).
Proof.
  cbn zeta. unfold run_paraphrase_generation. cbn [negb].
  fold (work_list examples_file test_mode test_tag_count).
  set (unique_tags := work_list examples_file test_mode test_tag_count).
  unfold resume_and_process, for_range.
  destruct (_ >=? _).
  - split; [| split]; intros name.
    + apply (tag_loop_files service sample _ _ unique_tags _ name 0 no_counts
               (update_progress (-1) w)).
    + apply (tag_loop_files service sample _ _ unique_tags _ name 0 no_counts
               (update_progress (-1) w)).
    + intros f H. now apply tag_loop_output_dir in H.
  - split; [| split]; intros name.
    + apply (tag_loop_files service sample _ _ unique_tags _ name).
    + apply (tag_loop_files service sample _ _ unique_tags _ name).
    + intros f H. now apply tag_loop_output_dir in H.
Qed.

(** On an empty work list a run processes nothing: with a checkpoint of
    at least [-1] it writes [-1] to the progress file and returns zero
    counts; with a smaller one it stops with [IndexError] at its first
    item, before any request. *)
Theorem run_on_empty_work_list
    (service : nat -> prompt -> response)
    (sample : list string -> nat -> list string)
    (tag_questions : gmap string (list string))
    (tag_to_answer : gmap string string) (w : world) :
  resume_and_process service sample tag_questions tag_to_answer [] w =
  if -1 <=? get_last_processed_index w
  then (Some no_counts, update_progress (-1) w)
  else (None, emit (EvItem (get_last_processed_index w + 1)) w).
Proof.
  unfold resume_and_process, for_range.
  change (Z.of_nat (List.length (@nil string))) with 0.
  destruct (Z.leb_spec (-1) (get_last_processed_index w)) as [H | H].
  - destruct (Z.geb_spec (get_last_processed_index w + 1) 0); [| lia].
    reflexivity.
  - destruct (Z.geb_spec (get_last_processed_index w + 1) 0); [lia |].
    destruct (Z.to_nat (0 - (get_last_processed_index w + 1))) eqn:E; [lia |].
    cbn [tag_loop]. unfold Py.getitem.
    change (Z.of_nat (List.length (@nil string))) with 0.
    destruct (Z.leb_spec 0 (get_last_processed_index w + 1)); [lia |].
    cbn [andb]. destruct (Z.leb_spec (- 0) (get_last_processed_index w + 1));
      [lia |]. reflexivity.
Qed.

(* ===================================================================== *)
(** * Further properties of merge and validation *)
(* ===================================================================== *)

Lemma merge_fold directory csv_files : forall acc,
  fold_left
    (fun merged_data filepath =>
       let rows := read_individual_csv directory filepath in
       if is_nil rows then merged_data else merged_data ++ rows)
    csv_files acc =
  acc ++ concat (map (read_individual_csv directory) csv_files).
Proof.
  induction csv_files as [|f files IH]; intros acc; cbn [fold_left map concat].
  - now rewrite app_nil_r.
  - rewrite IH. cbn zeta.
    destruct (read_individual_csv directory f); cbn [is_nil].
    + reflexivity.
    + now rewrite <- app_assoc.
Qed.

Lemma merge_csv_files_concat directory csv_files :
  merge_csv_files directory csv_files =
  (write_merged (concat (map (read_individual_csv directory) csv_files)),
   List.length (concat (map (read_individual_csv directory) csv_files))).
Proof. unfold merge_csv_files. now rewrite merge_fold. Qed.

(** The file the merge writes reads back as the rows of the given
    files, one file after the other in the order given, each file's rows
    in their own order; the count returned is their number. *)
Theorem merge_concatenates_files
    (directory : gmap string csv_file) (csv_files : list string) :
  dict_reader (fst (merge_csv_files directory csv_files)) =
    concat (map (read_individual_csv directory) csv_files) /\
  snd (merge_csv_files directory csv_files) =
    List.length (concat (map (read_individual_csv directory) csv_files)).
Proof.
  rewrite merge_csv_files_concat. cbn [fst snd].
  rewrite dict_reader_write_merged. now split.
Qed.

Lemma length_concat_constant {A} (ls : list (list A)) n :
  (forall l, In l ls -> List.length l = n) ->
  List.length (concat ls) = (List.length ls * n)%nat.
Proof.
  induction ls as [|l ls IH]; intros H; cbn [concat List.length];
    [reflexivity |].
  rewrite length_app, IH by (intros l' Hl'; apply H; now right).
  rewrite (H l) by now left. cbn. lia.
Qed.

(** Merging [K] files that hold [N] rows each gives [K * N] rows. *)
Theorem merge_of_equal_files_has_product_size
    (directory : gmap string csv_file) (csv_files : list string) (N : nat) :
  (forall f, In f csv_files ->
             List.length (read_individual_csv directory f) = N) ->
  snd (merge_csv_files directory csv_files) = (List.length csv_files * N)%nat /\
  List.length (dict_reader (fst (merge_csv_files directory csv_files))) =
    (List.length csv_files * N)%nat.
Proof.
  intros Hrows.
  assert (Hlen :
    List.length (concat (map (read_individual_csv directory) csv_files)) =
    (List.length csv_files * N)%nat).
  { rewrite (length_concat_constant _ N), length_map; [reflexivity |].
    intros l Hl. apply in_map_iff in Hl as (f & <- & Hf). now apply Hrows. }
  rewrite merge_csv_files_concat. cbn [fst snd].
  rewrite dict_reader_write_merged. now split.
Qed.

Lemma merge_of_equal_files_has_product_size_witness :
  (forall f, In f [artifact_name "a"; artifact_name "b"] ->
             List.length (read_individual_csv mixed_dir f) = 2%nat) /\
  snd (merge_csv_files mixed_dir [artifact_name "a"; artifact_name "b"]) =
    (2 * 2)%nat /\
  List.length
    (dict_reader
       (fst (merge_csv_files mixed_dir
               [artifact_name "a"; artifact_name "b"]))) = (2 * 2)%nat.
Proof.
  assert (H : forall f, In f [artifact_name "a"; artifact_name "b"] ->
             List.length (read_individual_csv mixed_dir f) = 2%nat).
  { intros f [<- | [<- | []]]; vm_compute; reflexivity. }
  split; [exact H |].
  exact (merge_of_equal_files_has_product_size mixed_dir
           [artifact_name "a"; artifact_name "b"] 2 H).
Defined.

(** ** The files a merge run takes *)

Lemma In_csv_files directory name :
  In name (get_sorted_csv_files directory) <->
  is_Some (directory !! name) /\ Py.endswith name ".csv" = true.
Proof.
  unfold get_sorted_csv_files.
  rewrite In_sorted_by_key, filter_In, <- list_elem_of_In, elem_of_elements,
    elem_of_dom. reflexivity.
Qed.

Lemma NoDup_filter_list {A} (p : A -> bool) (l : list A) :
  List.NoDup l -> List.NoDup (List.filter p l).
Proof. apply List.NoDup_filter. Qed.

(** The files of a merge run are the names of the directory that end in
    [.csv], each once, in ascending order of code points. *)
Theorem csv_files_are_sorted_names_of_the_directory
    (directory : gmap string csv_file) :
  List.NoDup (get_sorted_csv_files directory) /\
  Sorted (key_le (fun s => s)) (get_sorted_csv_files directory) /\
  forall name,
    In name (get_sorted_csv_files directory) <->
    is_Some (directory !! name) /\ Py.endswith name ".csv" = true.
Proof.
  split; [| split].
  - unfold get_sorted_csv_files.
    eapply Permutation_NoDup; [apply sorted_by_key_Permutation |].
    apply NoDup_filter_list, NoDup_ListNoDup, NoDup_elements.
  - apply sorted_by_key_Sorted.
  - apply In_csv_files.
Qed.

(** A merge run gives up, writing nothing, exactly when no name of the
    directory ends in [.csv]. *)
Theorem run_merge_needs_a_csv_file (input_dir : gmap string csv_file) :
  run_merge input_dir = None <->
  forall name, is_Some (input_dir !! name) ->
               Py.endswith name ".csv" = false.
Proof.
  unfold run_merge.
  destruct (get_sorted_csv_files input_dir) as [|f files] eqn:E;
    cbn [is_nil].
  - split; [| reflexivity]. intros _ name Hname.
    destruct (Py.endswith name ".csv") eqn:Hcsv; [| reflexivity].
    assert (Hin : In name (get_sorted_csv_files input_dir))
      by (apply In_csv_files; now split).
    rewrite E in Hin. destruct Hin.
  - destruct (merge_csv_files input_dir (f :: files)) as [out n].
    split; [discriminate |]. intros Hnone.
    assert (Hin : In f (get_sorted_csv_files input_dir))
      by (rewrite E; now left).
    apply In_csv_files in Hin as [Hsome Hcsv].
    rewrite (Hnone f Hsome) in Hcsv. discriminate.
Qed.

(** The merged file of a run reads back as the rows of the [.csv] files
    of the directory, file after file in ascending order of the names;
    files with other names contribute nothing. *)
Theorem run_merge_output_is_the_sorted_concatenation
    (input_dir : gmap string csv_file) (output_file : csv_file)
    (rep : report) :
  run_merge input_dir = Some (output_file, rep) ->
  dict_reader output_file =
    concat (map (read_individual_csv input_dir)
              (get_sorted_csv_files input_dir)) /\
  actual_count rep = List.length (dict_reader output_file).
Proof.
  unfold run_merge. intros Hrun.
  destruct (is_nil (get_sorted_csv_files input_dir)); [discriminate |].
  rewrite merge_csv_files_concat in Hrun. injection Hrun as <- <-.
  cbn [actual_count validate_merged_file].
  rewrite dict_reader_write_merged. split; reflexivity.
Qed.

Lemma run_merge_output_is_the_sorted_concatenation_witness :
  exists output_file rep,
    run_merge mixed_dir = Some (output_file, rep) /\
    dict_reader output_file =
      [{| question := "q1"; tag := "a" |}; {| question := "q2"; tag := "a" |};
       {| question := "q3"; tag := "b" |}; {| question := "q4"; tag := "b" |}]
    /\ actual_count rep = 4%nat.
Proof.
  assert (H : run_merge mixed_dir =
    Some (fst (merge_csv_files mixed_dir (get_sorted_csv_files mixed_dir)),
          validate_merged_file
            (fst (merge_csv_files mixed_dir (get_sorted_csv_files mixed_dir)))
            (snd (merge_csv_files mixed_dir
                    (get_sorted_csv_files mixed_dir)))))
    by (vm_compute; reflexivity).
  eexists. eexists. split; [exact H |].
  destruct (run_merge_output_is_the_sorted_concatenation mixed_dir _ _ H)
    as [H1 H2].
  split.
  - rewrite H1. vm_compute. reflexivity.
  - rewrite H2, H1. vm_compute. reflexivity.
Defined.

(** ** The per-tag check *)

Lemma NoDup_map_fst_filter {A B} (p : A * B -> bool) (l : list (A * B)) :
  List.NoDup (map fst l) -> List.NoDup (map fst (List.filter p l)).
Proof.
  induction l as [|x l IH]; cbn [map List.filter]; intros H; [constructor |].
  apply List.NoDup_cons_iff in H as [Hx Hl].
  destruct (p x); cbn [map]; [| now apply IH].
  constructor; [| now apply IH].
  intros Hin. apply Hx. apply in_map_iff in Hin as (y & Hy & Hin).
  apply filter_In in Hin as [Hin _]. apply in_map_iff. eauto.
Qed.

(** The validation reports, each once, exactly the tags of the merged
    file whose number of occurrences is not 10, whatever count the
    earlier stage aimed at. *)
Theorem validation_reports_counts_other_than_ten
    (output_file : csv_file) (expected_count : nat) :
  let tags := map tag (dict_reader output_file) in
  let reported :=
    tags_with_wrong_count (validate_merged_file output_file expected_count) in
  List.NoDup reported /\
  forall t, In t reported <->
            In t tags /\ count_occ string_dec tags t <> 10%nat.
Proof.
  cbn zeta. split.
  - cbn [tags_with_wrong_count validate_merged_file].
    apply NoDup_map_fst_filter, Counter_ok.
  - intros t. apply wrong_count_reported.
Qed.

Lemma short_tag_reported_alone_at_ten_witness :
  let tags := map tag (dict_reader nine_and_ten_file) in
  count_occ string_dec tags "a" = 9%nat /\
  (forall t, In t tags -> t <> "a" -> count_occ string_dec tags t = 10%nat) /\
  forall t,
    In t (tags_with_wrong_count (validate_merged_file nine_and_ten_file 19))
    <-> t = "a".
Proof.
  cbn zeta.
  assert (H1 : count_occ string_dec
                 (map tag (dict_reader nine_and_ten_file)) "a" = 9%nat)
    by (vm_compute; reflexivity).
  assert (H2 : forall t, In t (map tag (dict_reader nine_and_ten_file)) ->
                 t <> "a" ->
                 count_occ string_dec
                   (map tag (dict_reader nine_and_ten_file)) t = 10%nat).
  { assert (Hall : forallb
        (fun t => String.eqb t "a"
                  || (count_occ string_dec
                        (map tag (dict_reader nine_and_ten_file)) t =? 10)%nat)
        (map tag (dict_reader nine_and_ten_file)) = true)
      by (vm_compute; reflexivity).
    intros t Hin Hne. rewrite forallb_forall in Hall.
    specialize (Hall t Hin). apply orb_true_iff in Hall as [H | H].
    - apply String.eqb_eq in H. contradiction.
    - now apply Nat.eqb_eq in H. }
  split; [exact H1 |]. split; [exact H2 |].
  exact (short_tag_reported_alone_at_ten nine_and_ten_file 19 "a" H1 H2).
Defined.

(* ===================================================================== *)
(** * Ordered dictionaries *)
(* ===================================================================== *)

Lemma dict_get_set_eq {V} (d : list (string * V)) k v :
  Dict.get (Dict.set k v d) k = Some v.
Proof.
  induction d as [|[k' v'] d IH]; cbn [Dict.set Dict.get].
  - now rewrite String.eqb_refl.
  - destruct (String.eqb k' k) eqn:E; cbn [Dict.get]; rewrite E; auto.
Qed.

Lemma dict_get_set_ne {V} (d : list (string * V)) k k' v :
  k <> k' -> Dict.get (Dict.set k v d) k' = Dict.get d k'.
Proof.
  intros Hne. induction d as [|[k0 v0] d IH]; cbn [Dict.set Dict.get].
  - destruct (String.eqb_spec k k'); [contradiction | reflexivity].
  - destruct (String.eqb_spec k0 k) as [-> | H0]; cbn [Dict.get].
    + destruct (String.eqb_spec k k'); [contradiction | reflexivity].
    + now rewrite IH.
Qed.

Lemma dict_keys_set {V} (d : list (string * V)) k v :
  Dict.keys (Dict.set k v d) =
  if Dict.mem d k then Dict.keys d else Dict.keys d ++ [k].
Proof.
  unfold Dict.keys, Dict.mem.
  induction d as [|[k' v'] d IH]; cbn [Dict.set Dict.get map fst];
    [reflexivity |].
  destruct (String.eqb k' k); cbn [map fst]; [reflexivity |].
  rewrite IH. destruct (Dict.get d k); reflexivity.
Qed.

Lemma dict_mem_keys {V} (d : list (string * V)) k :
  Dict.mem d k = true <-> In k (Dict.keys d).
Proof.
  unfold Dict.mem, Dict.keys.
  induction d as [|[k' v'] d IH]; cbn [Dict.get map fst In].
  - split; [discriminate | tauto].
  - destruct (String.eqb_spec k' k) as [-> | Hne].
    + split; auto.
    + rewrite IH. split; [auto | intros [H | H]; [contradiction | exact H]].
Qed.

Lemma dict_keys_set_NoDup {V} (d : list (string * V)) k v :
  List.NoDup (Dict.keys d) -> List.NoDup (Dict.keys (Dict.set k v d)).
Proof.
  intros Hnd. rewrite dict_keys_set.
  destruct (Dict.mem d k) eqn:E; [exact Hnd |].
  apply NoDup_ListNoDup, NoDup_app. repeat split.
  - now apply NoDup_ListNoDup.
  - intros x Hx Hx'. apply list_elem_of_In in Hx.
    apply list_elem_of_In in Hx'. destruct Hx' as [<- | []].
    apply dict_mem_keys in Hx. congruence.
  - apply NoDup_ListNoDup. constructor; [intros [] | constructor].
Qed.

Lemma dict_get_In {V} (d : list (string * V)) k v :
  Dict.get d k = Some v -> In (k, v) d.
Proof.
  induction d as [|[k' v'] d IH]; cbn [Dict.get In]; [discriminate |].
  destruct (String.eqb_spec k' k) as [-> | Hne].
  - intros [= ->]. now left.
  - intros H. right. now apply IH.
Qed.

Lemma dict_In_get {V} (d : list (string * V)) k v :
  List.NoDup (Dict.keys d) -> In (k, v) d -> Dict.get d k = Some v.
Proof.
  unfold Dict.keys. induction d as [|[k' v'] d IH]; cbn [Dict.get In map fst];
    intros Hnd Hin; [destruct Hin |].
  apply List.NoDup_cons_iff in Hnd as [Hk Hnd].
  destruct Hin as [[= -> ->] | Hin].
  - now rewrite String.eqb_refl.
  - destruct (String.eqb_spec k' k) as [-> | Hne]; [| now apply IH].
    exfalso. apply Hk. apply in_map_iff. exists (k, v). now split.
Qed.

(* ===================================================================== *)
(** * Properties of the evaluation statistics *)
(* ===================================================================== *)

Lemma hits_cons row rows t :
  hits (row :: rows) t =
  ((if expects t row && is_hit row then 1 else 0) + hits rows t)%nat.
Proof.
  unfold hits. cbn [List.filter].
  destruct (expects t row && is_hit row); reflexivity.
Qed.

Lemma misses_cons row rows t :
  misses (row :: rows) t =
  ((if expects t row && negb (is_hit row) then 1 else 0) + misses rows t)%nat.
Proof.
  unfold misses. cbn [List.filter].
  destruct (expects t row && negb (is_hit row)); reflexivity.
Qed.

Lemma count_prediction_get tag_stats row t :
  Dict.get (count_prediction tag_stats row) t =
  if expects t row
  then Some (if is_hit row
             then {| n_right := S (n_right (stat_or_none tag_stats t));
                     n_wrong := n_wrong (stat_or_none tag_stats t) |}
             else {| n_right := n_right (stat_or_none tag_stats t);
                     n_wrong := S (n_wrong (stat_or_none tag_stats t)) |})
  else Dict.get tag_stats t.
Proof.
  unfold count_prediction, expects, is_hit, stat_or_none.
  destruct (String.eqb_spec (Py.strip (expected_cell row)) t) as [<- | Hne].
  - destruct (String.eqb _ (Py.strip (predicted_cell row)));
      now rewrite dict_get_set_eq.
  - destruct (String.eqb _ (Py.strip (predicted_cell row)));
      now rewrite dict_get_set_ne.
Qed.

Lemma count_prediction_mem tag_stats row t :
  Dict.mem (count_prediction tag_stats row) t =
  expects t row || Dict.mem tag_stats t.
Proof.
  unfold Dict.mem. rewrite count_prediction_get.
  destruct (expects t row); reflexivity.
Qed.

Lemma load_evaluation_mem rows t : forall tag_stats,
  Dict.mem (fold_left count_prediction rows tag_stats) t =
  Dict.mem tag_stats t || existsb (expects t) rows.
Proof.
  induction rows as [|row rows IH]; intros tag_stats; cbn [fold_left existsb].
  - now rewrite orb_false_r.
  - rewrite IH, count_prediction_mem.
    destruct (expects t row), (Dict.mem tag_stats t); reflexivity.
Qed.

Lemma load_evaluation_stat rows t : forall tag_stats,
  stat_or_none (fold_left count_prediction rows tag_stats) t =
  {| n_right := (n_right (stat_or_none tag_stats t) + hits rows t)%nat;
     n_wrong := (n_wrong (stat_or_none tag_stats t) + misses rows t)%nat |}.
Proof.
  induction rows as [|row rows IH]; intros tag_stats.
  - cbn [fold_left]. unfold hits, misses. cbn.
    destruct (stat_or_none tag_stats t). cbn. f_equal; lia.
  - cbn [fold_left]. rewrite IH, hits_cons, misses_cons.
    unfold stat_or_none. rewrite count_prediction_get.
    unfold stat_or_none.
    destruct (expects t row); cbn [andb default].
    + destruct (is_hit row); unfold id; cbn [negb n_right n_wrong];
        f_equal; lia.
    + f_equal; lia.
Qed.

Lemma weight_count_prediction tag_stats row :
  loaded_predictions (count_prediction tag_stats row) =
  S (loaded_predictions tag_stats).
Proof.
  unfold count_prediction, loaded_predictions.
  set (k := Py.strip (expected_cell row)).
  assert (H : forall (d : list (string * tag_stat)) v,
    (n_right v + n_wrong v)%nat =
      S (n_right (default no_stat (Dict.get d k))
         + n_wrong (default no_stat (Dict.get d k))) ->
    list_sum (map (fun kv => (n_right (snd kv) + n_wrong (snd kv))%nat)
                (Dict.set k v d)) =
    S (list_sum (map (fun kv => (n_right (snd kv) + n_wrong (snd kv))%nat)
                   d))).
  { assert (Hc : forall x l, list_sum (x :: l) = (x + list_sum l)%nat)
      by reflexivity.
    induction d as [|[k' v'] d IH]; intros v Hv;
      cbn [Dict.set Dict.get map snd default] in *.
    - unfold id, no_stat in *. rewrite Hc. cbn in *. lia.
    - unfold id in *.
      destruct (String.eqb k' k); cbn [map snd default] in *;
        unfold id in *; rewrite !Hc.
      + lia.
      + rewrite (IH v Hv). lia. }
  destruct (String.eqb k (Py.strip (predicted_cell row)));
    apply H; cbn [n_right n_wrong]; lia.
Qed.

Lemma load_evaluation_invariant rows : forall tag_stats,
  List.NoDup (Dict.keys tag_stats) ->
  Forall (fun kv => (1 <= weight (snd kv))%nat) tag_stats ->
  let d := fold_left count_prediction rows tag_stats in
  List.NoDup (Dict.keys d) /\
  Forall (fun kv => (1 <= weight (snd kv))%nat) d /\
  loaded_predictions d = (loaded_predictions tag_stats + List.length rows)%nat.
Proof.
  induction rows as [|row rows IH]; intros tag_stats Hnd Hpos; cbn zeta.
  - cbn. repeat split; auto.
  - cbn [fold_left List.length].
    destruct (IH (count_prediction tag_stats row)) as (H1 & H2 & H3).
    + unfold count_prediction.
      destruct (String.eqb _ _); now apply dict_keys_set_NoDup.
    + assert (Hset : forall k v (d : list (string * tag_stat)),
        (1 <= weight v)%nat ->
        Forall (fun kv => (1 <= weight (snd kv))%nat) d ->
        Forall (fun kv => (1 <= weight (snd kv))%nat) (Dict.set k v d)).
      { intros k v d Hv. induction d as [|[k' v'] d IHd]; intros Hd;
          cbn [Dict.set].
        - repeat constructor. exact Hv.
        - apply Forall_cons in Hd as [Hh Ht].
          destruct (String.eqb k' k); constructor; auto. }
      unfold count_prediction.
      destruct (String.eqb _ _); apply Hset; auto;
        unfold weight; cbn [n_right n_wrong]; lia.
    + split; [exact H1 |]. split; [exact H2 |].
      rewrite H3, weight_count_prediction. lia.
Qed.

(** For every tag, the statistics loaded from an evaluation file hold
    the number of rows whose stripped expected tag is this tag and whose
    stripped predicted tag equals it, and the number of those whose
    predicted tag differs; a tag that no row expects has no entry. *)
Theorem evaluation_counts_per_expected_tag (rows : list erow) (t : string) :
  Dict.get (load_evaluation_csv rows) t =
  if existsb (expects t) rows
  then Some {| n_right := hits rows t; n_wrong := misses rows t |}
  else None.
Proof.
  unfold load_evaluation_csv.
  pose proof (load_evaluation_mem rows t []) as Hmem.
  pose proof (load_evaluation_stat rows t []) as Hstat.
  cbn in Hmem, Hstat. unfold Dict.mem in Hmem. unfold stat_or_none in Hstat.
  destruct (Dict.get (fold_left count_prediction rows []) t) as [s|];
    rewrite <- Hmem; [| reflexivity].
  cbn [default] in Hstat. unfold id in Hstat. now rewrite Hstat.
Qed.

(** The loaded statistics hold each tag once; every entry stands for at
    least one prediction, so that the guard against a zero total in the
    accuracy computations never applies; the entries add up to the number
    of rows of the file; and there is no entry at all only for a file
    without rows. *)
Theorem evaluation_statistics_are_well_formed (rows : list erow) :
  let tag_stats := load_evaluation_csv rows in
  List.NoDup (Dict.keys tag_stats) /\
  Forall (fun kv => (0 < n_right (snd kv) + n_wrong (snd kv))%nat) tag_stats /\
  loaded_predictions tag_stats = List.length rows /\
  (tag_stats = [] <-> rows = []).
Proof.
  cbn zeta. unfold load_evaluation_csv.
  destruct (load_evaluation_invariant rows []) as (H1 & H2 & H3);
    [constructor | constructor |].
  cbn zeta in *. split; [exact H1 |]. split; [exact H2 |].
  split; [exact H3 |]. split.
  - intros Hnil. rewrite Hnil in H3. cbn in H3.
    destruct rows; [reflexivity | discriminate].
  - intros ->. reflexivity.
Qed.

Example evaluation_counts_example :
  load_evaluation_csv sample_evaluation =
  [("a", {| n_right := 1; n_wrong := 1 |});
   ("b", {| n_right := 1; n_wrong := 0 |})].
Proof. reflexivity. Qed.

(* ===================================================================== *)
(** * Properties of the tagging stage *)
(* ===================================================================== *)

(** ** Loading the input file *)

Lemma loaded_snoc rows row :
  loaded (rows ++ [row]) = load_csv_step (loaded rows) row.
Proof. unfold loaded. now rewrite fold_left_app. Qed.

Lemma kept_rows_snoc rows row :
  kept_rows (rows ++ [row]) =
  kept_rows rows ++ (if complete (stripped row) then [stripped row] else []).
Proof.
  unfold kept_rows. now rewrite map_app, List.filter_app.
Qed.

Lemma group_of_snoc g items item :
  group_of g (items ++ [item]) =
  group_of g items ++ (if String.eqb (r_id item) g then [item] else []).
Proof. unfold group_of. now rewrite List.filter_app. Qed.

Lemma load_csv_step_complete st row :
  load_csv_step st row =
  let '(data, id_to_queries, id_to_answer) := st in
  if complete (stripped row)
  then (data ++ [stripped row],
        Dict.set (r_id (stripped row))
          (default [] (Dict.get id_to_queries (r_id (stripped row)))
           ++ [r_query (stripped row)]) id_to_queries,
        if Dict.mem id_to_answer (r_id (stripped row)) then id_to_answer
        else Dict.set (r_id (stripped row)) (r_answer (stripped row))
               id_to_answer)
  else st.
Proof. destruct st as [[d q] a]. reflexivity. Qed.

(** What the three fields hold after any number of rows. *)
Lemma loaded_invariant rows :
  let '(data, id_to_queries, id_to_answer) := loaded rows in
  data = kept_rows rows /\
  (forall g, Dict.get id_to_queries g =
             if is_nil (group_of g data) then None
             else Some (map r_query (group_of g data))) /\
  (forall g, Dict.get id_to_answer g =
             r_answer <$> head (group_of g data)) /\
  Dict.keys id_to_queries = Dict.keys id_to_answer /\
  List.NoDup (Dict.keys id_to_queries).
Proof.
  induction rows as [|row rows IH] using rev_ind.
  - cbn. repeat split; auto. constructor.
  - rewrite loaded_snoc, load_csv_step_complete.
    destruct (loaded rows) as [[d q] a].
    destruct IH as (Hd & Hq & Ha & Hk & Hnd).
    rewrite kept_rows_snoc.
    destruct (complete (stripped row)) eqn:Hc;
      [| rewrite app_nil_r; repeat split; auto].
    set (it := stripped row) in *.
    assert (Hmem : Dict.mem q (r_id it) = Dict.mem a (r_id it)).
    { unfold Dict.mem. rewrite Hq, Ha.
      destruct (group_of (r_id it) d); reflexivity. }
    split; [now rewrite Hd |]. split; [| split; [| split]].
    + intros g. rewrite group_of_snoc.
      destruct (String.eqb_spec (r_id it) g) as [<- | Hne].
      * rewrite dict_get_set_eq, Hq.
        destruct (group_of (r_id it) d) as [|x l] eqn:Eg; cbn [is_nil].
        -- reflexivity.
        -- cbn [default]. unfold id. rewrite map_app.
           destruct (map r_query (x :: l) ++ map r_query [it]) eqn:E2;
             [destruct (map r_query (x :: l)); discriminate |].
           cbn [app is_nil]. rewrite <- E2. reflexivity.
      * rewrite dict_get_set_ne by exact Hne. rewrite app_nil_r. apply Hq.
    + intros g. rewrite group_of_snoc.
      destruct (Dict.mem a (r_id it)) eqn:Em.
      * rewrite Ha. unfold Dict.mem in Em. rewrite Ha in Em.
        destruct (String.eqb_spec (r_id it) g) as [<- | Hne];
          [| now rewrite app_nil_r].
        destruct (group_of (r_id it) d); [discriminate | reflexivity].
      * unfold Dict.mem in Em. rewrite Ha in Em.
        destruct (String.eqb_spec (r_id it) g) as [<- | Hne].
        -- rewrite dict_get_set_eq.
           destruct (group_of (r_id it) d); [reflexivity | discriminate].
        -- rewrite dict_get_set_ne by exact Hne. rewrite app_nil_r. apply Ha.
    + rewrite dict_keys_set, Hmem.
      destruct (Dict.mem a (r_id it)) eqn:Em; [exact Hk |].
      rewrite dict_keys_set, Em. now rewrite Hk.
    + now apply dict_keys_set_NoDup.
Qed.

Lemma load_csv_fields rows p :
  (data (load_csv rows p), id_to_queries (load_csv rows p),
   id_to_answer (load_csv rows p)) = loaded rows /\
  id_to_tag (load_csv rows p) = id_to_tag p.
Proof.
  unfold load_csv. fold (loaded rows).
  destruct (loaded rows) as [[d q] a]. split; reflexivity.
Qed.

(** [load_csv] keeps, stripped and in order, the rows without an empty
    cell; it groups their queries by id in order, takes as the answer of
    a group that of its first row, and gives both dictionaries the same
    keys in the same order, each once.  The tags of an earlier load stay
    in the processor. *)
Theorem load_csv_groups_the_complete_rows (rows : list irow) (p : processor) :
  let p' := load_csv rows p in
  data p' = kept_rows rows /\
  (forall g, Dict.get (id_to_queries p') g =
             if is_nil (group_of g (kept_rows rows)) then None
             else Some (map r_query (group_of g (kept_rows rows)))) /\
  (forall g, Dict.get (id_to_answer p') g =
             r_answer <$> head (group_of g (kept_rows rows))) /\
  Dict.keys (id_to_queries p') = Dict.keys (id_to_answer p') /\
  List.NoDup (Dict.keys (id_to_queries p')) /\
  id_to_tag p' = id_to_tag p.
Proof.
  cbn zeta. destruct (load_csv_fields rows p) as [Hf Ht].
  pose proof (loaded_invariant rows) as Hinv. rewrite <- Hf in Hinv.
  destruct Hinv as (Hd & Hq & Ha & Hk & Hnd).
  split; [exact Hd |]. rewrite <- Hd. repeat split; auto.
Qed.

Example load_csv_example :
  let p := load_csv two_group_rows new_processor in
  data p =
    [{| r_query := "How to vote?"; r_answer := "You can"; r_id := "1" |};
     {| r_query := "Voting process?"; r_answer := "You can"; r_id := "1" |};
     {| r_query := "Get NID card"; r_answer := "Apply at"; r_id := "2" |}] /\
  id_to_queries p =
    [("1", ["How to vote?"; "Voting process?"]); ("2", ["Get NID card"])] /\
  id_to_answer p = [("1", "You can"); ("2", "Apply at")].
Proof. repeat split. Qed.

(** ** Cleaning a tag *)

Lemma chars_lstrip_where p s c :
  In c (chars (Py.lstrip_where p s)) -> In c (chars s).
Proof.
  unfold chars. induction s as [|a s IH]; cbn [Py.lstrip_where]; [tauto |].
  destruct (p a); [| tauto]. cbn [list_ascii_of_string In]. auto.
Qed.

Lemma chars_rstrip_where p s c :
  In c (chars (Py.rstrip_where p s)) -> In c (chars s).
Proof.
  unfold chars. induction s as [|a s IH]; cbn [Py.rstrip_where]; [tauto |].
  destruct (Py.rstrip_where p s) as [|b r].
  - destruct (p a); cbn [list_ascii_of_string In]; tauto.
  - cbn [list_ascii_of_string In] in *. tauto.
Qed.

Lemma chars_keep_chars keep s c :
  In c (chars (PyText.keep_chars keep s)) <-> In c (chars s) /\ keep c = true.
Proof.
  unfold chars. induction s as [|a s IH]; cbn [PyText.keep_chars].
  - cbn. tauto.
  - destruct (keep a) eqn:E; cbn [list_ascii_of_string In]; rewrite IH.
    + split; [intros [<- | [H1 H2]]; auto | intros [[<- | H1] H2]; auto].
    + split; [tauto |]. intros [[<- | H1] H2]; [congruence | auto].
Qed.

Lemma chars_replace_char old new s c :
  In c (chars (PyText.replace_char old new s)) ->
  c = new \/ (In c (chars s) /\ c <> old).
Proof.
  unfold chars. induction s as [|a s IH]; cbn [PyText.replace_char];
    cbn [list_ascii_of_string In]; [tauto |].
  intros [H | H].
  - destruct (Ascii.eqb_spec a old); [now left | right]. subst. auto.
  - destruct (IH H) as [-> | [H1 H2]]; auto.
Qed.

Lemma chars_lower s c :
  In c (chars (Py.lower s)) -> exists a, In a (chars s) /\ c = Py.lower_char a.
Proof.
  unfold chars. induction s as [|a s IH]; cbn [Py.lower];
    cbn [list_ascii_of_string In]; [tauto |].
  intros [<- | H]; [eauto |]. destruct (IH H) as (b & Hb & ->). eauto.
Qed.

Lemma lower_char_idempotent a :
  Py.lower_char (Py.lower_char a) = Py.lower_char a.
Proof.
  destruct a as [[] [] [] [] [] [] [] []]; vm_compute; reflexivity.
Qed.

Lemma lstrip_where_fixpoint p s :
  match s with String a _ => p a = false | EmptyString => True end ->
  Py.lstrip_where p s = s.
Proof. destruct s as [|a s]; cbn; [reflexivity | now intros ->]. Qed.

Lemma lstrip_where_head p s :
  match Py.lstrip_where p s with
  | String a _ => p a = false
  | EmptyString => True
  end.
Proof.
  induction s as [|a s IH]; cbn [Py.lstrip_where]; [exact I |].
  destruct (p a) eqn:E; [exact IH | exact E].
Qed.

Lemma rstrip_where_head p s :
  match s with String a _ => p a = false | EmptyString => True end ->
  match Py.rstrip_where p s with
  | String a _ => p a = false
  | EmptyString => True
  end.
Proof.
  destruct s as [|a s]; cbn [Py.rstrip_where]; [auto |]. intros Ha.
  destruct (Py.rstrip_where p s); [rewrite Ha |]; exact Ha.
Qed.

Lemma rstrip_where_cons p a s :
  Py.rstrip_where p (String a s) =
  match Py.rstrip_where p s with
  | EmptyString => if p a then EmptyString else String a EmptyString
  | r => String a r
  end.
Proof. reflexivity. Qed.

Lemma rstrip_where_idempotent p s :
  Py.rstrip_where p (Py.rstrip_where p s) = Py.rstrip_where p s.
Proof.
  induction s as [|a s IH]; [reflexivity |].
  rewrite (rstrip_where_cons p a s).
  destruct (Py.rstrip_where p s) as [|b r] eqn:E.
  - destruct (p a) eqn:Ea; [reflexivity |].
    rewrite rstrip_where_cons. cbn [Py.rstrip_where]. now rewrite Ea.
  - rewrite rstrip_where_cons, IH. reflexivity.
Qed.

(** Stripping twice is stripping once, for any set of characters. *)
Lemma strip_where_idempotent p s :
  Py.rstrip_where p (Py.lstrip_where p
    (Py.rstrip_where p (Py.lstrip_where p s))) =
  Py.rstrip_where p (Py.lstrip_where p s).
Proof.
  rewrite (lstrip_where_fixpoint p (Py.rstrip_where p (Py.lstrip_where p s))).
  - apply rstrip_where_idempotent.
  - apply rstrip_where_head, lstrip_where_head.
Qed.

(** The cleaned tag is made of alphanumeric characters and underscores
    only, holds no upper-case letter, and neither starts nor ends with an
    underscore. *)
Theorem clean_tag_is_a_lower_case_identifier (content : string) :
  (forall c, In c (chars (clean_tag content)) ->
     (PyText.isalnum c || Ascii.eqb c "_") = true /\ Py.lower_char c = c) /\
  PyText.strip_chars "_" (clean_tag content) = clean_tag content.
Proof.
  split.
  - intros c Hc. unfold clean_tag, PyText.strip_chars in Hc.
    apply chars_rstrip_where, chars_lstrip_where in Hc.
    apply chars_keep_chars in Hc as [Hc Hkeep]. split; [exact Hkeep |].
    apply chars_replace_char in Hc as [-> | [Hc _]]; [reflexivity |].
    apply chars_replace_char in Hc as [-> | [Hc _]]; [reflexivity |].
    apply chars_lower in Hc as (a & _ & ->). apply lower_char_idempotent.
  - unfold clean_tag, PyText.strip_chars. apply strip_where_idempotent.
Qed.

Lemma append_nonempty s1 s2 : s1 <> EmptyString -> s1 +:+ s2 <> EmptyString.
Proof. destruct s1; [congruence | discriminate]. Qed.

(** Whatever the service returns, also on an exception, the tag of a
    group is not empty: it is the cleaned text, or [tag_] followed by the
    group id when the call fails or nothing is left of the text. *)
Theorem generated_tag_is_never_empty
    (service : nat -> tag_prompt -> response) (call : nat)
    (group_id : string) (queries : list string) (answer : string) :
  let tag := generate_tag_for_group service call group_id queries answer in
  tag <> EmptyString /\
  (tag = "tag_" +:+ group_id \/
   exists content, tag = clean_tag content /\
     service call
       {| tp_queries := firstn 5 queries;
          tp_answer :=
            PyText.prefix_of 500 answer
            +:+ (if (500 <? String.length answer)%nat then "..." else "") |}
     = Output content).
Proof.
  cbn zeta. unfold generate_tag_for_group.
  destruct (service call _) as [|content] eqn:E.
  - split; [now apply append_nonempty | now left].
  - destruct (clean_tag content) as [|a s] eqn:Ec; cbn [Py.is_empty].
    + split; [now apply append_nonempty | now left].
    + split; [discriminate |]. right. exists content. now rewrite Ec.
Qed.

Example clean_tag_examples :
  map clean_tag [" Voter Registration-Process "; "__NID card!__"; "!!!"] =
  ["voter_registration_process"; "nid_card"; ""].
Proof. reflexivity. Qed.

(** ** Making the tags unique *)

Lemma length_append s1 s2 :
  String.length (s1 +:+ s2) = (String.length s1 + String.length s2)%nat.
Proof.
  induction s1 as [|a s1 IH]; [reflexivity |].
  change (String a s1 +:+ s2) with (String a (s1 +:+ s2)).
  cbn [String.length]. now rewrite IH.
Qed.

Lemma append_inj_l s a b : s +:+ a = s +:+ b -> a = b.
Proof.
  induction s as [|c s IH]; [auto |].
  change (String c s +:+ a) with (String c (s +:+ a)).
  change (String c s +:+ b) with (String c (s +:+ b)).
  intros [= H]. now apply IH.
Qed.

Lemma str_inj n m : PyText.str n = PyText.str m -> n = m.
Proof.
  unfold PyText.str. intros H.
  apply (f_equal DecimalString.NilEmpty.uint_of_string) in H.
  rewrite !DecimalString.NilEmpty.usu in H. injection H as H.
  now apply DecimalNat.Unsigned.to_uint_inj.
Qed.

Lemma numbered_inj original_tag n m :
  numbered original_tag n = numbered original_tag m -> n = m.
Proof.
  unfold numbered. intros H. apply append_inj_l in H.
  apply (append_inj_l "_") in H. now apply str_inj.
Qed.

Lemma numbered_longer original_tag n :
  (String.length original_tag < String.length (numbered original_tag n))%nat.
Proof. unfold numbered. rewrite !length_append. cbn. lia. Qed.

Lemma numbered_neq_original original_tag n :
  numbered original_tag n <> original_tag.
Proof.
  intros H. pose proof (numbered_longer original_tag n) as Hl.
  rewrite H in Hl. lia.
Qed.

Lemma numbered_nonempty original_tag n : numbered original_tag n <> EmptyString.
Proof.
  intros H. pose proof (numbered_longer original_tag n) as Hl.
  rewrite H in Hl. cbn in Hl. lia.
Qed.

(** If the loop stops on a used tag, every tag it tried was used. *)
Lemma next_free_exhausted fuel original_tag used_tags : forall tag counter,
  next_free fuel original_tag tag counter used_tags ∈ used_tags ->
  tag ∈ used_tags /\
  forall j, (j < fuel)%nat -> numbered original_tag (counter + j) ∈ used_tags.
Proof.
  induction fuel as [|fuel IH]; intros tag counter; cbn [next_free].
  - destruct (decide (tag ∈ used_tags)); [| contradiction].
    intros _. split; [assumption | intros j Hj; lia].
  - destruct (decide (tag ∈ used_tags)) as [Hin | Hnot]; [| contradiction].
    intros H. apply IH in H as [H0 Hrest]. split; [exact Hin |].
    intros [|j] Hj.
    + now rewrite Nat.add_0_r.
    + replace (counter + S j)%nat with (S counter + j)%nat by lia.
      apply Hrest. lia.
Qed.

(** The result of the loop is the tag it was given or a numbered one. *)
Lemma next_free_shape fuel original_tag used_tags : forall tag counter,
  next_free fuel original_tag tag counter used_tags = tag \/
  exists k, next_free fuel original_tag tag counter used_tags
            = numbered original_tag k.
Proof.
  induction fuel as [|fuel IH]; intros tag counter; cbn [next_free].
  - destruct (decide (tag ∈ used_tags)); now left.
  - destruct (decide (tag ∈ used_tags)); [| now left].
    right. destruct (IH (numbered original_tag counter) (S counter))
      as [-> | [k ->]]; eauto.
Qed.

(** With as many rounds as there are used tags, the loop ends on a tag
    that is not used. *)
Lemma next_free_is_fresh original_tag (used_tags : gset string) :
  next_free (size used_tags) original_tag original_tag 1 used_tags
    ∉ used_tags.
Proof.
  intros Hin. apply next_free_exhausted in Hin as [H0 Hrest].
  set (tried := original_tag
                :: map (fun j => numbered original_tag (1 + j))
                     (seq 0 (size used_tags))).
  assert (Hnd : NoDup tried).
  { apply NoDup_cons. split.
    - intros H. apply list_elem_of_In, in_map_iff in H as (j & Hj & _).
      now apply numbered_neq_original in Hj.
    - apply NoDup_fmap_2; [| apply NoDup_ListNoDup, seq_NoDup].
      intros j j' H. apply numbered_inj in H. lia. }
  assert (Hsub : list_to_set tried ⊆ used_tags).
  { intros t Ht. apply elem_of_list_to_set in Ht.
    apply list_elem_of_In in Ht. destruct Ht as [<- | Ht]; [exact H0 |].
    apply in_map_iff in Ht as (j & <- & Hj). apply in_seq in Hj.
    apply Hrest. lia. }
  apply subseteq_size in Hsub.
  rewrite size_list_to_set in Hsub by exact Hnd.
  unfold tried in Hsub. cbn [List.length] in Hsub.
  rewrite length_map, length_seq in Hsub. lia.
Qed.

(** ** Tagging the groups *)

Lemma dict_set_absent {V} (d : list (string * V)) k v :
  ~ In k (Dict.keys d) -> Dict.set k v d = d ++ [(k, v)].
Proof.
  unfold Dict.keys. induction d as [|[k' v'] d IH]; cbn [Dict.set map fst In];
    intros H; [reflexivity |].
  destruct (String.eqb_spec k' k) as [-> | Hne]; [tauto |].
  cbn [app]. rewrite IH by tauto. reflexivity.
Qed.

Lemma dict_get_of_key {V} (d : list (string * V)) k :
  In k (Dict.keys d) -> exists v, Dict.get d k = Some v.
Proof.
  intros H. apply dict_mem_keys in H. unfold Dict.mem in H.
  destruct (Dict.get d k); [eauto | discriminate].
Qed.

Lemma dict_key_of_get {V} (d : list (string * V)) k v :
  Dict.get d k = Some v -> In k (Dict.keys d).
Proof.
  intros H. apply dict_mem_keys. unfold Dict.mem. now rewrite H.
Qed.

Lemma generate_tag_nonempty service call group_id queries answer :
  generate_tag_for_group service call group_id queries answer <> EmptyString.
Proof.
  unfold generate_tag_for_group.
  destruct (service call _) as [|content]; [now apply append_nonempty |].
  destruct (clean_tag content) eqn:E; cbn [Py.is_empty];
    [now apply append_nonempty | discriminate].
Qed.

Section Tagging.

Variable service : nat -> tag_prompt -> response.
Variable p : processor.

Hypothesis same_keys : Dict.keys (id_to_queries p) = Dict.keys (id_to_answer p).

(** The first loop of [generate_tags] over groups not yet tagged. *)
Lemma assign_tags_loop gs : forall st,
  List.NoDup (Dict.keys (tg_tags st) ++ gs) ->
  (forall g, In g gs -> In g (Dict.keys (id_to_queries p))) ->
  tags_distinct st ->
  exists st',
    fold_left (assign_tag service p) gs (Returned st) = Returned st' /\
    Dict.keys (tg_tags st') = Dict.keys (tg_tags st) ++ gs /\
    tags_distinct st'.
Proof.
  induction gs as [|g gs IH]; intros st Hnd Hkeys Hst.
  - exists st. cbn. rewrite app_nil_r. auto.
  - cbn [fold_left assign_tag].
    destruct (dict_get_of_key (id_to_queries p) g) as [queries ->];
      [apply Hkeys; now left |].
    destruct (dict_get_of_key (id_to_answer p) g) as [answer ->];
      [rewrite <- same_keys; apply Hkeys; now left |].
    set (tag0 := generate_tag_for_group service (tg_index st) g queries answer).
    set (tag := next_free (size (tg_used st)) tag0 tag0 1 (tg_used st)).
    assert (Hg : ~ In g (Dict.keys (tg_tags st))).
    { intros Hin. apply NoDup_ListNoDup, NoDup_app in Hnd as (_ & Hd & _).
      apply (Hd g); [now apply list_elem_of_In |].
      apply list_elem_of_In. now left. }
    assert (Hfresh : tag ∉ tg_used st) by apply next_free_is_fresh.
    assert (Hne : tag <> EmptyString).
    { destruct (next_free_shape (size (tg_used st)) tag0 (tg_used st) tag0 1)
        as [H | [k H]]; fold tag in H; rewrite H.
      - apply generate_tag_nonempty.
      - apply numbered_nonempty. }
    destruct Hst as (H1 & H2 & H3).
    destruct (IH {| tg_index := S (tg_index st);
                    tg_used := {[tag]} ∪ tg_used st;
                    tg_tags := Dict.set g tag (tg_tags st) |})
      as (st' & Hfold & Hk & Hd').
    + cbn [tg_tags]. rewrite dict_set_absent by exact Hg.
      unfold Dict.keys in *. rewrite map_app. cbn [map fst].
      rewrite <- app_assoc. exact Hnd.
    + intros g' Hg'. apply Hkeys. now right.
    + unfold tags_distinct. cbn [tg_tags tg_used].
      rewrite dict_set_absent by exact Hg. rewrite map_app. cbn [map snd].
      split; [| split].
      * apply NoDup_ListNoDup, NoDup_app. repeat split.
        -- now apply NoDup_ListNoDup.
        -- intros t Ht Ht'. apply list_elem_of_In in Ht.
           apply list_elem_of_In in Ht'. destruct Ht' as [<- | []].
           apply Hfresh. now apply H2.
        -- apply NoDup_ListNoDup. constructor; [intros [] | constructor].
      * intros t Ht. apply in_app_or in Ht as [Ht | [<- | []]].
        -- apply elem_of_union. right. now apply H2.
        -- apply elem_of_union. left. now apply elem_of_singleton.
      * apply Forall_app. split; [exact H3 |]. now constructor.
    + exists st'. split; [exact Hfold |]. split; [| exact Hd'].
      rewrite Hk. cbn [tg_tags]. rewrite dict_set_absent by exact Hg.
      unfold Dict.keys. rewrite map_app. cbn [map fst].
      now rewrite <- app_assoc.
Qed.

End Tagging.

(** The loop that fills [query_tags] holds, for a query, the tag of the
    group of the last entry with this query. *)
Lemma fill_query_tags_loop id_to_tag items :
  (forall item, In item items -> In (r_id item) (Dict.keys id_to_tag)) ->
  exists query_tags,
    fold_left (fill_query_tags id_to_tag) items (Returned []) =
      Returned query_tags /\
    forall q, Dict.get query_tags q =
              tag_of id_to_tag
                <$> last (List.filter
                            (fun item => String.eqb (r_query item) q) items).
Proof.
  induction items as [|item items IH] using rev_ind; intros Hids.
  - exists []. split; reflexivity.
  - destruct IH as (qt & Hfold & Hget).
    { intros it Hit. apply Hids, in_or_app. now left. }
    rewrite fold_left_app, Hfold. cbn [fold_left fill_query_tags].
    destruct (dict_get_of_key id_to_tag (r_id item)) as [tag Htag].
    { apply Hids, in_or_app. right. now left. }
    rewrite Htag. eexists. split; [reflexivity |].
    intros q. rewrite List.filter_app. cbn [List.filter].
    destruct (String.eqb_spec (r_query item) q) as [<- | Hne].
    + rewrite dict_get_set_eq, last_snoc. cbn. unfold tag_of.
      now rewrite Htag.
    + rewrite dict_get_set_ne by exact Hne. rewrite app_nil_r. apply Hget.
Qed.

(** With pairwise different tags the loop that fills [tag_answer] adds
    one entry per group, in the order of the groups. *)
Lemma fill_tag_answer_loop id_to_answer tags :
  List.NoDup (map snd tags) ->
  (forall g, In g (Dict.keys tags) -> In g (Dict.keys id_to_answer)) ->
  fold_left (fill_tag_answer id_to_answer) tags (Returned []) =
  Returned (map (fun entry =>
                   (snd entry, default "" (Dict.get id_to_answer (fst entry))))
              tags).
Proof.
  induction tags as [|[g t] tags IH] using rev_ind; intros Hnd Hkeys;
    [reflexivity |].
  rewrite map_app in Hnd. apply NoDup_ListNoDup, NoDup_app in Hnd
    as (Hnd & Hdisj & _).
  rewrite fold_left_app, IH.
  - cbn [fold_left fill_tag_answer fst snd].
    destruct (dict_get_of_key id_to_answer g) as [answer Ha].
    { apply Hkeys. unfold Dict.keys. rewrite map_app. apply in_or_app.
      right. now left. }
    rewrite Ha, map_app. cbn [map fst snd]. rewrite Ha. cbn [default].
    rewrite dict_set_absent; [reflexivity |].
    unfold Dict.keys. rewrite map_map. cbn [fst]. intros Hin.
    apply (Hdisj t); apply list_elem_of_In; [exact Hin | now left].
  - now apply NoDup_ListNoDup.
  - intros g' Hg'. apply Hkeys. unfold Dict.keys in *. rewrite map_app.
    apply in_or_app. now left.
Qed.

Lemma load_csv_ready rows : ready (load_csv rows new_processor).
Proof.
  destruct (load_csv_fields rows new_processor) as [Hf Ht].
  pose proof (loaded_invariant rows) as Hinv. rewrite <- Hf in Hinv.
  destruct Hinv as (Hd & Hq & Ha & Hk & Hnd).
  split; [exact Ht |]. split; [exact Hnd |]. split; [exact Hk |].
  intros item Hitem. apply (dict_key_of_get _ _
    (map r_query (group_of (r_id item) (data (load_csv rows new_processor))))).
  rewrite Hq.
  destruct (group_of (r_id item) (data (load_csv rows new_processor)))
    as [|x l] eqn:E; [| reflexivity].
  assert (Hin : In item (group_of (r_id item)
                           (data (load_csv rows new_processor)))).
  { unfold group_of. apply filter_In. split; [exact Hitem |].
    apply String.eqb_refl. }
  rewrite E in Hin. destruct Hin.
Qed.

(** Tagging a ready processor with data succeeds. *)
Lemma generate_tags_ready service p :
  ready p -> data p <> [] ->
  exists p',
    generate_tags service p = Returned p' /\
    data p' = data p /\
    id_to_answer p' = id_to_answer p /\
    Dict.keys (id_to_tag p') = Dict.keys (id_to_queries p) /\
    List.NoDup (map snd (id_to_tag p')) /\
    Forall (fun t => t <> EmptyString) (map snd (id_to_tag p')) /\
    tag_answer p' =
      map (fun entry =>
             (snd entry, default "" (Dict.get (id_to_answer p) (fst entry))))
        (id_to_tag p') /\
    forall q, Dict.get (query_tags p') q =
              tag_of (id_to_tag p')
                <$> last (List.filter
                            (fun item => String.eqb (r_query item) q)
                            (data p)).
Proof.
  intros (Htag & Hnd & Hk & Hids) Hdata. unfold generate_tags.
  destruct (data p) as [|item0 items] eqn:Ed; [congruence |]. cbn [is_nil].
  rewrite <- Ed in *. clear Ed item0 items. rewrite Htag.
  destruct (assign_tags_loop service p Hk (Dict.keys (id_to_queries p))
              {| tg_index := 0; tg_used := ∅; tg_tags := [] |})
    as (st & -> & Hkeys & Hdist1 & Hdist2 & Hdist3).
  { exact Hnd. }
  { auto. }
  { split; [constructor |]. split; [intros t [] | constructor]. }
  cbn [tg_tags Dict.keys map app] in Hkeys.
  destruct (fill_query_tags_loop (tg_tags st) (data p)) as (qt & -> & Hqt).
  { intros item Hitem. unfold Dict.keys in *. rewrite Hkeys. now apply Hids. }
  rewrite fill_tag_answer_loop.
  - eexists. split; [reflexivity |]. cbn. repeat split; auto.
  - exact Hdist1.
  - intros g Hg. unfold Dict.keys in *. rewrite <- Hk, <- Hkeys. exact Hg.
Qed.

(** After [load_csv] on a new processor with at least one complete row,
    [generate_tags] raises nothing; it tags the groups in the order of
    their first rows, gives pairwise different, non-empty tags to
    different groups, records for every tag the answer of its group, and
    maps a query to the tag of the group of the last entry with this
    query text. *)
Theorem tagging_gives_each_group_its_own_tag
    (service : nat -> tag_prompt -> response) (rows : list irow) :
  kept_rows rows <> [] ->
  let p := load_csv rows new_processor in
  exists p',
    generate_tags service p = Returned p' /\
    data p' = kept_rows rows /\
    Dict.keys (id_to_tag p') = Dict.keys (id_to_queries p) /\
    List.NoDup (map snd (id_to_tag p')) /\
    Forall (fun t => t <> EmptyString) (map snd (id_to_tag p')) /\
    tag_answer p' =
      map (fun entry =>
             (snd entry, default "" (Dict.get (id_to_answer p) (fst entry))))
        (id_to_tag p') /\
    forall q, Dict.get (query_tags p') q =
              tag_of (id_to_tag p')
                <$> last (List.filter
                            (fun item => String.eqb (r_query item) q)
                            (kept_rows rows)).
Proof.
  intros Hkept p. subst p.
  destruct (load_csv_fields rows new_processor) as [Hf _].
  pose proof (loaded_invariant rows) as Hinv. rewrite <- Hf in Hinv.
  destruct Hinv as (Hd & _).
  destruct (generate_tags_ready service (load_csv rows new_processor))
    as (p' & Hrun & H1 & H2 & H3 & H4 & H5 & H6 & H7).
  - apply load_csv_ready.
  - now rewrite Hd.
  - exists p'. rewrite <- Hd. repeat split; auto.
Qed.

Lemma tagging_gives_each_group_its_own_tag_witness :
  kept_rows two_group_rows <> [] /\
  exists p',
    generate_tags same_tag_service (load_csv two_group_rows new_processor)
      = Returned p' /\
    id_to_tag p' = [("1", "voter_help"); ("2", "voter_help_1")] /\
    List.NoDup (map snd (id_to_tag p')).
Proof.
  assert (H : kept_rows two_group_rows <> []) by (vm_compute; discriminate).
  split; [exact H |].
  destruct (tagging_gives_each_group_its_own_tag same_tag_service
              two_group_rows H) as (p' & Hrun & _ & _ & Hnd & _).
  exists p'. split; [exact Hrun |]. split; [| exact Hnd].
  assert (Hc : generate_tags same_tag_service
                 (load_csv two_group_rows new_processor) =
               Returned
                 {| data := kept_rows two_group_rows;
                    id_to_queries :=
                      [("1", ["How to vote?"; "Voting process?"]);
                       ("2", ["Get NID card"])];
                    id_to_answer := [("1", "You can"); ("2", "Apply at")];
                    id_to_tag := [("1", "voter_help"); ("2", "voter_help_1")];
                    query_tags :=
                      [("How to vote?", "voter_help");
                       ("Voting process?", "voter_help");
                       ("Get NID card", "voter_help_1")];
                    tag_answer :=
                      [("voter_help", "You can");
                       ("voter_help_1", "Apply at")] |})
    by (vm_compute; reflexivity).
  rewrite Hc in Hrun. injection Hrun as <-. reflexivity.
Defined.

(** On a new processor [generate_tags] raises an exception exactly when
    the loaded file has no complete row, and the exception is then the
    [RuntimeError] about missing data: no [KeyError] can occur. *)
Theorem tagging_fails_only_without_data
    (service : nat -> tag_prompt -> response) (rows : list irow) :
  (kept_rows rows = [] ->
   generate_tags service (load_csv rows new_processor) =
   Raised (RuntimeError "No data loaded. Call load_csv() first.")) /\
  (forall e, generate_tags service (load_csv rows new_processor) = Raised e ->
             kept_rows rows = []).
Proof.
  destruct (load_csv_fields rows new_processor) as [Hf _].
  pose proof (loaded_invariant rows) as Hinv. rewrite <- Hf in Hinv.
  destruct Hinv as (Hd & _). split.
  - intros Hnil. unfold generate_tags. rewrite Hd, Hnil. reflexivity.
  - intros e He. destruct (kept_rows rows) as [|x l] eqn:E; [reflexivity |].
    destruct (generate_tags_ready service (load_csv rows new_processor))
      as (p' & Hrun & _).
    + apply load_csv_ready.
    + rewrite Hd. discriminate.
    + rewrite Hrun in He. discriminate.
Qed.

(** ** Writing the two files *)

Lemma queries_tags_rows_loop id_to_tag items : forall rows,
  (forall item, In item items -> In (r_id item) (Dict.keys id_to_tag)) ->
  fold_left (queries_tags_rows id_to_tag) items (Returned rows) =
  Returned (rows ++ map (fun item => [r_query item; tag_of id_to_tag item])
                      items).
Proof.
  induction items as [|item items IH]; intros rows Hids; cbn [fold_left map].
  - now rewrite app_nil_r.
  - cbn [queries_tags_rows].
    destruct (dict_get_of_key id_to_tag (r_id item)) as [tag Htag];
      [apply Hids; now left |].
    rewrite Htag, IH by (intros it Hit; apply Hids; now right).
    unfold tag_of at 2. rewrite Htag. cbn [default].
    now rewrite <- app_assoc.
Qed.

(** After loading and tagging, [split_to_csv_files] raises nothing:
    [queries_tags.csv] gets the header [query, tag] and one row per kept
    entry, in order, with the tag of the entry's group, so that entries
    of one group carry one tag; [tags_answers.csv] gets the header
    [tag, answer] and one row per group with the group's answer. *)
Theorem split_writes_one_row_per_entry_and_per_group
    (service : nat -> tag_prompt -> response) (rows : list irow) :
  kept_rows rows <> [] ->
  let p := load_csv rows new_processor in
  exists p' queries_tags tags_answers,
    generate_tags service p = Returned p' /\
    split_to_csv_files p' = Returned (queries_tags, tags_answers) /\
    queries_tags =
      ["query"; "tag"]
        :: map (fun item => [r_query item; tag_of (id_to_tag p') item])
             (kept_rows rows) /\
    (forall item, In item (kept_rows rows) ->
       Dict.get (id_to_tag p') (r_id item)
         = Some (tag_of (id_to_tag p') item)) /\
    tags_answers =
      ["tag"; "answer"]
        :: map (fun entry =>
                  [snd entry;
                   default "" (Dict.get (id_to_answer p) (fst entry))])
             (id_to_tag p').
Proof.
  intros Hkept p. subst p.
  destruct (load_csv_fields rows new_processor) as [Hf _].
  pose proof (loaded_invariant rows) as Hinv. rewrite <- Hf in Hinv.
  destruct Hinv as (Hd & _).
  pose proof (load_csv_ready rows) as Hready.
  destruct (generate_tags_ready service (load_csv rows new_processor))
    as (p' & Hrun & H1 & H2 & H3 & H4 & H5 & H6 & H7);
    [exact Hready | now rewrite Hd |].
  destruct Hready as (_ & _ & _ & Hids).
  assert (Hids' : forall item, In item (data p') ->
                    In (r_id item) (Dict.keys (id_to_tag p'))).
  { intros item Hitem. rewrite H3. apply Hids. now rewrite <- H1. }
  exists p'. eexists. eexists. split; [exact Hrun |].
  unfold split_to_csv_files.
  destruct (id_to_tag p') as [|e tags] eqn:Et.
  { exfalso. destruct (kept_rows rows) as [|x l] eqn:E; [congruence |].
    rewrite H1, Hd in Hids'. destruct (Hids' x). now left. }
  cbn [is_nil]. rewrite <- Et in *.
  rewrite queries_tags_rows_loop by exact Hids'.
  split; [reflexivity |]. rewrite H1, Hd. cbn [app].
  split; [reflexivity |]. split.
  - intros item Hitem. rewrite <- Hd, <- H1 in Hitem.
    destruct (dict_get_of_key _ _ (Hids' item Hitem)) as [t Ht].
    unfold tag_of. now rewrite Ht.
  - rewrite H6, map_map. reflexivity.
Qed.

Lemma split_writes_one_row_per_entry_and_per_group_witness :
  kept_rows two_group_rows <> [] /\
  exists p' queries_tags tags_answers,
    generate_tags same_tag_service (load_csv two_group_rows new_processor)
      = Returned p' /\
    split_to_csv_files p' = Returned (queries_tags, tags_answers) /\
    queries_tags =
      ["query"; "tag"]
        :: map (fun item => [r_query item; tag_of (id_to_tag p') item])
             (kept_rows two_group_rows).
Proof.
  assert (H : kept_rows two_group_rows <> []) by (vm_compute; discriminate).
  split; [exact H |].
  destruct (split_writes_one_row_per_entry_and_per_group same_tag_service
              two_group_rows H) as (p' & qt & ta & H1 & H2 & H3 & _).
  exists p', qt, ta. auto.
Defined.

(* ===================================================================== *)
(** * Properties of the generation stage on files, and of the pipeline *)
(* ===================================================================== *)

Lemma load_example_rows_raised rows e :
  fold_left load_example_row rows (Raised e) = Raised e.
Proof. induction rows as [|row rows IH]; [reflexivity | exact IH]. Qed.

Lemma unique_tags_rows_raised rows e :
  fold_left unique_tags_row rows (Raised e) = Raised e.
Proof. induction rows as [|row rows IH]; [reflexivity | exact IH]. Qed.

Lemma load_answer_rows_raised rows e :
  fold_left load_answer_row rows (Raised e) = Raised e.
Proof. induction rows as [|row rows IH]; [reflexivity | exact IH]. Qed.

Lemma dict_rows_queries_tags pairs :
  dict_rows (queries_tags_file pairs) =
  map (fun qt => [("query", fst qt); ("tag", snd qt)]) pairs.
Proof.
  unfold queries_tags_file. cbn [dict_rows].
  induction pairs as [|qt pairs IH]; [reflexivity |].
  cbn [map List.filter is_nil negb]. now rewrite IH.
Qed.

Lemma dict_rows_examples_csv rows :
  dict_rows (examples_csv rows) =
  map (fun row => [("question", question row); ("tag", tag row)]) rows.
Proof.
  unfold examples_csv. cbn [dict_rows].
  induction rows as [|row rows IH]; [reflexivity |].
  cbn [map List.filter is_nil negb]. now rewrite IH.
Qed.

Lemma dict_rows_answers_csv rows :
  dict_rows (answers_csv rows) =
  map (fun row => [("tag", a_tag row); ("answer", a_answer row)]) rows.
Proof.
  unfold answers_csv. cbn [dict_rows].
  induction rows as [|row rows IH]; [reflexivity |].
  cbn [map List.filter is_nil negb]. now rewrite IH.
Qed.

Lemma load_queries_tags_fold pairs : forall m,
  fold_left load_example_row
    (map (fun qt => [("query", fst qt); ("tag", snd qt)]) pairs)
    (Returned m) =
  if forallb (fun qt => String.eqb (snd qt) "fraction") pairs
  then Returned m else Raised (KeyError "question").
Proof.
  induction pairs as [|[q t] pairs IH]; intros m; [reflexivity |].
  cbn [map fold_left forallb fst snd]. unfold load_example_row at 2.
  cbn [field Dict.get]. cbn.
  destruct (String.eqb t "fraction"); cbn [andb].
  - apply IH.
  - apply load_example_rows_raised.
Qed.

Lemma load_queries_tags_file pairs :
  load_example_questions_file (queries_tags_file pairs) =
  if forallb (fun qt => String.eqb (snd qt) "fraction") pairs
  then Returned ∅ else Raised (KeyError "question").
Proof.
  unfold load_example_questions_file.
  rewrite dict_rows_queries_tags. apply load_queries_tags_fold.
Qed.

(** On the file [split_to_csv_files] writes, whose columns are [query]
    and [tag], [load_example_questions] raises [KeyError: 'question'] as
    soon as one row carries a tag other than the excluded one; otherwise
    it returns an empty index. *)
Theorem examples_written_by_split_cannot_be_loaded
    (pairs : list (string * string)) :
  load_example_questions_file (queries_tags_file pairs) =
  if forallb (fun qt => String.eqb (snd qt) "fraction") pairs
  then Returned ∅ else Raised (KeyError "question").
Proof. apply load_queries_tags_file. Qed.

Lemma load_examples_csv_fold rows : forall m,
  fold_left load_example_row
    (map (fun row => [("question", question row); ("tag", tag row)]) rows)
    (Returned m) =
  Returned (fold_left load_example_step rows m).
Proof.
  induction rows as [|row rows IH]; intros m; [reflexivity |].
  cbn [map fold_left]. unfold load_example_row at 2, load_example_step at 2.
  cbn [field Dict.get]. cbn.
  destruct (String.eqb (tag row) "fraction"); [apply IH |].
  destruct (Py.is_empty (Py.strip (question row))); apply IH.
Qed.

Lemma unique_tags_csv_fold rows : forall s : gset string,
  fold_left unique_tags_row
    (map (fun row => [("question", question row); ("tag", tag row)]) rows)
    (Returned s) =
  Returned
    (fold_left
       (fun (acc : gset string) row =>
          let tag := Py.strip (tag row) in
          if negb (Py.is_empty tag) && negb (String.eqb tag "fraction")
          then {[tag]} ∪ acc else acc) rows s).
Proof.
  induction rows as [|row rows IH]; intros s; [reflexivity |].
  cbn [map fold_left]. unfold unique_tags_row at 2.
  cbn [field Dict.get]. cbn.
  destruct (negb (Py.is_empty (Py.strip (tag row)))
            && negb (String.eqb (Py.strip (tag row)) "fraction")); apply IH.
Qed.

Lemma load_answers_csv_fold rows : forall m : gmap string string,
  fold_left load_answer_row
    (map (fun row => [("tag", a_tag row); ("answer", a_answer row)]) rows)
    (Returned m) =
  Returned
    (fold_left (fun (m : gmap string string) row =>
                  <[a_tag row := a_answer row]> m) rows m).
Proof.
  induction rows as [|row rows IH]; intros m; [reflexivity |].
  cbn [map fold_left]. unfold load_answer_row at 2.
  cbn [field Dict.get]. cbn. apply IH.
Qed.

(** On an examples file with the columns [question] and [tag] and an
    answers file with the columns [tag] and [answer], no loader raises:
    the index, the work list and the answers are those of the rows, and
    the run on the files is the run on the rows. *)
Theorem files_with_the_expected_columns_load
    (service : nat -> prompt -> response)
    (sample : list string -> nat -> list string)
    (examples : list qrow) (answers : list arow)
    (test_mode : bool) (test_tag_count : Z) (w : world) :
  load_example_questions_file (examples_csv examples) =
    Returned (load_example_questions examples) /\
  get_unique_tags_from_file (examples_csv examples) =
    Returned (get_unique_tags_from_questions examples) /\
  load_answers_lookup_file (answers_csv answers) =
    Returned (load_answers_lookup answers) /\
  run_paraphrase_generation_files service sample true (examples_csv examples)
    (answers_csv answers) test_mode test_tag_count w =
  match run_paraphrase_generation service sample true examples answers
          test_mode test_tag_count w with
  | (Some c, w') => Returned (c, w')
  | (None, _) => Raised IndexError
  end.
Proof.
  assert (H1 : load_example_questions_file (examples_csv examples) =
               Returned (load_example_questions examples)).
  { unfold load_example_questions_file. rewrite dict_rows_examples_csv.
    apply load_examples_csv_fold. }
  assert (H2 : get_unique_tags_from_file (examples_csv examples) =
               Returned (get_unique_tags_from_questions examples)).
  { unfold get_unique_tags_from_file. rewrite dict_rows_examples_csv.
    now rewrite unique_tags_csv_fold. }
  assert (H3 : load_answers_lookup_file (answers_csv answers) =
               Returned (load_answers_lookup answers)).
  { unfold load_answers_lookup_file. rewrite dict_rows_answers_csv.
    apply load_answers_csv_fold. }
  split; [exact H1 |]. split; [exact H2 |]. split; [exact H3 |].
  unfold run_paraphrase_generation_files, run_paraphrase_generation.
  cbn [negb]. now rewrite H1, H2, H3.
Qed.



Example process_without_paraphrases :
  process same_tag_service (always Fault) take_sample true two_group_rows
    false false 0 fresh_world =
  Returned
    ([["query"; "tag"]; ["How to vote?"; "voter_help"];
      ["Voting process?"; "voter_help"]; ["Get NID card"; "voter_help_1"]],
     [["tag"; "answer"]; ["voter_help"; "You can"];
      ["voter_help_1"; "Apply at"]]).
Proof. vm_compute. reflexivity. Qed.

(** ** Entries of the parser *)

(** Every entry the parser returns is non-empty and has no whitespace at
    either end. *)
Theorem parsed_entries_are_trimmed (questions_text q : string) :
  In q (parse_questions questions_text) ->
  q <> EmptyString /\ Py.strip q = q.
Proof.
  intros Hq. split; [now apply parse_questions_nonempty in Hq |].
  rewrite parse_questions_lines in Hq. apply filter_In in Hq as [Hq _].
  apply in_map_iff in Hq as (line & <- & _).
  unfold clean_line, Py.strip. apply strip_where_idempotent.
Qed.

Lemma parsed_entries_are_trimmed_witness :
  In "who?" (parse_questions (lines ["1.  who?  "; "2) x"])) /\
  "who?" <> EmptyString /\ Py.strip "who?" = "who?".
Proof.
  assert (H : In "who?" (parse_questions (lines ["1.  who?  "; "2) x"])))
    by (vm_compute; left; reflexivity).
  split; [exact H |].
  exact (parsed_entries_are_trimmed (lines ["1.  who?  "; "2) x"]) "who?" H).
Defined.

(* ===================================================================== *)
(** * The text of an artifact: written by the writer, read by the reader *)
(* ===================================================================== *)

Lemma append_cons a s r : String a s +:+ r = String a (s +:+ r).
Proof. reflexivity. Qed.

Lemma append_assoc s1 s2 s3 : (s1 +:+ s2) +:+ s3 = s1 +:+ (s2 +:+ s3).
Proof.
  induction s1 as [|a s1 IH]; [reflexivity |].
  rewrite !append_cons. now rewrite IH.
Qed.

Lemma append_empty_r s : s +:+ EmptyString = s.
Proof.
  induction s as [|a s IH]; [reflexivity |].
  rewrite append_cons. now rewrite IH.
Qed.

(** ** The text layer *)

Lemma length_universal_newlines_from s : forall b,
  (String.length (Csv.universal_newlines_from b s) <= String.length s)%nat.
Proof.
  induction s as [|c s IH]; intros b; [reflexivity |].
  cbn [Csv.universal_newlines_from String.length].
  destruct (Ascii.eqb c Csv.CR); [cbn; specialize (IH true); lia |].
  destruct (Ascii.eqb c Csv.LF); [| cbn; specialize (IH false); lia].
  destruct b; cbn; specialize (IH false); lia.
Qed.

(** A text without carriage return is read as it is. *)
Lemma universal_newlines_without_cr s :
  Py.in_chars s Csv.CR = false -> Csv.universal_newlines s = s.
Proof.
  unfold Csv.universal_newlines.
  induction s as [|c s IH]; [reflexivity |].
  cbn [Py.in_chars Csv.universal_newlines_from].
  rewrite Ascii.eqb_sym. intros [Hc Hs]%orb_false_elim.
  rewrite Hc. rewrite (IH Hs). now destruct (Ascii.eqb_spec c Csv.LF) as [-> |].
Qed.

(** ** The reader on the fields the writer wrote *)

Section ReaderSteps.

Variables (flds : list string) (recs : list (list string)).

(** The characters of an unquoted field. *)
Lemma feed_unquoted s : forall fld next,
  Csv.needs_quotes s = false ->
  Z.of_nat (String.length fld + String.length s) <= Csv.field_limit ->
  Csv.feed (Csv.universal_newlines_from false (s +:+ next))
    {| Csv.state := Csv.IN_FIELD; Csv.field := fld; Csv.fields := flds;
       Csv.records := recs; Csv.in_line := true |} =
  Csv.feed (Csv.universal_newlines_from false next)
    {| Csv.state := Csv.IN_FIELD; Csv.field := fld +:+ s;
       Csv.fields := flds; Csv.records := recs; Csv.in_line := true |}.
Proof.
  induction s as [|c s IH]; intros fld next Hplain Hlen.
  - now rewrite append_empty_r.
  - cbn [Csv.needs_quotes] in Hplain.
    apply orb_false_elim in Hplain as [Hc Hs].
    unfold Csv.is_special in Hc.
    apply orb_false_elim in Hc as [Hc Hlf].
    apply orb_false_elim in Hc as [Hc Hcr].
    apply orb_false_elim in Hc as [Hcomma Hquote].
    rewrite append_cons. cbn [Csv.universal_newlines_from].
    rewrite Hcr, Hlf. cbn [Csv.feed].
    unfold Csv.feed_char, Csv.parse_process_char. cbn [Csv.state].
    unfold Csv.is_break, Csv.is_char. rewrite Hlf, Hcr, Hcomma.
    cbn [orb]. unfold Csv.parse_add_char. cbn [Csv.field].
    cbn [String.length] in Hlen.
    destruct (Z.leb_spec Csv.field_limit (Z.of_nat (String.length fld)));
      [lia |].
    cbn [Csv.state Csv.field Csv.fields Csv.records Csv.in_line].
    rewrite IH.
    + now rewrite append_assoc.
    + exact Hs.
    + rewrite length_append. cbn [String.length]. lia.
Qed.

(** The characters of a quoted field and its closing quote. *)
Lemma feed_quoted s : forall b fld il next,
  Z.of_nat (String.length fld
            + String.length (Csv.universal_newlines_from b s))
    <= Csv.field_limit ->
  Csv.feed (Csv.universal_newlines_from b
              (Csv.double_quotes s +:+ String Csv.QUOTE next))
    {| Csv.state := Csv.IN_QUOTED_FIELD; Csv.field := fld;
       Csv.fields := flds; Csv.records := recs; Csv.in_line := il |} =
  Csv.feed (Csv.universal_newlines_from false next)
    {| Csv.state := Csv.QUOTE_IN_QUOTED_FIELD;
       Csv.field := fld +:+ Csv.universal_newlines_from b s;
       Csv.fields := flds; Csv.records := recs; Csv.in_line := true |}.
Proof.
  induction s as [|c s IH]; intros b fld il next Hlen.
  - cbn [Csv.double_quotes Csv.universal_newlines_from]. rewrite append_empty_r.
    change (EmptyString +:+ String Csv.QUOTE next)
      with (String Csv.QUOTE next).
    cbn [Csv.universal_newlines_from].
    change (Ascii.eqb Csv.QUOTE Csv.CR) with false.
    change (Ascii.eqb Csv.QUOTE Csv.LF) with false.
    cbn [Csv.feed]. reflexivity.
  - cbn [Csv.double_quotes].
    destruct (Ascii.eqb_spec c Csv.QUOTE) as [-> | Hquote].
    + rewrite !append_cons. cbn [Csv.universal_newlines_from] in *.
      change (Ascii.eqb Csv.QUOTE Csv.CR) with false in *.
      change (Ascii.eqb Csv.QUOTE Csv.LF) with false in *.
      cbn [Csv.feed].
      unfold Csv.feed_char at 1, Csv.parse_process_char.
      cbn [Csv.state]. change (Ascii.eqb Csv.QUOTE Csv.QUOTE) with true.
      change (Ascii.eqb Csv.QUOTE Csv.LF) with false. cbn iota.
      cbn [Csv.set_state Csv.state Csv.field Csv.fields Csv.records
           Csv.in_line].
      unfold Csv.feed_char at 1, Csv.parse_process_char.
      cbn [Csv.state]. unfold Csv.is_char.
      change (Ascii.eqb Csv.QUOTE Csv.QUOTE) with true. cbn iota.
      unfold Csv.parse_add_char. cbn [Csv.field].
      cbn [String.length] in Hlen.
      destruct (Z.leb_spec Csv.field_limit (Z.of_nat (String.length fld)));
        [lia |].
      change (Ascii.eqb Csv.QUOTE Csv.LF) with false. cbn iota.
      cbn [Csv.set_state Csv.state Csv.field Csv.fields Csv.records
           Csv.in_line].
      rewrite IH.
      * now rewrite append_assoc.
      * rewrite length_append. cbn [String.length]. lia.
    + rewrite append_cons. cbn [Csv.universal_newlines_from] in *.
      apply Ascii.eqb_neq in Hquote.
      destruct (Ascii.eqb_spec c Csv.CR) as [-> | Hcr].
      * cbn [Csv.feed].
        unfold Csv.feed_char at 1, Csv.parse_process_char.
        cbn [Csv.state]. change (Ascii.eqb Csv.LF Csv.QUOTE) with false.
        cbn iota. unfold Csv.parse_add_char. cbn [Csv.field].
        cbn [String.length] in Hlen.
        destruct (Z.leb_spec Csv.field_limit (Z.of_nat (String.length fld)));
          [lia |].
        change (Ascii.eqb Csv.LF Csv.LF) with true. cbn iota.
        unfold Csv.end_of_line, Csv.parse_process_char. cbn [Csv.state].
        cbn [Csv.state Csv.field Csv.fields Csv.records Csv.in_line].
        rewrite IH.
        -- now rewrite append_assoc.
        -- rewrite length_append. cbn [String.length]. lia.
      * destruct (Ascii.eqb_spec c Csv.LF) as [-> | Hlf].
        -- destruct b.
           ++ apply IH. exact Hlen.
           ++ cbn [Csv.feed].
              unfold Csv.feed_char at 1, Csv.parse_process_char.
              cbn [Csv.state]. change (Ascii.eqb Csv.LF Csv.QUOTE) with false.
              cbn iota. unfold Csv.parse_add_char. cbn [Csv.field].
              cbn [String.length] in Hlen.
              destruct (Z.leb_spec Csv.field_limit
                          (Z.of_nat (String.length fld))); [lia |].
              change (Ascii.eqb Csv.LF Csv.LF) with true. cbn iota.
              unfold Csv.end_of_line, Csv.parse_process_char.
              cbn [Csv.state].
              cbn [Csv.state Csv.field Csv.fields Csv.records Csv.in_line].
              rewrite IH.
              ** now rewrite append_assoc.
              ** rewrite length_append. cbn [String.length]. lia.
        -- cbn [Csv.feed].
           unfold Csv.feed_char at 1, Csv.parse_process_char.
           cbn [Csv.state]. rewrite Hquote.
           unfold Csv.parse_add_char. cbn [Csv.field].
           cbn [String.length] in Hlen.
           destruct (Z.leb_spec Csv.field_limit
                       (Z.of_nat (String.length fld))); [lia |].
           apply Ascii.eqb_neq in Hlf. rewrite Hlf.
           cbn [Csv.state Csv.field Csv.fields Csv.records Csv.in_line].
           rewrite IH.
           ++ now rewrite append_assoc.
           ++ rewrite length_append. cbn [String.length]. lia.
Qed.

End ReaderSteps.

(** A field without special characters has no line break to translate. *)
Lemma universal_newlines_unquoted s : forall b,
  Csv.needs_quotes s = false -> Csv.universal_newlines_from b s = s.
Proof.
  induction s as [|c s IH]; intros b Hplain; [reflexivity |].
  cbn [Csv.needs_quotes] in Hplain.
  apply orb_false_elim in Hplain as [Hc Hs].
  unfold Csv.is_special in Hc.
  apply orb_false_elim in Hc as [Hc Hlf].
  apply orb_false_elim in Hc as [_ Hcr].
  cbn [Csv.universal_newlines_from]. rewrite Hcr, Hlf. now rewrite IH.
Qed.

Section ReaderFields.

Local Abbreviation rd s fld flds recs il :=
  {| Csv.state := s; Csv.field := fld; Csv.fields := flds;
     Csv.records := recs; Csv.in_line := il |}.

(** The text of one field, read from the start of a record or of a
    field: the reader holds the field as the text layer gives it and
    waits for a separator. *)
Lemma feed_field f s0 flds recs il next :
  s0 = Csv.START_RECORD \/ s0 = Csv.START_FIELD ->
  Z.of_nat (String.length (Csv.universal_newlines f)) <= Csv.field_limit ->
  exists s il',
    Csv.feed (Csv.universal_newlines_from false (Csv.write_field f +:+ next))
      (rd s0 EmptyString flds recs il) =
    Csv.feed (Csv.universal_newlines_from false next)
      (rd s (Csv.universal_newlines f) flds recs il') /\
    ((s = s0 /\ f = EmptyString /\ il' = il)
     \/ s = Csv.IN_FIELD \/ s = Csv.QUOTE_IN_QUOTED_FIELD).
Proof.
  intros Hs0 Hlen. unfold Csv.write_field, Csv.universal_newlines in *.
  destruct (Csv.needs_quotes f) eqn:Hq.
  - exists Csv.QUOTE_IN_QUOTED_FIELD, true. split; [| now right; right].
    unfold Csv.quoted. rewrite append_cons, append_assoc, append_cons.
    change (EmptyString +:+ next) with next.
    cbn [Csv.universal_newlines_from].
    change (Ascii.eqb Csv.QUOTE Csv.CR) with false.
    change (Ascii.eqb Csv.QUOTE Csv.LF) with false.
    cbn [Csv.feed].
    assert (Hopen :
      Csv.feed_char Csv.QUOTE (rd s0 EmptyString flds recs il) =
      Returned (rd Csv.IN_QUOTED_FIELD EmptyString flds recs true))
      by (destruct Hs0 as [-> | ->]; reflexivity).
    rewrite Hopen. rewrite feed_quoted; [reflexivity |].
    cbn [String.length]. lia.
  - rewrite (universal_newlines_unquoted f false Hq) in *.
    destruct f as [|c f].
    + exists s0, il. split; [reflexivity | now left].
    + exists Csv.IN_FIELD, true. split; [| now right; left].
      pose proof Hq as Hplain. cbn [Csv.needs_quotes] in Hq.
      apply orb_false_elim in Hq as [Hc Hf].
      unfold Csv.is_special in Hc.
      apply orb_false_elim in Hc as [Hc Hlf].
      apply orb_false_elim in Hc as [Hc Hcr].
      apply orb_false_elim in Hc as [Hcomma Hquote].
      rewrite append_cons. cbn [Csv.universal_newlines_from].
      rewrite Hcr, Hlf. cbn [Csv.feed].
      assert (Hfirst :
        Csv.feed_char c (rd s0 EmptyString flds recs il) =
        Returned (rd Csv.IN_FIELD (String c EmptyString) flds recs true)).
      { unfold Csv.feed_char, Csv.parse_process_char, Csv.start_field,
          Csv.is_break, Csv.is_char, Csv.parse_add_char.
        destruct Hs0 as [-> | ->];
          cbn [Csv.state Csv.set_state Csv.field Csv.fields Csv.records
               Csv.in_line String.length];
          rewrite Hlf, Hcr, Hquote, Hcomma; cbn [orb];
          change (Csv.field_limit <=? Z.of_nat 0) with false; cbn iota;
          cbn [Csv.state Csv.set_state Csv.field Csv.fields Csv.records
               Csv.in_line]; rewrite ?Hlf; reflexivity. }
      rewrite Hfirst. rewrite feed_unquoted; [reflexivity | exact Hf |].
      cbn [String.length] in *. lia.
Qed.

(** A comma after a field: the field joins the record. *)
Lemma feed_comma s fld flds recs il next :
  ((s = Csv.START_RECORD \/ s = Csv.START_FIELD) /\ fld = EmptyString)
  \/ s = Csv.IN_FIELD \/ s = Csv.QUOTE_IN_QUOTED_FIELD ->
  Csv.feed (Csv.universal_newlines_from false (String Csv.COMMA next))
    (rd s fld flds recs il) =
  Csv.feed (Csv.universal_newlines_from false next)
    (rd Csv.START_FIELD EmptyString (flds ++ [fld]) recs true).
Proof.
  intros Hs. cbn [Csv.universal_newlines_from].
  change (Ascii.eqb Csv.COMMA Csv.CR) with false.
  change (Ascii.eqb Csv.COMMA Csv.LF) with false.
  cbn [Csv.feed].
  destruct Hs as [[[-> | ->] ->] | [-> | ->]]; reflexivity.
Qed.

(** The line terminator after a field: the record is complete. *)
Lemma feed_line_end s fld flds recs il next :
  (s = Csv.START_FIELD /\ fld = EmptyString)
  \/ s = Csv.IN_FIELD \/ s = Csv.QUOTE_IN_QUOTED_FIELD ->
  Csv.feed (Csv.universal_newlines_from false
              (String Csv.CR (String Csv.LF next)))
    (rd s fld flds recs il) =
  Csv.feed (Csv.universal_newlines_from false next)
    (rd Csv.START_RECORD EmptyString [] (recs ++ [flds ++ [fld]]) false).
Proof.
  intros Hs. cbn [Csv.universal_newlines_from].
  change (Ascii.eqb Csv.CR Csv.CR) with true.
  change (Ascii.eqb Csv.LF Csv.CR) with false.
  change (Ascii.eqb Csv.LF Csv.LF) with true.
  cbn iota. cbn [Csv.feed].
  destruct Hs as [[-> ->] | [-> | ->]]; reflexivity.
Qed.

(** The fields after a comma, up to the end of the row. *)
Lemma feed_fields_after_comma fs : forall f flds recs il next,
  Forall (fun s => Z.of_nat (String.length (Csv.universal_newlines s))
                   <= Csv.field_limit) (f :: fs) ->
  Csv.feed
    (Csv.universal_newlines_from false
       (String.concat (String Csv.COMMA EmptyString)
          (map Csv.write_field (f :: fs))
        +:+ String Csv.CR (String Csv.LF next)))
    (rd Csv.START_FIELD EmptyString flds recs il) =
  Csv.feed (Csv.universal_newlines_from false next)
    (rd Csv.START_RECORD EmptyString []
       (recs ++ [flds ++ map Csv.universal_newlines (f :: fs)]) false).
Proof.
  induction fs as [|g fs IH]; intros f flds recs il next Hlen;
    inversion Hlen as [|? ? Hf Hfs]; subst.
  - cbn [map String.concat].
    destruct (feed_field f Csv.START_FIELD flds recs il
                (String Csv.CR (String Csv.LF next)) (or_intror eq_refl) Hf)
      as (s & il' & -> & Hs).
    apply feed_line_end.
    destruct Hs as [(-> & -> & _) | Hs]; [left | right; exact Hs].
    split; reflexivity.
  - change (String.concat (String Csv.COMMA EmptyString)
              (map Csv.write_field (f :: g :: fs)))
      with (Csv.write_field f
            +:+ String Csv.COMMA
                  (String.concat (String Csv.COMMA EmptyString)
                     (map Csv.write_field (g :: fs)))).
    rewrite append_assoc, append_cons.
    destruct (feed_field f Csv.START_FIELD flds recs il
                (String Csv.COMMA
                   (String.concat (String Csv.COMMA EmptyString)
                      (map Csv.write_field (g :: fs))
                    +:+ String Csv.CR (String Csv.LF next)))
                (or_intror eq_refl) Hf)
      as (s & il' & -> & Hs).
    rewrite feed_comma.
    + rewrite IH by exact Hfs. cbn [map]. now rewrite <- app_assoc.
    + destruct Hs as [(-> & -> & _) | Hs]; [left | right; exact Hs].
      split; [now right | reflexivity].
Qed.

(** One row of the writer, from the start of a record. *)
Lemma feed_writerow row recs next :
  Forall (fun s => Z.of_nat (String.length (Csv.universal_newlines s))
                   <= Csv.field_limit) row ->
  Csv.feed (Csv.universal_newlines_from false (Csv.writerow row +:+ next))
    (rd Csv.START_RECORD EmptyString [] recs false) =
  Csv.feed (Csv.universal_newlines_from false next)
    (rd Csv.START_RECORD EmptyString []
       (recs ++ [map Csv.universal_newlines row]) false).
Proof.
  intros Hlen. destruct row as [|f fs].
  - reflexivity.
  - inversion Hlen as [|? ? Hf Hfs]; subst.
    destruct fs as [|g fs].
    + destruct f as [|c f]; [reflexivity |].
      unfold Csv.writerow. cbn [map String.concat].
      rewrite append_assoc.
      change (String Csv.CR (String Csv.LF EmptyString) +:+ next)
        with (String Csv.CR (String Csv.LF next)).
      destruct (feed_field (String c f) Csv.START_RECORD [] recs false
                  (String Csv.CR (String Csv.LF next)) (or_introl eq_refl) Hf)
        as (s & il' & -> & Hs).
      rewrite feed_line_end; [reflexivity |].
      destruct Hs as [(_ & [=] & _) | Hs]. right; exact Hs.
    + assert (Hrow : Csv.writerow (f :: g :: fs) =
        Csv.write_field f
        +:+ String Csv.COMMA
              (String.concat (String Csv.COMMA EmptyString)
                 (map Csv.write_field (g :: fs))
               +:+ String Csv.CR (String Csv.LF EmptyString))).
      { unfold Csv.writerow.
        change (String.concat (String Csv.COMMA EmptyString)
                  (map Csv.write_field (f :: g :: fs)))
          with (Csv.write_field f
                +:+ String Csv.COMMA
                      (String.concat (String Csv.COMMA EmptyString)
                         (map Csv.write_field (g :: fs)))).
        destruct f as [|c [|c' f]]; now rewrite append_assoc, append_cons. }
      rewrite Hrow. rewrite !append_assoc, append_cons, append_assoc.
      change (String Csv.CR (String Csv.LF EmptyString) +:+ next)
        with (String Csv.CR (String Csv.LF next)).
      destruct (feed_field f Csv.START_RECORD [] recs false
                  (String Csv.COMMA
                     (String.concat (String Csv.COMMA EmptyString)
                        (map Csv.write_field (g :: fs))
                      +:+ String Csv.CR (String Csv.LF next)))
                  (or_introl eq_refl) Hf)
        as (s & il' & -> & Hs).
      rewrite feed_comma.
      * rewrite feed_fields_after_comma by exact Hfs. reflexivity.
      * destruct Hs as [(-> & -> & _) | Hs]; [left | right; exact Hs].
        split; [now left | reflexivity].
Qed.

Lemma text_of_cons row rows :
  Csv.text_of (row :: rows) = Csv.writerow row +:+ Csv.text_of rows.
Proof.
  unfold Csv.text_of. destruct rows as [|row' rows]; cbn [map String.concat].
  - now rewrite append_empty_r.
  - reflexivity.
Qed.

(** All the rows of a file. *)
Lemma feed_text_of rows : forall recs,
  Forall (Forall (fun s =>
            Z.of_nat (String.length (Csv.universal_newlines s))
            <= Csv.field_limit)) rows ->
  Csv.feed (Csv.universal_newlines (Csv.text_of rows))
    (rd Csv.START_RECORD EmptyString [] recs false) =
  Returned (rd Csv.START_RECORD EmptyString []
              (recs ++ map (map Csv.universal_newlines) rows) false).
Proof.
  unfold Csv.universal_newlines at 2.
  induction rows as [|row rows IH]; intros recs Hlen.
  - cbn. now rewrite app_nil_r.
  - inversion Hlen as [|? ? Hrow Hrows]; subst.
    rewrite text_of_cons, feed_writerow by exact Hrow.
    rewrite IH by exact Hrows. cbn [map]. now rewrite <- app_assoc.
Qed.

End ReaderFields.

(** What the writer wrote for any rows, the reader gives back row by
    row, each cell as the text layer translates it. *)
Lemma reader_text_of rows :
  Forall (Forall (fun s =>
            Z.of_nat (String.length (Csv.universal_newlines s))
            <= Csv.field_limit)) rows ->
  Csv.reader (Csv.universal_newlines (Csv.text_of rows)) =
  Returned (map (map Csv.universal_newlines) rows).
Proof.
  intros Hlen. unfold Csv.reader, Csv.new_reader.
  rewrite feed_text_of by exact Hlen. reflexivity.
Qed.

(** Rows without a carriage return in any cell are read from their text
    as they are: there the rows of cells a file is kept as are the
    rows the reader gives. *)
Lemma reader_gives_the_rows_written rows :
  Forall (Forall (fun s =>
            Py.in_chars s Csv.CR = false /\
            Z.of_nat (String.length s) <= Csv.field_limit)) rows ->
  Csv.reader (Csv.universal_newlines (Csv.text_of rows)) = Returned rows.
Proof.
  intros Hrows. rewrite reader_text_of.
  - f_equal. rewrite <- (map_id rows) at 2. apply map_ext_in.
    intros row Hrow. rewrite <- (map_id row) at 2. apply map_ext_in.
    intros s Hs. rewrite List.Forall_forall in Hrows.
    specialize (Hrows row Hrow). rewrite List.Forall_forall in Hrows.
    now apply universal_newlines_without_cr, Hrows.
  - eapply List.Forall_impl; [| exact Hrows].
    intros row. apply List.Forall_impl. intros s [Hcr Hlen].
    now rewrite universal_newlines_without_cr.
Qed.

(** The text layer leaves no carriage return. *)
Lemma universal_newlines_no_cr s : forall b,
  Py.in_chars (Csv.universal_newlines_from b s) Csv.CR = false.
Proof.
  induction s as [|c s IH]; intros b; [reflexivity |].
  cbn [Csv.universal_newlines_from].
  destruct (Ascii.eqb_spec c Csv.CR) as [-> | Hcr]; [cbn; apply IH |].
  destruct (Ascii.eqb c Csv.LF).
  - destruct b; [apply IH | cbn; apply IH].
  - cbn [Py.in_chars]. rewrite IH, orb_false_r.
    apply Ascii.eqb_neq. congruence.
Qed.

(** A text is read as it was written exactly when it has no carriage
    return. *)
Lemma universal_newlines_fixed s :
  Csv.universal_newlines s = s <-> Py.in_chars s Csv.CR = false.
Proof.
  split; [| apply universal_newlines_without_cr].
  intros H. rewrite <- H. apply universal_newlines_no_cr.
Qed.

Lemma dict_rows_artifact (tag_name : string) (qs : list string) :
  dict_rows (map (map Csv.universal_newlines) (artifact_rows tag_name qs)) =
  map (fun q => [("question", Csv.universal_newlines q);
                 ("tag", Csv.universal_newlines tag_name)]) qs.
Proof.
  unfold artifact_rows. cbn [map dict_rows].
  induction qs as [|q qs IH]; [reflexivity |].
  cbn [map List.filter is_nil negb]. rewrite IH. reflexivity.
Qed.

(** Reading back with [read_individual_csv], through the text of the
    file, what [save_individual_csv] wrote for a tag gives one row per
    question, in order, under the keys [question] and [tag]; the
    question and the tag are those written up to the line ends inside
    them: a carriage return, with the line feed that may follow it, is
    read back as one line feed.  So the rows are read back as written
    when no question and not the tag has a carriage return, and a
    question that has one is read back changed.  Those cells are not
    longer than the field limit of the reader. *)
Theorem saved_artifact_reads_back
    (tag_name : string) (generated_questions : list string) (w : world) :
  Forall (fun s => Z.of_nat (String.length s) <= Csv.field_limit)
    (tag_name :: generated_questions) ->
  let rows :=
    Csv.read_individual_csv
      (output_dir (save_individual_csv tag_name generated_questions w))
      (artifact_name tag_name) in
  rows =
    Returned (map (fun q => [("question", Csv.universal_newlines q);
                             ("tag", Csv.universal_newlines tag_name)])
                generated_questions) /\
  (Forall (fun s => Py.in_chars s Csv.CR = false)
     (tag_name :: generated_questions) ->
   rows = Returned (map (fun q => [("question", q); ("tag", tag_name)])
                      generated_questions)) /\
  (forall q, In q generated_questions -> Py.in_chars q Csv.CR = true ->
     Csv.universal_newlines q <> q).
Proof.
  intros Hlen rows.
  assert (Hrows : rows =
    Returned (map (fun q => [("question", Csv.universal_newlines q);
                             ("tag", Csv.universal_newlines tag_name)])
                generated_questions)).
  { subst rows. unfold Csv.read_individual_csv, save_individual_csv.
    cbn [output_dir emit]. rewrite lookup_insert_eq.
    unfold Csv.dict_reader. rewrite reader_text_of.
    - now rewrite dict_rows_artifact.
    - assert (Hcell : forall s,
        Z.of_nat (String.length s) <= Csv.field_limit ->
        Z.of_nat (String.length (Csv.universal_newlines s))
        <= Csv.field_limit).
      { intros s Hs.
        pose proof (length_universal_newlines_from s false).
        unfold Csv.universal_newlines. lia. }
      inversion Hlen as [|? ? Htag Hqs]; subst.
      unfold artifact_rows. constructor.
      + repeat constructor; vm_compute; discriminate.
      + rewrite List.Forall_forall in *. intros row Hrow.
        apply in_map_iff in Hrow as (q & <- & Hq).
        repeat constructor; apply Hcell; auto. }
  split; [exact Hrows |]. split.
  - intros Hcr. rewrite Hrows. f_equal.
    inversion Hcr as [|? ? Htag Hqs]; subst.
    rewrite (universal_newlines_without_cr tag_name Htag).
    apply map_ext_in. intros q Hq.
    rewrite List.Forall_forall in Hqs.
    now rewrite (universal_newlines_without_cr q (Hqs q Hq)).
  - intros q _ Hcr Hfix. apply universal_newlines_fixed in Hfix. congruence.
Qed.

Lemma saved_artifact_reads_back_witness :
  Forall (fun s => Z.of_nat (String.length s) <= Csv.field_limit)
    ["t"; cr_question] /\
  Csv.read_individual_csv
    (output_dir (save_individual_csv "t" [cr_question] fresh_world))
    "t.csv" =
  Returned [[("question", lf_question); ("tag", "t")]].
Proof.
  assert (H : Forall (fun s => Z.of_nat (String.length s) <= Csv.field_limit)
                ["t"; cr_question])
    by (repeat constructor; vm_compute; discriminate).
  split; [exact H |].
  exact (proj1 (saved_artifact_reads_back "t" [cr_question] fresh_world H)).
Defined.

(** The text of that file and what the reader is given. *)
Example text_of_an_artifact :
  Csv.text_of (artifact_rows "t" [cr_question]) =
  "question,tag" +:+ String Csv.CR (String Csv.LF
    (String Csv.QUOTE (cr_question +:+ String Csv.QUOTE
       (",t" +:+ String Csv.CR (String Csv.LF EmptyString))))) /\
  Csv.universal_newlines (Csv.text_of (artifact_rows "t" [cr_question])) =
  "question,tag" +:+ String Csv.LF
    (String Csv.QUOTE (lf_question +:+ String Csv.QUOTE
       (",t" +:+ String Csv.LF EmptyString))).
Proof. split; vm_compute; reflexivity. Qed.
